(** * The DOSBox mailbox bridge: guest server (MBXSRV) and host client (mbxhost)

    A shallow embedding of the two programs of the repository and the
    properties of their mailbox protocol.

    - [Chars]  : the C character and string helpers both programs rely on.
    - [Guest]  : MBXSRV.C, the DOS-side server, over a model of the shared
                 directory (a finite map from file names to the characters
                 seen through the C text stream).
    - [Host]   : host-os.cpp, the client, over a logical clock and the
                 observations the shared directory offers at each instant.
    - [Refusal]: the functions of the server that rename a file, over a
                 directory that may refuse a rename.
    - [Steady] : the wait of the client, over a clock that moves on during
                 the calls as well. *)

From Stdlib Require Import ZArith Ascii String List Lia Bool.
From Stdlib Require Import DecimalString DecimalPos.
From stdpp Require Import base option list gmap strings fin_maps.

Open Scope Z_scope.

Abbreviation text := (list ascii).

(* ===================================================================== *)
(** ** Characters and C strings *)
(* ===================================================================== *)

Module Chars.

Definition NUL : ascii := "000"%char.
Definition TAB : ascii := "009"%char.
Definition LF  : ascii := "010"%char.
Definition VT  : ascii := "011"%char.
Definition FF  : ascii := "012"%char.
Definition CR  : ascii := "013"%char.
Definition SP  : ascii := " "%char.

(** A literal of the source, as the characters it denotes. *)
Definition str (s : string) : text := list_ascii_of_string s.

Definition crlf : text := [CR; LF].

Definition code (c : ascii) : Z := Z.of_N (N_of_ascii c).

(** [isspace] in the C locale: space and the controls 9..13. *)
Definition isspace (c : ascii) : bool :=
  (code c =? 32) || ((9 <=? code c) && (code c <=? 13)).

Definition isdigit (c : ascii) : bool :=
  (48 <=? code c) && (code c <=? 57).

Definition digit_val (c : ascii) : Z := code c - 48.

(** [tolower] in the C locale. *)
Definition tolower (c : ascii) : ascii :=
  if (65 <=? code c) && (code c <=? 90)
  then ascii_of_N (Z.to_N (code c + 32))
  else c.

(** The C string held by a buffer: the characters before the first NUL. *)
Fixpoint c_str (buf : text) : text :=
  match buf with
  | [] => []
  | c :: rest => if Ascii.eqb c NUL then [] else c :: c_str rest
  end.

(** [strlen] as an [int]. *)
Definition strlen (buf : text) : Z := Z.of_nat (length (c_str buf)).

Fixpoint skip_while (p : ascii -> bool) (s : text) : text :=
  match s with
  | [] => []
  | c :: rest => if p c then skip_while p rest else s
  end.

(** Dropping from the end, as the [while (n > 0 && p(s[n-1])) s[--n] = 0]
    loops of the source do. *)
Definition chop_while (p : ascii -> bool) (s : text) : text :=
  rev (skip_while p (rev s)).

(** [trim] of MBXSRV.C: leading then trailing [isspace] characters go. *)
Definition trim (s : text) : text :=
  chop_while isspace (skip_while isspace s).

(** [stricmp]: the difference of the first pair of characters that differ
    after [tolower], [0] when there is none. *)
Fixpoint stricmp (a b : text) : Z :=
  match a, b with
  | [], [] => 0
  | [], y :: _ => 0 - code (tolower y)
  | x :: _, [] => code (tolower x)
  | x :: a', y :: b' =>
      let d := code (tolower x) - code (tolower y) in
      if d =? 0 then stricmp a' b' else d
  end.

(** [fgets(buf, cap, f)] on the unread part [s] of a stream: at most
    [cap - 1] characters, stopping after a line feed.  [fgets_aux n s]
    is the pair of the characters read and the characters left. *)
Fixpoint fgets_aux (n : nat) (s : text) : text * text :=
  match n, s with
  | O, _ => ([], s)
  | _, [] => ([], [])
  | S n', c :: rest =>
      if Ascii.eqb c LF then ([c], rest)
      else let r := fgets_aux n' rest in (c :: fst r, snd r)
  end.

Definition fgets (cap : nat) (s : text) : option (text * text) :=
  match s with
  | [] => None
  | _ => Some (fgets_aux (cap - 1) s)
  end.

(** The buffers successive [fgets] calls deliver until end of file. Every
    call consumes a character, so [length s] calls are enough. *)
Fixpoint fgets_seq (fuel : nat) (cap : nat) (s : text) : list text :=
  match fuel with
  | O => []
  | S fuel' =>
      match fgets cap s with
      | None => []
      | Some (buf, rest) => buf :: fgets_seq fuel' cap rest
      end
  end.

Definition fgets_all (cap : nat) (s : text) : list text :=
  fgets_seq (length s) cap s.

(** Decimal output of [printf]: [%d] and [%0<w>u]. *)
Definition fmt_d (z : Z) : text :=
  str (NilZero.string_of_int (Z.to_int z)).

Definition fmt_u (n : nat) : text :=
  str (NilZero.string_of_uint (Nat.to_uint n)).

Definition fmt_0u (width : nat) (n : nat) : text :=
  let d := fmt_u n in
  repeat "0"%char (width - length d) ++ d.

(** The digits at the head of [s], as a number, and what follows them. *)
Fixpoint scan_digits (acc : Z) (s : text) : Z * text :=
  match s with
  | c :: rest =>
      if isdigit c then scan_digits (10 * acc + digit_val c) rest
      else (acc, s)
  | [] => (acc, [])
  end.

(** An optionally signed decimal number at the head of [s] (after white
    space): [None] when no digit follows the optional sign. *)
Definition scan_int (s : text) : option Z :=
  let s1 := skip_while isspace s in
  let '(neg, s2) :=
    match s1 with
    | c :: rest =>
        if Ascii.eqb c "-"%char then (true, rest)
        else if Ascii.eqb c "+"%char then (false, rest)
        else (false, s1)
    | [] => (false, s1)
    end in
  match s2 with
  | c :: _ =>
      if isdigit c
      then let v := fst (scan_digits 0 s2) in Some (if neg then - v else v)
      else None
  | [] => None
  end.

Definition INT_MAX : Z := 2147483647.
Definition INT_MIN : Z := -2147483648.

End Chars.

(* ===================================================================== *)
(** ** The guest server, MBXSRV.C *)
(* ===================================================================== *)

Module Guest.
Import Chars.

Definition CMD_TXT : string := "CMD.TXT".
Definition CMD_RUN : string := "CMD.RUN".
Definition OUT_TXT : string := "OUT.TXT".
Definition OUT_NEW : string := "OUT.NEW".
Definition RC_TXT  : string := "RC.TXT".
Definition RC_NEW  : string := "RC.NEW".
Definition STA_TXT : string := "STA.TXT".
Definition STA_NEW : string := "STA.NEW".
Definition LOG_TXT : string := "LOG.TXT".
Definition JOB_BAT : string := "MBXJOB.BAT".

Definition MAX_LINE : nat := 512.
Definition MAX_PAYLOAD : Z := 32 * 1024.

(** The DOS date and time [timestamp] reads. *)
Record DosStamp := mkStamp {
  year : nat; month : nat; day : nat;
  hour : nat; minute : nat; second : nat }.

(** What the server can see and change.  A file is the sequence of
    characters its C text stream carries.  Opening for writing is the one
    operation the environment may refuse ([can_write]); [remove] and
    [rename] fail exactly when the names say so (nothing to remove, no
    source, destination in the way); the module [Refusal] below has the
    functions that rename over a directory that may refuse a rename as
    well.  [errno] and the clock are inputs of the environment that the
    server only reads: the value the failed calls of the server itself
    leave in [errno] is not modelled, and the statements leave that
    number open. *)
Record World := mkWorld {
  files : gmap string text;
  can_write : string -> bool;
  errno : Z;
  clock : DosStamp;
  keys : list Z;
  comspec : option text;
  mbx_stderr : option text }.

Definition with_files (fs : gmap string text) (w : World) : World :=
  mkWorld fs (can_write w) (errno w) (clock w) (keys w)
          (comspec w) (mbx_stderr w).

Definition with_keys (ks : list Z) (w : World) : World :=
  mkWorld (files w) (can_write w) (errno w) (clock w) ks
          (comspec w) (mbx_stderr w).

(** The calls that leave the process, in the order they are made. *)
Inductive Event :=
| EvOpenR (path : string)
| EvOpenW (path : string)
| EvOpenA (path : string)
| EvRemove (path : string)
| EvRename (from to : string)
| EvExec (cmdline : text)
| EvSleep (ms : Z).

Record Out (A : Type) := mkOut { val : A; post : World; evs : list Event }.
Arguments mkOut {A} _ _ _.
Arguments val {A} _.
Arguments post {A} _.
Arguments evs {A} _.

Definition M (A : Type) : Type := World -> Out A.

Definition ret {A} (a : A) : M A := fun w => mkOut a w [].

Definition bind {A B} (m : M A) (f : A -> M B) : M B := fun w =>
  let r1 := m w in
  let r2 := f (val r1) (post r1) in
  mkOut (val r2) (post r2) (evs r1 ++ evs r2).

Declare Scope guest_scope.
Delimit Scope guest_scope with guest.
Notation "'let*' x ':=' m 'in' k" := (bind m (fun x => k))
  (at level 10, x name, m at level 100, k at level 200) : guest_scope.
Notation "m '>>' k" := (bind m (fun _ => k))
  (at level 100, k at level 200, right associativity) : guest_scope.
Open Scope guest_scope.

Definition emit (e : Event) : M unit := fun w => mkOut tt w [e].
Definition get_files : M (gmap string text) := fun w => mkOut (files w) w [].
Definition put_files (fs : gmap string text) : M unit :=
  fun w => mkOut tt (with_files fs w) [].
Definition ask {A} (f : World -> A) : M A := fun w => mkOut (f w) w [].

(** *** The C library over the shared directory *)

(** [access(path, 0) == 0] *)
Definition file_exists (path : string) : M bool :=
  let* fs := get_files in
  ret (bool_decide (is_Some (fs !! path))).

(** [remove(path)]: [0], or [-1] when there is no such file. *)
Definition remove (path : string) : M Z :=
  emit (EvRemove path) >>
  let* fs := get_files in
  match fs !! path with
  | Some _ => put_files (delete path fs) >> ret 0
  | None => ret (-1)
  end.

(** [rename(from, to)] under DOS: [-1] when [from] is missing or [to]
    exists. *)
Definition rename (from to : string) : M Z :=
  emit (EvRename from to) >>
  let* fs := get_files in
  match fs !! from, fs !! to with
  | Some c, None => put_files (<[to := c]> (delete from fs)) >> ret 0
  | _, _ => ret (-1)
  end.

(** [fopen(path, "wt")]: the file is created or truncated. *)
Definition fopen_wt (path : string) : M bool :=
  emit (EvOpenW path) >>
  let* ok := ask (fun w => can_write w path) in
  if ok then
    let* fs := get_files in put_files (<[path := []]> fs) >> ret true
  else ret false.

(** [fopen(path, "at")]: the file is created when missing. *)
Definition fopen_at (path : string) : M bool :=
  emit (EvOpenA path) >>
  let* ok := ask (fun w => can_write w path) in
  if ok then
    let* fs := get_files in
    put_files (<[path := default [] (fs !! path)]> fs) >> ret true
  else ret false.

(** [fopen(path, "rt")]: the characters to read, when the file exists. *)
Definition fopen_rt (path : string) : M (option text) :=
  emit (EvOpenR path) >>
  let* fs := get_files in ret (fs !! path).

(** Characters sent to the stream opened on [path]: the output of
    [fprintf], or of [fputs] on a literal. *)
Definition fprint (s : text) (path : string) : M unit :=
  let* fs := get_files in
  put_files (alter (fun old => old ++ s) path fs).

(** [fputs(buf, f)] on a buffer: its C string goes out. *)
Definition fputs (buf : text) (path : string) : M unit :=
  fprint (c_str buf) path.

Definition ms_sleep (ms : Z) : M unit := emit (EvSleep ms).

(** *** MBXSRV.C *)

Definition timestamp (d : DosStamp) : text :=
  fmt_0u 4 (year d) ++ str "-" ++ fmt_0u 2 (month d) ++ str "-" ++
  fmt_0u 2 (day d) ++ str " " ++ fmt_0u 2 (hour d) ++ str ":" ++
  fmt_0u 2 (minute d) ++ str ":" ++ fmt_0u 2 (second d).

Definition log_entry (d : DosStamp) (msg : text) : text :=
  str "[" ++ timestamp d ++ str "] " ++ msg ++ crlf.

Definition log_line (msg : text) : M unit :=
  let* f := fopen_at LOG_TXT in
  if f then
    let* d := ask clock in
    fprint (log_entry d msg) LOG_TXT
  else ret tt.

(** [logf2]: the two strings are joined in a buffer of 256 bytes,
    [strncpy] keeping at most 255 characters of the first and [strncat]
    as many of the second as still fit. *)
Definition logf2 (a b : text) : M unit :=
  let buf := firstn 255 (c_str a) in
  log_line (buf ++ firstn (255 - length buf) (c_str b)).

Definition write_text_atomic (temp final : string) (txt : text) : M bool :=
  remove temp >>
  let* f := fopen_wt temp in
  if f then
    fprint txt temp >>
    fprint crlf temp >>
    remove final >>
    let* r := rename temp final in
    ret (r =? 0)
  else ret false.

Definition set_status (state : text) : M unit :=
  let* ok := write_text_atomic STA_NEW STA_TXT state in
  if ok then ret tt
  else log_line (str "WARN: failed to write STA.TXT").

Fixpoint claim_tries (tries : nat) : M bool :=
  match tries with
  | O => ret false
  | S n =>
      let* present := file_exists CMD_TXT in
      if present then
        let* r := rename CMD_TXT CMD_RUN in
        if r =? 0 then ret true
        else ms_sleep 50 >> claim_tries n
      else ret false
  end.

Definition claim_cmd : M bool :=
  remove CMD_RUN >> claim_tries 20.

(** The line a buffer of [fgets] holds once its trailing CR and LF are cut
    and it is trimmed. *)
Definition is_eol (c : ascii) : bool := Ascii.eqb c CR || Ascii.eqb c LF.

Definition clean_line (buf : text) : text :=
  trim (chop_while is_eol (c_str buf)).

Fixpoint first_nonempty (bufs : list text) : option text :=
  match bufs with
  | [] => None
  | buf :: rest =>
      match clean_line buf with
      | [] => first_nonempty rest
      | l => Some l
      end
  end.

Definition read_first_nonempty_line (path : string) (bufsz : nat)
  : M (option text) :=
  let* f := fopen_rt path in
  match f with
  | None => ret None
  | Some content => ret (first_nonempty (fgets_all bufsz content))
  end.

(** The copy loop of [build_job_bat_from_cmd] over the buffers [fgets]
    delivers: [inl total] when every line went through, [inr total] when
    the line that would pass [MAX_PAYLOAD] was met. *)
Fixpoint copy_payload (bufs : list text) (total : Z) : M (Z + Z) :=
  match bufs with
  | [] => ret (inl total)
  | line :: rest =>
      let len := strlen line in
      if total + len >? MAX_PAYLOAD then
        fprint (str "rem ERROR: payload too large" ++ crlf) JOB_BAT >>
        fprint (str "echo 1 > " ++ str RC_NEW ++ crlf) JOB_BAT >>
        ret (inr total)
      else
        fputs line JOB_BAT >>
        copy_payload rest (total + len)
  end.

(** [build_job_bat_from_cmd]: the result and the value left in
    [*out_payload_bytes], which the caller initialised to [0]. *)
Definition build_job_bat_from_cmd (cmd_path : string) : M (bool * Z) :=
  remove JOB_BAT >>
  remove RC_NEW >>
  let* inp := fopen_rt cmd_path in
  match inp with
  | None => ret (false, 0)
  | Some content =>
      let* out := fopen_wt JOB_BAT in
      if out then
        fprint (str "@echo off" ++ crlf) JOB_BAT >>
        fprint (str "rem MBXSRV job wrapper" ++ crlf) JOB_BAT >>
        let* r := copy_payload (fgets_all MAX_LINE content) 0 in
        match r with
        | inr total => ret (false, total)
        | inl total =>
            fprint (crlf ++ str "rem Capture ERRORLEVEL of last command"
                   ++ crlf) JOB_BAT >>
            fprint (str "echo %errorlevel% > " ++ str RC_NEW ++ crlf)
                  JOB_BAT >>
            ret (true, total)
        end
      else ret (false, 0)
  end.

(** The command line [exec_job_to_out] hands to [system].  The program
    builds it in a buffer of 256 bytes with [strcpy] and [strcat]: this is
    the line for a result of at most 255 characters, and a statement that
    names the line assumes as much. *)
Definition job_cmdline (comspec mbx_stderr : option text) : text :=
  let shell :=
    match c_str <$> comspec with
    | Some (c :: s) => c :: s
    | _ => str "COMMAND.COM"
    end in
  let base := shell ++ str " /C " ++ str JOB_BAT ++ str " > " ++ str OUT_NEW in
  match c_str <$> mbx_stderr with
  | Some (c :: _) => if Ascii.eqb c "1"%char then base ++ str " 2>&1" else base
  | _ => base
  end.

Section Server.

(** The command interpreter: [system(cmdline)] changes the shared
    directory as the job pleases and reports a status. *)
Variable system : text -> gmap string text -> gmap string text * Z.

Definition call_system (cmdline : text) : M Z :=
  emit (EvExec cmdline) >>
  let* fs := get_files in
  let r := system cmdline fs in
  put_files (fst r) >> ret (snd r).

Definition exec_job_to_out : M Z :=
  let* cs := ask comspec in
  let* se := ask mbx_stderr in
  remove OUT_NEW >>
  call_system (job_cmdline cs se).

Definition publish_results (sys_rc : Z) : M unit :=
  (let* have_out := file_exists OUT_NEW in
   if have_out then ret tt
   else
     let* f := fopen_wt OUT_NEW in
     if f then
       fprint (str "ERROR: OUT.NEW missing (system rc=" ++ fmt_d sys_rc
              ++ str ")" ++ crlf) OUT_NEW
     else ret tt) >>
  remove OUT_TXT >>
  (let* r := rename OUT_NEW OUT_TXT in
   if r =? 0 then ret tt
   else
     let* e := ask errno in
     log_line (str "ERROR: failed to rename OUT.NEW -> OUT.TXT (errno="
               ++ fmt_d e ++ str ")")) >>
  let* have_rc := file_exists RC_NEW in
  if have_rc then
    remove RC_TXT >>
    let* r := rename RC_NEW RC_TXT in
    if r =? 0 then ret tt
    else
      let* e := ask errno in
      log_line (str "ERROR: failed to rename RC.NEW -> RC.TXT (errno="
                ++ fmt_d e ++ str ")")
  else
    let* f := fopen_wt RC_TXT in
    if f then fprint (str "1" ++ crlf) RC_TXT else ret tt.

Definition write_error_output (what : text) : M unit :=
  remove OUT_NEW >>
  let* f := fopen_wt OUT_NEW in
  if f then
    let* e := ask errno in
    fprint (str "ERROR: " ++ what ++ crlf) OUT_NEW >>
    fprint (str "errno=" ++ fmt_d e ++ crlf) OUT_NEW >>
    remove OUT_TXT >>
    rename OUT_NEW OUT_TXT >>
    remove RC_NEW >>
    (let* g := fopen_wt RC_NEW in
     if g then fprint (str "1" ++ crlf) RC_NEW else ret tt) >>
    remove RC_TXT >>
    rename RC_NEW RC_TXT >>
    ret tt
  else ret tt.

Definition is_exit_cmd (s : text) : bool :=
  (stricmp s (str "EXIT") =? 0) || (stricmp s (str "QUIT") =? 0).

(** [atoi]: the number at the head of the argument, [0] when there is
    none, held to the range of [int]. *)
Definition atoi (s : text) : Z :=
  match scan_int s with
  | Some v => Z.max INT_MIN (Z.min INT_MAX v)
  | None => 0
  end.

(** The head of [main]: the idle interval from [argv]. *)
Definition idle_ms_of (argv : list text) : Z :=
  match argv with
  | _ :: a1 :: _ =>
      let v := atoi a1 in
      if (v >=? 10) && (v <=? 2000) then v else 100
  | _ => 100
  end.

(** [(unsigned)idle_ms] *)
Definition to_unsigned (v : Z) : Z := v mod 2 ^ 32.

(** [main] up to its loop. *)
Definition startup : M unit :=
  log_line (str "MBXSRV starting") >>
  set_status (str "READY") >>
  let* stale := file_exists CMD_RUN in
  if stale then log_line (str "Found stale CMD.RUN; will process it")
  else ret tt.

Inductive Ctl := Continue | Break.

(** [kbhit()] and [getch()] on the pending keystrokes. *)
Definition kbhit : M bool := ask (fun w => negb (bool_decide (keys w = []))).
Definition getch : M Z := fun w =>
  match keys w with
  | [] => mkOut 0 w []
  | k :: ks => mkOut k (with_keys ks w) []
  end.

(** The body of [if (file_exists(CMD_RUN)) { ... }] in the loop. *)
Definition process_cmd_run (idle_ms : Z) : M Ctl :=
  set_status (str "RUNNING") >>
  let* first := read_first_nonempty_line CMD_RUN MAX_LINE in
  match first with
  | None =>
      log_line (str "ERROR: CMD.RUN empty") >>
      write_error_output (str "CMD file is empty") >>
      remove CMD_RUN >>
      set_status (str "READY") >>
      ms_sleep (to_unsigned idle_ms) >>
      ret Continue
  | Some first =>
      if is_exit_cmd first then
        log_line (str "Received EXIT/QUIT") >>
        write_text_atomic OUT_NEW OUT_TXT (str "MBXSRV BYE") >>
        write_text_atomic RC_NEW RC_TXT (str "0") >>
        remove CMD_RUN >>
        set_status (str "BYE") >>
        ret Break
      else
        let* b := build_job_bat_from_cmd CMD_RUN in
        if fst b then
          log_line (str "Executing job (payload=" ++ fmt_d (snd b)
                    ++ str " bytes)") >>
          remove OUT_TXT >>
          remove RC_TXT >>
          let* sys_rc := exec_job_to_out in
          log_line (str "system() rc=" ++ fmt_d sys_rc) >>
          publish_results sys_rc >>
          remove CMD_RUN >>
          set_status (str "READY") >>
          ms_sleep (to_unsigned idle_ms) >>
          ret Continue
        else
          let* e := ask errno in
          log_line (str "ERROR: build_job_bat failed (payload="
                    ++ fmt_d (snd b) ++ str ", errno=" ++ fmt_d e
                    ++ str ")") >>
          write_error_output
            (str "Failed to build MBXJOB.BAT (payload too large or file error)") >>
          remove CMD_RUN >>
          set_status (str "READY") >>
          ms_sleep (to_unsigned idle_ms) >>
          ret Continue
  end.

(** The body of [if (!file_exists(CMD_RUN) && file_exists(CMD_TXT))] and
    its guard. *)
Definition claim_pending : M unit :=
  let* run := file_exists CMD_RUN in
  let* txt := file_exists CMD_TXT in
  if negb run && txt then
    let* claimed := claim_cmd in
    if claimed then log_line (str "Claimed CMD.TXT -> CMD.RUN")
    else ret tt
  else ret tt.

(** One turn of the [for (;;)] loop of [main]. *)
Definition tick (idle_ms : Z) : M Ctl :=
  let* hit := kbhit in
  let* ch := (if hit then getch else ret 0) in
  if hit && (ch =? 27) then
    log_line (str "ESC pressed; exiting") >>
    set_status (str "BYE") >>
    ret Break
  else
    claim_pending >>
    let* run := file_exists CMD_RUN in
    if run then process_cmd_run idle_ms
    else ms_sleep (to_unsigned idle_ms) >> ret Continue.

(** The loop, for as many turns as [fuel] allows: [None] when it is still
    running then. *)
Fixpoint serve (fuel : nat) (idle_ms : Z) : M (option unit) :=
  match fuel with
  | O => ret None
  | S n =>
      let* c := tick idle_ms in
      match c with
      | Break => ret (Some tt)
      | Continue => serve n idle_ms
      end
  end.

Definition main (fuel : nat) (argv : list text) : M (option Z) :=
  startup >>
  let* r := serve fuel (idle_ms_of argv) in
  match r with
  | Some _ => log_line (str "MBXSRV stopped") >> ret (Some 0)
  | None => ret None
  end.

End Server.

End Guest.

(* ===================================================================== *)
(** ** The host client, host-os.cpp *)
(* ===================================================================== *)

Module Host.
Import Chars.

(** The slots of [MailboxPaths], named within the shared directory. *)
Definition cmd_new : string := "CMD.NEW".
Definition cmd_txt : string := "CMD.TXT".
Definition out_txt : string := "OUT.TXT".
Definition rc_txt  : string := "RC.TXT".

(** What the shared directory offers the client.  Time is the steady
    clock in milliseconds; the guest works on its own, so what a probe of
    a result slot finds is a function of the instant: the modification
    time and the content, or nothing.  The environment also decides, at
    each instant, whether a write, a rename or a copy goes through. *)
Record Env := mkEnv {
  out_at : Z -> option (Z * text);
  rc_at : Z -> option (Z * text);
  write_ok : Z -> bool;
  rename_ok : Z -> bool;
  copy_ok : Z -> bool;
  dir_exists : bool }.

Definition seen (env : Env) (path : string) (t : Z) : option (Z * text) :=
  if String.eqb path out_txt then out_at env t
  else if String.eqb path rc_txt then rc_at env t
  else None.

(** The [std::exception]s that reach [main]. *)
Inductive Exn :=
| FailedToOpen (path : string)
| FailedToWrite (path : string)
| FailedToMove (from to : string)
| TimeoutWaiting
| StoiFailed.

Inductive HEvent :=
| HProbe (path : string) (t : Z)
| HRead (path : string) (t : Z)
| HRemove (path : string)
| HWrite (path : string) (content : text)
| HRename (from to : string)
| HCopy (from to : string)
| HSleep (ms : Z)
| HOut (s : text)
| HErr (s : text).

Record Res (A : Type) := mkRes {
  outcome : Exn + A; now_after : Z; trace : list HEvent }.
Arguments mkRes {A} _ _ _.
Arguments outcome {A} _.
Arguments now_after {A} _.
Arguments trace {A} _.

(** A computation reads the clock, may throw, and may still be running
    when the fuel of its loops is spent ([None]). *)
Definition HM (A : Type) : Type := Z -> option (Res A).

Definition hret {A} (a : A) : HM A := fun t => Some (mkRes (inr a) t []).
Definition throw {A} (e : Exn) : HM A := fun t => Some (mkRes (inl e) t []).
Definition spent {A} : HM A := fun _ => None.

Definition hbind {A B} (m : HM A) (f : A -> HM B) : HM B := fun t =>
  match m t with
  | None => None
  | Some r1 =>
      match outcome r1 with
      | inl e => Some (mkRes (inl e) (now_after r1) (trace r1))
      | inr a =>
          match f a (now_after r1) with
          | None => None
          | Some r2 =>
              Some (mkRes (outcome r2) (now_after r2) (trace r1 ++ trace r2))
          end
      end
  end.

Declare Scope host_scope.
Delimit Scope host_scope with host.
Notation "'let*' x ':=' m 'in' k" := (hbind m (fun x => k))
  (at level 10, x name, m at level 100, k at level 200) : host_scope.
Notation "m '>>' k" := (hbind m (fun _ => k))
  (at level 100, k at level 200, right associativity) : host_scope.
Open Scope host_scope.

Definition say (e : HEvent) : HM unit := fun t => Some (mkRes (inr tt) t [e]).
Definition clock_now : HM Z := fun t => Some (mkRes (inr t) t []).

(** [std::this_thread::sleep_for(d)]: the clock moves on by [d].  Here
    time moves by the sleeps only, and by their length exactly; the module
    [Steady] below has the wait under a clock that moves during the calls
    as well, which the statements about the timeout are made of. *)
Definition sleep_for (d : Z) : HM unit := fun t =>
  Some (mkRes (inr tt) (t + Z.max 0 d) [HSleep d]).

Record Reply := mkReply { out : text; rc : option Z }.

Section Client.

Variable env : Env.

Definition readFileText (path : string) : HM text :=
  let* t := clock_now in
  say (HRead path t) >>
  match seen env path t with
  | Some (_, content) => hret content
  | None => throw (FailedToOpen path)
  end.

Definition writeFileText (path : string) (s : text) : HM unit :=
  let* t := clock_now in
  say (HWrite path s) >>
  if write_ok env t then hret tt else throw (FailedToWrite path).

Definition mtimeIfExists (path : string) : HM (option Z) :=
  let* t := clock_now in
  say (HProbe path t) >>
  hret (fst <$> seen env path t).

Definition safeRemove (path : string) : HM unit := say (HRemove path).

Definition safeRename (from to : string) : HM unit :=
  let* t := clock_now in
  say (HRemove to) >>
  say (HRename from to) >>
  if rename_ok env t then hret tt
  else
    say (HCopy from to) >>
    if copy_ok env t then say (HRemove from)
    else throw (FailedToMove from to).

(** [parseReturnCode]: line breaks and tabs become spaces, then
    [iss >> v] reads an [int]: white space is skipped, an optional sign and
    digits are read, and a value outside [int] fails like no digit at
    all. *)
Definition blank_breaks (c : ascii) : ascii :=
  if Ascii.eqb c CR || Ascii.eqb c LF || Ascii.eqb c TAB then SP else c.

Definition extract_int (t : text) : option Z :=
  match scan_int t with
  | Some v => if (INT_MIN <=? v) && (v <=? INT_MAX) then Some v else None
  | None => None
  end.

Definition parseReturnCode (s : text) : option Z :=
  extract_int (map blank_breaks s).

(** [out_updated] and [rc_updated]: present now and absent or different
    before. *)
Definition updated (before now : option Z) : bool :=
  match now with
  | Some n =>
      match before with
      | None => true
      | Some b => negb (n =? b)
      end
  | None => false
  end.

(** The grace loop, [while (now() < grace_end)]. *)
Fixpoint grace_loop (fuel : nat) (rc_before : option Z) (grace_end : Z)
  : HM (option Z) :=
  match fuel with
  | O => spent
  | S fuel' =>
      let* t := clock_now in
      if t <? grace_end then
        let* rc2 := mtimeIfExists rc_txt in
        if updated rc_before rc2 then
          let* rc_text := readFileText rc_txt in
          hret (parseReturnCode rc_text)
        else
          sleep_for 20 >> grace_loop fuel' rc_before grace_end
      else hret None
  end.

(** Ten sleeps of 20ms span the grace window; one more turn sees it
    closed. *)
Definition grace_fuel : nat := 11.

(** The [while (true)] loop of [sendCommandAndWait]. *)
Fixpoint wait_loop (fuel : nat) (out_before rc_before : option Z)
  (start timeout poll : Z) : HM Reply :=
  match fuel with
  | O => spent
  | S fuel' =>
      let* out_now := mtimeIfExists out_txt in
      let* rc_now := mtimeIfExists rc_txt in
      if updated out_before out_now then
        let* o := readFileText out_txt in
        if updated rc_before rc_now then
          let* rc_text := readFileText rc_txt in
          hret (mkReply o (parseReturnCode rc_text))
        else
          let* g := clock_now in
          let* r := grace_loop grace_fuel rc_before (g + 200) in
          hret (mkReply o r)
      else
        let* t := clock_now in
        if t - start >? timeout then throw TimeoutWaiting
        else sleep_for poll >>
             wait_loop fuel' out_before rc_before start timeout poll
  end.

Definition sendCommandAndWait (fuel : nat) (command : text)
  (timeout poll : Z) : HM Reply :=
  let* out_before := mtimeIfExists out_txt in
  let* rc_before := mtimeIfExists rc_txt in
  safeRemove cmd_new >>
  writeFileText cmd_new (command ++ crlf) >>
  safeRename cmd_new cmd_txt >>
  let* start := clock_now in
  wait_loop fuel out_before rc_before start timeout poll.

(** *** [main] *)

Definition dq : text := ["034"%char].

Definition usage : HM unit :=
  say (HErr (str "Usage:" ++ [LF]
    ++ str "  mbxhost <shared_folder_path>            # REPL mode" ++ [LF]
    ++ str "  mbxhost <shared_folder_path> --cmd " ++ dq ++ str "dir" ++ dq
    ++ str " [--timeout ms]" ++ [LF] ++ [LF]
    ++ str "Examples:" ++ [LF]
    ++ str "  mbxhost ./shared" ++ [LF]
    ++ str "  mbxhost ./shared --cmd " ++ dq ++ str "ver" ++ dq
    ++ str " --timeout 8000" ++ [LF])).

(** [e.what()] *)
Definition what (e : Exn) : text :=
  match e with
  | FailedToOpen p => str "Failed to open: " ++ str p
  | FailedToWrite p => str "Failed to write: " ++ str p
  | FailedToMove a b =>
      str "Failed to move " ++ str a ++ str " -> " ++ str b
      ++ str " (rename/copy failed)"
  | TimeoutWaiting =>
      str "Timeout waiting for OUT.TXT. Is MBXSRV running in the shared folder?"
  | StoiFailed => str "stoi"
  end.

(** [std::stoi] *)
Definition stoi (s : text) : HM Z :=
  match extract_int s with
  | Some v => hret v
  | None => throw StoiFailed
  end.

(** The outcome of the option loop of [main]: leave with a status, or go
    on with the one-shot command and the timeout. *)
Fixpoint parse_args (args : list text) (oneShot : option text)
  (timeout : Z) : HM (Z + option text * Z) :=
  match args with
  | [] => hret (inr (oneShot, timeout))
  | a :: rest =>
      match rest with
      | v :: rest' =>
          if bool_decide (a = str "--cmd") then
            parse_args rest' (Some v) timeout
          else if bool_decide (a = str "--timeout") then
            let* t := stoi v in parse_args rest' oneShot t
          else if bool_decide (a = str "--help") || bool_decide (a = str "-h")
          then usage >> hret (inl 0)
          else say (HErr (str "Unknown arg: " ++ a)) >> usage >> hret (inl 2)
      | [] =>
          if bool_decide (a = str "--help") || bool_decide (a = str "-h")
          then usage >> hret (inl 0)
          else say (HErr (str "Unknown arg: " ++ a)) >> usage >> hret (inl 2)
      end
  end.

(** The interactive loop over the lines [std::getline] delivers; the end
    of the list is the end of the input. *)
Fixpoint repl (fuel : nat) (timeout : Z) (lines : list text) : HM unit :=
  match lines with
  | [] => say (HOut (str "dos> "))
  | line :: rest =>
      say (HOut (str "dos> ")) >>
      if bool_decide (line = str "exit") then hret tt
      else if bool_decide (line = str "quit-guest") then
        let* r := sendCommandAndWait fuel (str "EXIT") timeout 50 in
        say (HOut (out r))
      else if bool_decide (line = []) then repl fuel timeout rest
      else
        let* r := sendCommandAndWait fuel line timeout 50 in
        say (HOut (out r)) >>
        match rc r with
        | Some v => say (HOut (str "[RC] " ++ fmt_d v ++ [LF]))
        | None => hret tt
        end >>
        repl fuel timeout rest
  end.

(** The body of the [try] block of [main]. *)
Definition main_body (fuel : nat) (argv : list text) (lines : list text)
  : HM Z :=
  match argv with
  | _ :: dir :: opts =>
      if dir_exists env then
        let* p := parse_args opts None 5000 in
        match p with
        | inl status => hret status
        | inr (Some cmd, timeout) =>
            let* r := sendCommandAndWait fuel cmd timeout 50 in
            say (HOut (out r)) >>
            match rc r with
            | Some v => say (HOut ([LF] ++ str "[RC] " ++ fmt_d v ++ [LF]))
            | None => hret tt
            end >>
            hret (default 0 (rc r))
        | inr (None, timeout) =>
            say (HOut (str "mbxhost REPL. Shared folder: " ++ dir ++ [LF]
                       ++ str "Type DOS commands. Use 'exit' to quit. (Sends EXIT to guest with 'quit-guest')"
                       ++ [LF])) >>
            repl fuel timeout lines >>
            hret 0
        end
      else
        say (HErr (str "Shared folder does not exist: " ++ dir ++ [LF])) >>
        hret 2
  | _ => usage >> hret 2
  end.

(** [main]: the exit status, the instant it is reached and the calls
    made; an exception is reported and becomes status 1. *)
Definition main (fuel : nat) (argv : list text) (lines : list text)
  : Z -> option (Z * Z * list HEvent) := fun t =>
  match main_body fuel argv lines t with
  | None => None
  | Some r =>
      match outcome r with
      | inr status => Some (status, now_after r, trace r)
      | inl e =>
          Some (1, now_after r,
                trace r ++ [HErr (str "mbxhost error: " ++ what e ++ [LF])])
      end
  end.

End Client.

End Host.

(* ===================================================================== *)
(** ** The guest server over a directory that may refuse a rename *)
(* ===================================================================== *)

Module Refusal.
Import Chars Guest.

Section Directory.

(** [refused from to]: the environment refuses to rename [from] to [to],
    whatever the names (the file is held open by the other side, the
    share does not allow it).  With no refusal the functions below are
    those of [Guest]. *)
Variable refused : string -> string -> bool.

(** [rename(from, to)]: [-1] when the environment refuses, else as the
    names say. *)
Definition rename (from to : string) : M Z :=
  if refused from to then emit (EvRename from to) >> ret (-1)
  else Guest.rename from to.

Definition write_text_atomic (temp final : string) (txt : text) : M bool :=
  remove temp >>
  let* f := fopen_wt temp in
  if f then
    fprint txt temp >>
    fprint crlf temp >>
    remove final >>
    let* r := rename temp final in
    ret (r =? 0)
  else ret false.

Definition set_status (state : text) : M unit :=
  let* ok := write_text_atomic STA_NEW STA_TXT state in
  if ok then ret tt
  else log_line (str "WARN: failed to write STA.TXT").

Fixpoint claim_tries (tries : nat) : M bool :=
  match tries with
  | O => ret false
  | S n =>
      let* present := file_exists CMD_TXT in
      if present then
        let* r := rename CMD_TXT CMD_RUN in
        if r =? 0 then ret true
        else ms_sleep 50 >> claim_tries n
      else ret false
  end.

Definition claim_cmd : M bool :=
  remove CMD_RUN >> claim_tries 20.

Definition publish_results (sys_rc : Z) : M unit :=
  (let* have_out := file_exists OUT_NEW in
   if have_out then ret tt
   else
     let* f := fopen_wt OUT_NEW in
     if f then
       fprint (str "ERROR: OUT.NEW missing (system rc=" ++ fmt_d sys_rc
              ++ str ")" ++ crlf) OUT_NEW
     else ret tt) >>
  remove OUT_TXT >>
  (let* r := rename OUT_NEW OUT_TXT in
   if r =? 0 then ret tt
   else
     let* e := ask errno in
     log_line (str "ERROR: failed to rename OUT.NEW -> OUT.TXT (errno="
               ++ fmt_d e ++ str ")")) >>
  let* have_rc := file_exists RC_NEW in
  if have_rc then
    remove RC_TXT >>
    let* r := rename RC_NEW RC_TXT in
    if r =? 0 then ret tt
    else
      let* e := ask errno in
      log_line (str "ERROR: failed to rename RC.NEW -> RC.TXT (errno="
                ++ fmt_d e ++ str ")")
  else
    let* f := fopen_wt RC_TXT in
    if f then fprint (str "1" ++ crlf) RC_TXT else ret tt.

Definition write_error_output (what : text) : M unit :=
  remove OUT_NEW >>
  let* f := fopen_wt OUT_NEW in
  if f then
    let* e := ask errno in
    fprint (str "ERROR: " ++ what ++ crlf) OUT_NEW >>
    fprint (str "errno=" ++ fmt_d e ++ crlf) OUT_NEW >>
    remove OUT_TXT >>
    rename OUT_NEW OUT_TXT >>
    remove RC_NEW >>
    (let* g := fopen_wt RC_NEW in
     if g then fprint (str "1" ++ crlf) RC_NEW else ret tt) >>
    remove RC_TXT >>
    rename RC_NEW RC_TXT >>
    ret tt
  else ret tt.

Variable system : text -> gmap string text -> gmap string text * Z.

Definition process_cmd_run (idle_ms : Z) : M Ctl :=
  set_status (str "RUNNING") >>
  let* first := read_first_nonempty_line CMD_RUN MAX_LINE in
  match first with
  | None =>
      log_line (str "ERROR: CMD.RUN empty") >>
      write_error_output (str "CMD file is empty") >>
      remove CMD_RUN >>
      set_status (str "READY") >>
      ms_sleep (to_unsigned idle_ms) >>
      ret Continue
  | Some first =>
      if is_exit_cmd first then
        log_line (str "Received EXIT/QUIT") >>
        write_text_atomic OUT_NEW OUT_TXT (str "MBXSRV BYE") >>
        write_text_atomic RC_NEW RC_TXT (str "0") >>
        remove CMD_RUN >>
        set_status (str "BYE") >>
        ret Break
      else
        let* b := build_job_bat_from_cmd CMD_RUN in
        if fst b then
          log_line (str "Executing job (payload=" ++ fmt_d (snd b)
                    ++ str " bytes)") >>
          remove OUT_TXT >>
          remove RC_TXT >>
          let* sys_rc := exec_job_to_out system in
          log_line (str "system() rc=" ++ fmt_d sys_rc) >>
          publish_results sys_rc >>
          remove CMD_RUN >>
          set_status (str "READY") >>
          ms_sleep (to_unsigned idle_ms) >>
          ret Continue
        else
          let* e := ask errno in
          log_line (str "ERROR: build_job_bat failed (payload="
                    ++ fmt_d (snd b) ++ str ", errno=" ++ fmt_d e
                    ++ str ")") >>
          write_error_output
            (str "Failed to build MBXJOB.BAT (payload too large or file error)") >>
          remove CMD_RUN >>
          set_status (str "READY") >>
          ms_sleep (to_unsigned idle_ms) >>
          ret Continue
  end.

Definition claim_pending : M unit :=
  let* run := file_exists CMD_RUN in
  let* txt := file_exists CMD_TXT in
  if negb run && txt then
    let* claimed := claim_cmd in
    if claimed then log_line (str "Claimed CMD.TXT -> CMD.RUN")
    else ret tt
  else ret tt.

Definition tick (idle_ms : Z) : M Ctl :=
  let* hit := kbhit in
  let* ch := (if hit then getch else ret 0) in
  if hit && (ch =? 27) then
    log_line (str "ESC pressed; exiting") >>
    set_status (str "BYE") >>
    ret Break
  else
    claim_pending >>
    let* run := file_exists CMD_RUN in
    if run then process_cmd_run idle_ms
    else ms_sleep (to_unsigned idle_ms) >> ret Continue.

End Directory.

(** No rename is refused. *)
Definition never (from to : string) : bool := false.

End Refusal.

(* ===================================================================== *)
(** ** The host client under a clock that moves during its calls *)
(* ===================================================================== *)

Module Steady.
Import Chars Host.

Section Clock.

Variable env : Env.

(** [ms]: the ticks of the steady clock in a millisecond (a million for a
    clock that counts nanoseconds).  Instants and lags are in ticks; the
    timeout, the poll interval and the sleeps are in milliseconds, as in
    the program. *)
Variable ms : Z.

(** [lag u]: the time the steady clock moves on at the instant [u] while
    a call is under way: a probe or a read made at [u] takes [lag u], a
    sleep that is due at [u] returns [lag u] late.  A negative value
    counts as none.  With one tick in a millisecond and no lag at all the
    functions below are those of [Host], where time moves by the sleeps
    only. *)
Variable lag : Z -> Z.

Definition elapse : HM unit := fun t =>
  Some (mkRes (inr tt) (t + Z.max 0 (lag t)) []).

(** [std::this_thread::sleep_for(d)], for [d] milliseconds: blocks for
    [d] at least. *)
Definition sleep_for (d : Z) : HM unit :=
  (fun t => Some (mkRes (inr tt) (t + Z.max 0 (d * ms)) [HSleep d])) >>
  elapse.

Definition readFileText (path : string) : HM text :=
  let* content := Host.readFileText env path in
  elapse >> hret content.

Definition mtimeIfExists (path : string) : HM (option Z) :=
  let* m := Host.mtimeIfExists env path in
  elapse >> hret m.

(** The grace loop, [while (now() < grace_end)]. *)
Fixpoint grace_loop (fuel : nat) (rc_before : option Z) (grace_end : Z)
  : HM (option Z) :=
  match fuel with
  | O => spent
  | S fuel' =>
      let* t := clock_now in
      if t <? grace_end then
        let* rc2 := mtimeIfExists rc_txt in
        if updated rc_before rc2 then
          let* rc_text := readFileText rc_txt in
          hret (parseReturnCode rc_text)
        else
          sleep_for 20 >> grace_loop fuel' rc_before grace_end
      else hret None
  end.

(** The [while (true)] loop of [sendCommandAndWait]. *)
Fixpoint wait_loop (fuel : nat) (out_before rc_before : option Z)
  (start timeout poll : Z) : HM Reply :=
  match fuel with
  | O => spent
  | S fuel' =>
      let* out_now := mtimeIfExists out_txt in
      let* rc_now := mtimeIfExists rc_txt in
      if updated out_before out_now then
        let* o := readFileText out_txt in
        if updated rc_before rc_now then
          let* rc_text := readFileText rc_txt in
          hret (mkReply o (parseReturnCode rc_text))
        else
          let* g := clock_now in
          let* r := grace_loop grace_fuel rc_before (g + 200 * ms) in
          hret (mkReply o r)
      else
        let* t := clock_now in
        if t - start >? timeout * ms then throw TimeoutWaiting
        else sleep_for poll >>
             wait_loop fuel' out_before rc_before start timeout poll
  end.

(** The calls that publish the command are those of [Host]: what they
    find is the choice of the environment at the instant they are
    made. *)
Definition sendCommandAndWait (fuel : nat) (command : text)
  (timeout poll : Z) : HM Reply :=
  let* out_before := mtimeIfExists out_txt in
  let* rc_before := mtimeIfExists rc_txt in
  safeRemove cmd_new >>
  writeFileText env cmd_new (command ++ crlf) >>
  safeRename env cmd_new cmd_txt >>
  let* start := clock_now in
  wait_loop fuel out_before rc_before start timeout poll.

End Clock.

(** No lag. *)
Definition none (u : Z) : Z := 0.

End Steady.

(* ===================================================================== *)
(** ** What the specification says, in its own words *)
(* ===================================================================== *)

Module Spec.
Import Chars.

(** "Sleep for the configured idle interval (default 100ms, clamped to
    [10ms, 2000ms])": a clamp brings a value outside the range to the
    nearest end of it. *)
Definition spec_clamp (v : Z) : Z := Z.max 10 (Z.min 2000 v).

(** "Directive: the first non-blank line of a command's content": the
    lines are the stretches between line feeds, a line is blank when it
    holds white space only. *)
Fixpoint spec_lines (s : text) : list text :=
  match s with
  | [] => [[]]
  | c :: rest =>
      if Ascii.eqb c LF then [] :: spec_lines rest
      else match spec_lines rest with
           | l :: ls => (c :: l) :: ls
           | [] => [[c]]
           end
  end.

Definition spec_blank (l : text) : bool := forallb isspace l.

Definition spec_directive_line (content : text) : option text :=
  List.find (fun l => negb (spec_blank l)) (spec_lines content).

(** "case-insensitively equals" *)
Definition spec_same_word (a b : text) : Prop :=
  map tolower a = map tolower b.

(** "text only": no NUL among the characters. *)
Definition is_text (s : text) : bool :=
  forallb (fun c => negb (Ascii.eqb c NUL)) s.

(** The command a turn of the guest loop works on: the claimed file when
    there is one, else the published one, which the turn claims. *)
Definition command_for_tick (fs : gmap string text) : option text :=
  match fs !! Guest.CMD_RUN with
  | Some c => Some c
  | None => fs !! Guest.CMD_TXT
  end.

(** The local stop key is the next keystroke. *)
Definition esc_pending (w : Guest.World) : bool :=
  match Guest.keys w with
  | k :: _ => k =? 27
  | [] => false
  end.

(** The published names of the slots that have a staging name. *)
Definition published (path : string) : bool :=
  String.eqb path "CMD.TXT" || String.eqb path "OUT.TXT"
  || String.eqb path "RC.TXT" || String.eqb path "STA.TXT".

(** "producers write only to the staging name": no call of the guest
    opens a published name for writing. *)
Definition guest_writes_published (e : Guest.Event) : bool :=
  match e with
  | Guest.EvOpenW p => published p
  | Guest.EvOpenA p => published p
  | _ => false
  end.

Definition guest_staged_only (tr : list Guest.Event) : bool :=
  forallb (fun e => negb (guest_writes_published e)) tr.

(** The same for the host: no write and no copy lands on a published
    name. *)
Definition host_writes_published (e : Host.HEvent) : bool :=
  match e with
  | Host.HWrite p _ => published p
  | Host.HCopy _ p => published p
  | _ => false
  end.

Definition host_staged_only (tr : list Host.HEvent) : bool :=
  forallb (fun e => negb (host_writes_published e)) tr.

Definition is_exec (e : Guest.Event) : bool :=
  match e with
  | Guest.EvExec _ => true
  | _ => false
  end.

End Spec.

(* ===================================================================== *)
(** ** The vocabulary of the statements about the guest *)
(* ===================================================================== *)

Module GuestLogic.
Import Chars Spec Guest.

(** *** Calls and worlds *)

(** Every call made satisfies [P]. *)
Definition quiet (P : Event -> bool) {A} (m : M A) : Prop :=
  forall w, forallb P (evs (m w)) = true.

(** The world after is related to the world before. *)
Definition stable (R : World -> World -> Prop) {A} (m : M A) : Prop :=
  forall w, R w (post (m w)).

(** The environment of the server is left as it was. *)
Definition same_env (w w' : World) : Prop :=
  can_write w' = can_write w /\ errno w' = errno w /\ clock w' = clock w
  /\ comspec w' = comspec w /\ mbx_stderr w' = mbx_stderr w.

(** The file [p] is left as it was. *)
Definition same_file (p : string) (w w' : World) : Prop :=
  files w' !! p = files w !! p.

(** The keys waiting at the keyboard are left as they were. *)
Definition same_keys (w w' : World) : Prop := keys w' = keys w.

(** From a world with [Pre], [m] gives a value and a world with [Post],
    through calls that all satisfy [P]. *)
Definition hoare (P : Event -> bool) {A} (Pre : World -> Prop) (m : M A)
  (Post : A -> World -> Prop) : Prop :=
  forall w, Pre w ->
    Post (val (m w)) (post (m w)) /\ forallb P (evs (m w)) = true.

(** The world once the key at the head of the queue has been read. *)
Definition after_keys (w : World) : World := with_keys (tl (keys w)) w.

(** The files after a line went to the log. *)
Definition logged (w : World) (msg : text) (fs : gmap string text)
  : gmap string text :=
  if can_write w LOG_TXT
  then <[LOG_TXT := default [] (fs !! LOG_TXT) ++ log_entry (clock w) msg]> fs
  else fs.

(** *** Classes of calls *)

Definition any (e : Event) : bool := true.

Definition not_exec (e : Event) : bool := negb (is_exec e).

(** The calls that neither run the interpreter nor open a published name
    for writing. *)
Definition basic (e : Event) : bool :=
  negb (Spec.is_exec e) && negb (Spec.guest_writes_published e).

(** A call that opens no published name for writing, or the one direct
    write of the server: RC.TXT, in [publish_results]. *)
Definition staged_or_rc_fallback (e : Event) : bool :=
  match e with
  | EvOpenW p => negb (published p) || String.eqb p RC_TXT
  | EvOpenA p => negb (published p)
  | _ => true
  end.

(** *** The command and its payload *)

(** A text without a line feed. *)
Definition no_lf (l : text) : bool := forallb (fun c => negb (Ascii.eqb c LF)) l.

(** What the copy loop decides, which no file changes. *)
Fixpoint copy_verdict (bufs : list text) (total : Z) : Z + Z :=
  match bufs with
  | [] => inl total
  | line :: rest =>
      if total + strlen line >? MAX_PAYLOAD then inr total
      else copy_verdict rest (total + strlen line)
  end.

Definition total_strlen (bufs : list text) : Z :=
  fold_right (fun b acc => strlen b + acc) 0 bufs.

(** The diagnostic [write_error_output] leaves. *)
Definition error_text (what : text) (e : Z) : text :=
  (str "ERROR: " ++ what ++ crlf) ++ (str "errno=" ++ fmt_d e ++ crlf).

(** The directive, when there is one, is not EXIT or QUIT. *)
Definition not_exit (first : option text) : Prop :=
  match first with
  | Some d => is_exit_cmd d = false
  | None => True
  end.



(** *** The two branches of a tick *)

Definition esc_branch : M Ctl :=
  log_line (str "ESC pressed; exiting") >>
  set_status (str "BYE") >>
  ret Break.

Definition cmd_branch
  (system : text -> gmap string text -> gmap string text * Z) (idle : Z)
  : M Ctl :=
  claim_pending >>
  let* run := file_exists CMD_RUN in
  if run then process_cmd_run system idle
  else ms_sleep (to_unsigned idle) >> ret Continue.

(** *** The two halves of [publish_results] *)

(** The first half, on the output. *)
Definition publish_out (sys_rc : Z) : M unit :=
  (let* have_out := file_exists OUT_NEW in
   if have_out then ret tt
   else
     let* f := fopen_wt OUT_NEW in
     if f then
       fprint (str "ERROR: OUT.NEW missing (system rc=" ++ fmt_d sys_rc
               ++ str ")" ++ crlf) OUT_NEW
     else ret tt) >>
  remove OUT_TXT >>
  (let* r := rename OUT_NEW OUT_TXT in
   if r =? 0 then ret tt
   else
     let* e := ask errno in
     log_line (str "ERROR: failed to rename OUT.NEW -> OUT.TXT (errno="
               ++ fmt_d e ++ str ")")).

(** The second half, on the return code. *)
Definition publish_rc : M unit :=
  let* have_rc := file_exists RC_NEW in
  if have_rc then
    remove RC_TXT >>
    let* r := rename RC_NEW RC_TXT in
    if r =? 0 then ret tt
    else
      let* e := ask errno in
      log_line (str "ERROR: failed to rename RC.NEW -> RC.TXT (errno="
                ++ fmt_d e ++ str ")")
  else
    let* f := fopen_wt RC_TXT in
    if f then fprint (str "1" ++ crlf) RC_TXT else ret tt.

(** Either the interpreter is not called, or the return-code slot is
    present afterwards. *)
Definition runs_with_rc {A} (m : M A) : Prop :=
  forall w, can_write w RC_TXT = true ->
    forallb not_exec (evs (m w)) = true
    \/ is_Some (files (post (m w)) !! RC_TXT).

(** *** The job and its wrapper *)

(** The wrapper script [build_job_bat_from_cmd] makes of a payload. *)
Definition job_bat_text (payload : text) : text :=
  (str "@echo off" ++ crlf)
  ++ (str "rem MBXSRV job wrapper" ++ crlf)
  ++ payload
  ++ (crlf ++ str "rem Capture ERRORLEVEL of last command" ++ crlf)
  ++ (str "echo %errorlevel% > " ++ str RC_NEW ++ crlf).

(** The directory [system] is given to run the wrapper of [c]: the
    wrapper and the claimed command are there, the result slots and their
    staging files are not. *)
Definition job_ready (c : text) (fs : gmap string text) : Prop :=
  fs !! JOB_BAT = Some (job_bat_text c)
  /\ fs !! CMD_RUN = Some c
  /\ fs !! OUT_NEW = None /\ fs !! RC_NEW = None
  /\ fs !! OUT_TXT = None /\ fs !! RC_TXT = None.

(** *** The loop and the log *)

(** No pending keystroke is the stop key. *)
Definition no_esc (ks : list Z) : bool := forallb (fun k => negb (k =? 27)) ks.

(** The content of the log, empty when there is no log. *)
Definition log_of (w : World) : text := default [] (files w !! LOG_TXT).

(** The log after is the log before with lines added. *)
Definition log_grows (w w' : World) : Prop :=
  exists more, log_of w' = log_of w ++ more.

(** An interpreter that adds to the log at most. *)
Definition keeps_log
  (system : text -> gmap string text -> gmap string text * Z) : Prop :=
  forall cmdline fs,
    exists more,
      default [] (fst (system cmdline fs) !! LOG_TXT)
      = default [] (fs !! LOG_TXT) ++ more.

End GuestLogic.

(* ===================================================================== *)
(** ** The vocabulary of the statements about the host *)
(* ===================================================================== *)

Module HostLogic.
Import Chars Spec Host.

(** *** Numbers in a text *)

(** The text that follows a number does not go on with a digit. *)
Definition no_digit_ahead (rest : text) : bool :=
  match rest with
  | c :: _ => negb (isdigit c)
  | [] => true
  end.

(** The text holds no number at its head: it is empty, or starts with a
    character that is neither white space nor a digit nor a sign before a
    digit. *)
Definition no_number_ahead (rest : text) : bool :=
  match rest with
  | [] => true
  | c :: r =>
      negb (isspace c) && negb (isdigit c)
      && negb ((Ascii.eqb c "-"%char || Ascii.eqb c "+"%char)
               && negb (no_digit_ahead r))
  end.

(** The decimal digits of a number. *)
Definition digits (u : Decimal.uint) : text :=
  str (NilEmpty.string_of_uint u).

(** *** Calls *)

(** Every call of a computation that ends satisfies [P]. *)
Definition calls (P : HEvent -> bool) {A} (m : HM A) : Prop :=
  forall t r, m t = Some r -> forallb P (trace r) = true.

(** The probes, reads, removals and sleeps: calls that write nothing. *)
Definition passive (e : HEvent) : bool :=
  match e with
  | HProbe _ _ | HRead _ _ | HRemove _ | HSleep _ => true
  | _ => false
  end.

(** The calls of a grace window in which the return code never changes:
    a probe of the return-code slot and a sleep of 20ms, [k] times. *)
Fixpoint grace_polls (k : nat) (t : Z) : list HEvent :=
  match k with
  | O => []
  | S k' => HProbe rc_txt t :: HSleep 20 :: grace_polls k' (t + 20)
  end.

(** The calls of [i] turns of the wait loop in which the output has not
    changed: a probe of each result slot and a sleep. *)
Fixpoint idle_turns (i : nat) (t poll : Z) : list HEvent :=
  match i with
  | O => []
  | S i' =>
      HProbe out_txt t :: HProbe rc_txt t :: HSleep poll
      :: idle_turns i' (t + Z.max 0 poll) poll
  end.

(** The calls that publish the command. *)
Definition publish_calls (env : Env) (command : text) (t : Z)
  : list HEvent :=
  [HProbe out_txt t; HProbe rc_txt t; HRemove cmd_new;
   HWrite cmd_new (command ++ crlf); HRemove cmd_txt;
   HRename cmd_new cmd_txt]
  ++ (if rename_ok env t then []
      else [HCopy cmd_new cmd_txt; HRemove cmd_new]).

(** *** The wait *)

(** The wait [sendCommandAndWait] starts once the command is
    published. *)
Definition the_wait (env : Env) (fuel : nat) (timeout poll t : Z)
  : option (Res Reply) :=
  wait_loop env fuel (fst <$> out_at env t) (fst <$> rc_at env t)
            t timeout poll t.

(** The fuel the wait needs when [a] milliseconds of the timeout are
    left. *)
Definition turns_left (poll a : Z) : nat :=
  if a <? 0 then 1%nat else (Z.to_nat (a / poll) + 2)%nat.

(** What the wait ends with: a reply, or the timeout once it has
    passed. *)
Definition wait_outcome (start timeout : Z) (r : Res Reply) : Prop :=
  match outcome r with
  | inr _ => True
  | inl TimeoutWaiting => timeout < now_after r - start
  | inl _ => False
  end.

(** The status [main] makes of the outcome of its [try] block. *)
Definition status_of (r : Res Z) : Z :=
  match outcome r with
  | inr status => status
  | inl _ => 1
  end.

(** *** A call of [sendCommandAndWait] *)

(** In the first [i] turns of the wait that starts at [t0], the output is
    seen unchanged and the timeout has not passed. *)
Definition waits (env : Env) (timeout poll t0 : Z) (i : nat) : Prop :=
  forall j, (j < i)%nat ->
    updated (fst <$> out_at env t0)
      (fst <$> out_at env (t0 + Z.of_nat j * poll)) = false
    /\ Z.of_nat j * poll <= timeout.

(** The calls of a call of [sendCommandAndWait] at [t0]: the command is
    published, [i] turns find nothing, and the turn at [t0 + i * poll]
    makes the calls [last]. *)
Definition submit_calls (env : Env) (command : text) (t0 poll : Z) (i : nat)
  (last : list HEvent) : list HEvent :=
  publish_calls env command t0 ++ idle_turns i t0 poll ++ last.

(** The calls of [writeFileText]. *)
Definition is_write (e : HEvent) : bool :=
  match e with
  | HWrite _ _ => true
  | _ => false
  end.

End HostLogic.

(* ===================================================================== *)
(** ** The vocabulary of the statements about refused renames *)
(* ===================================================================== *)

Module RefusalLogic.
Import Chars Spec Guest.

Section Directory.

Variable refused : string -> string -> bool.

(** The two halves of [publish_results]: the output, then the return
    code. *)
Definition publish_out (sys_rc : Z) : M unit :=
  (let* have_out := file_exists OUT_NEW in
   if have_out then ret tt
   else
     let* f := fopen_wt OUT_NEW in
     if f then
       fprint (str "ERROR: OUT.NEW missing (system rc=" ++ fmt_d sys_rc
               ++ str ")" ++ crlf) OUT_NEW
     else ret tt) >>
  remove OUT_TXT >>
  (let* r := Refusal.rename refused OUT_NEW OUT_TXT in
   if r =? 0 then ret tt
   else
     let* e := ask errno in
     log_line (str "ERROR: failed to rename OUT.NEW -> OUT.TXT (errno="
               ++ fmt_d e ++ str ")")).

Definition publish_rc : M unit :=
  let* have_rc := file_exists RC_NEW in
  if have_rc then
    remove RC_TXT >>
    let* r := Refusal.rename refused RC_NEW RC_TXT in
    if r =? 0 then ret tt
    else
      let* e := ask errno in
      log_line (str "ERROR: failed to rename RC.NEW -> RC.TXT (errno="
                ++ fmt_d e ++ str ")")
  else
    let* f := fopen_wt RC_TXT in
    if f then fprint (str "1" ++ crlf) RC_TXT else ret tt.

(** No rename the server makes is refused. *)
Definition moves : Prop :=
  refused CMD_TXT CMD_RUN = false /\ refused STA_NEW STA_TXT = false
  /\ refused OUT_NEW OUT_TXT = false /\ refused RC_NEW RC_TXT = false.

(** What [publish_results] publishes as output: what the job staged, or
    the diagnostic. *)
Definition output_of (sys_rc : Z) (w : World) : text :=
  match files w !! OUT_NEW with
  | Some o => o
  | None => str "ERROR: OUT.NEW missing (system rc=" ++ fmt_d sys_rc
            ++ str ")" ++ crlf
  end.

End Directory.

End RefusalLogic.

(* ===================================================================== *)
(** ** The vocabulary of the statements about the steady clock *)
(* ===================================================================== *)

Module SteadyLogic.
Import Chars Spec Host.

(** The instant a call made at [t] returns. *)
Definition after (lag : Z -> Z) (t : Z) : Z := t + Z.max 0 (lag t).

(** The instant the wait of a call of [sendCommandAndWait] made at [t]
    starts: two probes later. *)
Definition start_of (lag : Z -> Z) (t : Z) : Z := after lag (after lag t).

(** Every call takes [lo] ticks at least and [hi] at most. *)
Definition bounded (lag : Z -> Z) (lo hi : Z) : Prop :=
  forall u, lo <= lag u <= hi.

(** The least time a turn of the wait loop takes, in ticks: two probes
    and a sleep. *)
Definition turn (ms poll lo : Z) : Z := Z.max 0 (poll * ms) + 3 * lo.

(** The probes and the sleeps. *)
Definition waiting (e : HEvent) : bool :=
  match e with
  | HProbe _ _ | HSleep _ => true
  | _ => false
  end.

(** The calls that publish the command, for a call made at [t]. *)
Definition publish_calls (env : Env) (lag : Z -> Z) (command : text) (t : Z)
  : list HEvent :=
  [HProbe out_txt t; HProbe rc_txt (after lag t); HRemove cmd_new;
   HWrite cmd_new (command ++ crlf); HRemove cmd_txt;
   HRename cmd_new cmd_txt]
  ++ (if rename_ok env (start_of lag t) then []
      else [HCopy cmd_new cmd_txt; HRemove cmd_new]).

(** What the wait ends with: a reply, the timeout once [limit] ticks have
    passed, or the failure to open a result file that was there when it
    was probed. *)
Definition wait_outcome (start limit : Z) (r : Res Reply) : Prop :=
  match outcome r with
  | inr _ => True
  | inl TimeoutWaiting => limit < now_after r - start
  | inl (FailedToOpen p) => p = out_txt \/ p = rc_txt
  | inl _ => False
  end.

End SteadyLogic.

(* ===================================================================== *)
(** ** Example directories, interpreters and guests *)
(* ===================================================================== *)

Module Examples.
Import Chars.

(** An interpreter that succeeds and leaves the directory as it was. *)
Definition idle_shell (cmdline : text) (fs : gmap string text)
  : gmap string text * Z := (fs, 0).

(** An interpreter that fails to start. *)
Definition failing_shell (cmdline : text) (fs : gmap string text)
  : gmap string text * Z := (fs, -1).

(** A published command whose directive is Exit. *)
Definition exit_world : Guest.World :=
  Guest.mkWorld {[ Guest.CMD_TXT := str "Exit" ++ crlf ]} (fun _ => true) 0
    (Guest.mkStamp 2024 1 2 3 4 5) [] None None.

(** A claimed command over the payload bound whose directive is EXIT. *)
Definition oversize_exit : text :=
  str "EXIT" ++ LF :: repeat "a"%char (Z.to_nat 33000).

Definition oversize_exit_world : Guest.World :=
  Guest.mkWorld {[ Guest.CMD_RUN := oversize_exit ]} (fun _ => true) 0
    (Guest.mkStamp 2024 1 2 3 4 5) [] None None.

(** A claimed command over the payload bound with another directive. *)
Definition oversize_dir : text :=
  str "dir" ++ LF :: repeat "a"%char (Z.to_nat 33000).

Definition oversize_dir_world : Guest.World :=
  Guest.mkWorld {[ Guest.CMD_RUN := oversize_dir ]} (fun _ => true) 0
    (Guest.mkStamp 2024 1 2 3 4 5) [] None None.

(** A claimed job, for an interpreter that fails to start. *)
Definition failed_job_world : Guest.World :=
  Guest.mkWorld {[ Guest.CMD_RUN := str "dir" ++ crlf ]} (fun _ => true) 0
    (Guest.mkStamp 2024 1 2 3 4 5) [] None None.


(** A job that left its return code at the staging name. *)
Definition staged_rc_world : Guest.World :=
  Guest.mkWorld {[ Guest.RC_NEW := str "0 " ++ crlf ]} (fun _ => true) 0
    (Guest.mkStamp 2024 1 2 3 4 5) [] None None.

(** An output that shows up 150ms after the command was published, with
    its return code. *)
Definition late_env : Host.Env :=
  Host.mkEnv
    (fun t => if t <? 150 then None else Some (1, str "ok" ++ crlf))
    (fun t => if t <? 150 then None else Some (1, str "0" ++ crlf))
    (fun _ => true) (fun _ => true) (fun _ => true) true.

(** An output that is there from 50ms on, and no return code ever. *)
Definition silent_rc_env : Host.Env :=
  Host.mkEnv
    (fun t => if t <? 50 then None else Some (1, str "ok" ++ crlf))
    (fun _ => None)
    (fun _ => true) (fun _ => true) (fun _ => true) true.

(** A guest that answers each command 50ms later with return code 3. *)
Definition rc3_env : Host.Env :=
  Host.mkEnv
    (fun t => if t <? 50 then None else Some (t / 50, str "ok" ++ crlf))
    (fun t => if t <? 50 then None else Some (t / 50, str "3" ++ crlf))
    (fun _ => true) (fun _ => true) (fun _ => true) true.

(** A status slot that holds READY. *)
Definition status_world : Guest.World :=
  Guest.mkWorld {[ Guest.STA_TXT := str "READY" ++ crlf ]} (fun _ => true) 0
    (Guest.mkStamp 2024 1 2 3 4 5) [] None None.

(** The same, where STA.NEW cannot be opened. *)
Definition locked_status_world : Guest.World :=
  Guest.mkWorld {[ Guest.STA_TXT := str "READY" ++ crlf ]}
    (fun p => negb (String.eqb p Guest.STA_NEW)) 0
    (Guest.mkStamp 2024 1 2 3 4 5) [] None None.

(** An interpreter that prints hi and succeeds. *)
Definition echo_shell (cmdline : text) (fs : gmap string text)
  : gmap string text * Z :=
  (<[Guest.RC_NEW := str "0 " ++ crlf]>
     (<[Guest.OUT_NEW := str "hi" ++ crlf]> fs), 0).

(** A published command for it. *)
Definition echo_world : Guest.World :=
  Guest.mkWorld {[ Guest.CMD_TXT := str "echo hi" ++ crlf ]} (fun _ => true) 0
    (Guest.mkStamp 2024 1 2 3 4 5) [] None None.

(** A published command that holds white space only. *)
Definition blank_world : Guest.World :=
  Guest.mkWorld {[ Guest.CMD_TXT := str "  " ++ crlf ]} (fun _ => true) 2
    (Guest.mkStamp 2024 1 2 3 4 5) [] None None.

(** A directory with a command whose line has white space around it. *)
Definition padded_world : Guest.World :=
  Guest.mkWorld {[ Guest.CMD_RUN := crlf ++ str "  dir  " ++ crlf ]}
    (fun _ => true) 0 (Guest.mkStamp 2024 1 2 3 4 5) [] None None.

(** A directory with old results, where OUT.NEW cannot be opened. *)
Definition locked_out_world : Guest.World :=
  Guest.mkWorld {[ Guest.OUT_TXT := str "old" ++ crlf;
                   Guest.RC_TXT := str "0" ++ crlf ]}
    (fun p => negb (String.eqb p Guest.OUT_NEW)) 0
    (Guest.mkStamp 2024 1 2 3 4 5) [] None None.

(** A published command, with the stop key pressed. *)
Definition esc_world : Guest.World :=
  Guest.mkWorld {[ Guest.CMD_TXT := str "dir" ++ crlf ]} (fun _ => true) 0
    (Guest.mkStamp 2024 1 2 3 4 5) [27] None None.

(** An empty mailbox, with two keys pressed that are not the stop key. *)
Definition quiet_world : Guest.World :=
  Guest.mkWorld ∅ (fun _ => true) 0
    (Guest.mkStamp 2024 1 2 3 4 5) [13; 32] None None.

(** A guest that never answers. *)
Definition dead_env : Host.Env :=
  Host.mkEnv (fun _ => None) (fun _ => None)
    (fun _ => true) (fun _ => true) (fun _ => true) true.

(** A guest whose output is there from 50ms on and whose return code
    follows 40ms later. *)
Definition slow_rc_env : Host.Env :=
  Host.mkEnv
    (fun t => if t <? 50 then None else Some (1, str "ok" ++ crlf))
    (fun t => if t <? 90 then None else Some (1, str "7 " ++ crlf))
    (fun _ => true) (fun _ => true) (fun _ => true) true.

(** A shared directory in which CMD.NEW cannot be written. *)
Definition read_only_env : Host.Env :=
  Host.mkEnv (fun _ => None) (fun _ => None)
    (fun _ => false) (fun _ => true) (fun _ => true) true.

(** No shared directory. *)
Definition no_dir_env : Host.Env :=
  Host.mkEnv (fun _ => None) (fun _ => None)
    (fun _ => true) (fun _ => true) (fun _ => true) false.

(** A directory that refuses every rename to RC.TXT. *)
Definition held_rc (from to : string) : bool := String.eqb to Guest.RC_TXT.

(** An output that is there from 30ms on, and no return code ever, for a
    clock of [ms] ticks in a millisecond. *)
Definition early_out_env (ms : Z) : Host.Env :=
  Host.mkEnv
    (fun t => if t <? 30 * ms then None else Some (1, str "ok" ++ crlf))
    (fun _ => None)
    (fun _ => true) (fun _ => true) (fun _ => true) true.

(** A clock that counts microseconds, and calls that take 10 of them. *)
Definition us : Z := 1000.
Definition ten_us (u : Z) : Z := 10.

End Examples.

(* ===================================================================== *)
(** ** Facts about the character helpers *)
(* ===================================================================== *)

Module CharsFacts.
Import Chars.

Lemma stricmp_same (a b : text) :
  map tolower a = map tolower b -> stricmp a b = 0.
Proof.
  revert b; induction a as [|x a IH]; intros [|y b] H; simpl in *;
    try discriminate; auto.
  injection H as Hx Hr. rewrite Hx, Z.sub_diag. simpl. auto.
Qed.

Lemma skip_while_all (p : ascii -> bool) (s : text) :
  forallb p s = true -> skip_while p s = [].
Proof.
  induction s as [|c s IH]; simpl; auto.
  intros H. apply andb_true_iff in H as [Hc Hs]. rewrite Hc. auto.
Qed.

Lemma skip_while_app_all (p : ascii -> bool) (s r : text) :
  forallb p s = true -> skip_while p (s ++ r) = skip_while p r.
Proof.
  induction s as [|c s IH]; simpl; auto.
  intros H. apply andb_true_iff in H as [Hc Hs]. rewrite Hc. auto.
Qed.

Lemma chop_while_app_all (p : ascii -> bool) (s r : text) :
  forallb p r = true -> chop_while p (s ++ r) = chop_while p s.
Proof.
  intros H. unfold chop_while. rewrite rev_app_distr.
  rewrite skip_while_app_all; auto.
  rewrite forallb_forall in *. intros x Hx. apply H.
  apply in_rev. exact Hx.
Qed.

Lemma skip_while_stop (p : ascii -> bool) (c : ascii) (s : text) :
  p c = false -> skip_while p (c :: s) = c :: s.
Proof. intros H. simpl. rewrite H. reflexivity. Qed.

Lemma chop_while_stop (p : ascii -> bool) (c : ascii) (s : text) :
  p c = false -> chop_while p (s ++ [c]) = s ++ [c].
Proof.
  intros H. unfold chop_while. rewrite rev_app_distr. simpl.
  rewrite H. simpl. rewrite rev_involutive. reflexivity.
Qed.

End CharsFacts.

(* ===================================================================== *)
(** ** Facts about the guest server *)
(* ===================================================================== *)

Module GuestFacts.
Import Chars Guest GuestLogic.

Lemma with_files_id (w : World) : with_files (files w) w = w.
Proof. destruct w; reflexivity. Qed.

(** Sequencing two computations whose results are known. *)
Lemma run_bind {A B} (m : M A) (f : A -> M B) w a w1 t1 b w2 t2 :
  m w = mkOut a w1 t1 ->
  f a w1 = mkOut b w2 t2 ->
  bind m f w = mkOut b w2 (t1 ++ t2).
Proof. intros H1 H2. unfold bind. rewrite H1. simpl. rewrite H2. reflexivity. Qed.

Ltac world_norm :=
  cbn [with_files with_keys files can_write errno clock keys comspec
       mbx_stderr val post evs].

Lemma run_ret {A} (a : A) w : ret a w = mkOut a w [].
Proof. reflexivity. Qed.

(** *** The library calls, on a world whose files are [fs] *)

Section Calls.
Variable w : World.
Variable fs : gmap string text.

Lemma file_exists_run p :
  file_exists p (with_files fs w)
  = mkOut (bool_decide (is_Some (fs !! p))) (with_files fs w) [].
Proof. reflexivity. Qed.

Lemma remove_run p :
  remove p (with_files fs w)
  = mkOut (match fs !! p with Some _ => 0 | None => -1 end)
          (with_files (delete p fs) w) [EvRemove p].
Proof.
  unfold remove, bind, emit, get_files. simpl.
  destruct (fs !! p) eqn:E; simpl; [reflexivity|].
  rewrite (delete_id _ _ E). reflexivity.
Qed.

Lemma rename_run_ok a b c :
  fs !! a = Some c -> fs !! b = None ->
  rename a b (with_files fs w)
  = mkOut 0 (with_files (<[b := c]> (delete a fs)) w) [EvRename a b].
Proof.
  intros Ha Hb. unfold rename, bind, emit, get_files. simpl.
  rewrite Ha, Hb. reflexivity.
Qed.

Lemma rename_run_missing a b :
  fs !! a = None ->
  rename a b (with_files fs w) = mkOut (-1) (with_files fs w) [EvRename a b].
Proof.
  intros Ha. unfold rename, bind, emit, get_files. simpl.
  rewrite Ha. reflexivity.
Qed.

Lemma fopen_wt_run_ok p :
  can_write w p = true ->
  fopen_wt p (with_files fs w)
  = mkOut true (with_files (<[p := []]> fs) w) [EvOpenW p].
Proof.
  intros H. unfold fopen_wt, bind, emit, get_files, ask. simpl.
  rewrite H. reflexivity.
Qed.

Lemma fopen_wt_run_fail p :
  can_write w p = false ->
  fopen_wt p (with_files fs w) = mkOut false (with_files fs w) [EvOpenW p].
Proof.
  intros H. unfold fopen_wt, bind, emit, get_files, ask. simpl.
  rewrite H. reflexivity.
Qed.

Lemma fopen_rt_run p :
  fopen_rt p (with_files fs w) = mkOut (fs !! p) (with_files fs w) [EvOpenR p].
Proof. reflexivity. Qed.

Lemma fprint_run s p :
  fprint s p (with_files fs w)
  = mkOut tt (with_files (alter (fun old => old ++ s) p fs) w) [].
Proof. reflexivity. Qed.

Lemma ms_sleep_run ms :
  ms_sleep ms (with_files fs w) = mkOut tt (with_files fs w) [EvSleep ms].
Proof. reflexivity. Qed.

Lemma ask_run {A} (f : World -> A) :
  ask f (with_files fs w) = mkOut (f (with_files fs w)) (with_files fs w) [].
Proof. reflexivity. Qed.

End Calls.

Lemma log_line_run w fs msg :
  log_line msg (with_files fs w)
  = mkOut tt (with_files (logged w msg fs) w) [EvOpenA LOG_TXT].
Proof.
  unfold log_line, logged, bind, fopen_at, emit, ask, get_files. simpl.
  destruct (can_write w LOG_TXT); simpl; [|reflexivity].
  world_norm. unfold with_files. f_equal. f_equal. apply map_eq. intros p.
  destruct (decide (p = LOG_TXT)) as [->|Hne].
  - rewrite lookup_alter_eq, !lookup_insert_eq. reflexivity.
  - rewrite lookup_alter_ne, !lookup_insert_ne by congruence. reflexivity.
Qed.

Lemma logged_other w msg fs p :
  p <> LOG_TXT -> logged w msg fs !! p = fs !! p.
Proof.
  intros H. unfold logged. destruct (can_write w LOG_TXT); [|reflexivity].
  rewrite lookup_insert_ne by congruence. reflexivity.
Qed.

Lemma write_text_atomic_run w fs temp final txt :
  can_write w temp = true -> temp <> final ->
  write_text_atomic temp final txt (with_files fs w)
  = mkOut true (with_files (<[final := txt ++ crlf]> (delete temp fs)) w)
          [EvRemove temp; EvOpenW temp; EvRemove final; EvRename temp final].
Proof.
  intros Hw Hne. unfold write_text_atomic.
  erewrite run_bind; [| apply remove_run | cbv beta].
  2:{ erewrite run_bind; [| apply fopen_wt_run_ok; exact Hw | cbv beta iota].
      2:{ erewrite run_bind; [| apply fprint_run | cbv beta].
          2:{ erewrite run_bind; [| apply fprint_run | cbv beta].
              2:{ erewrite run_bind; [| apply remove_run | cbv beta].
                  2:{ erewrite run_bind; [| eapply rename_run_ok | cbv beta].
                      - reflexivity.
                      - rewrite lookup_delete_ne by congruence.
                        rewrite !lookup_alter_eq, lookup_insert_eq. reflexivity.
                      - apply lookup_delete_eq.
                      - reflexivity. }
                  reflexivity. }
              reflexivity. }
          reflexivity. }
      reflexivity. }
  simpl. f_equal. unfold with_files. f_equal. apply map_eq. intros p.
  destruct (decide (p = final)) as [->|Hf].
  - rewrite !lookup_insert_eq. reflexivity.
  - rewrite !lookup_insert_ne by congruence.
    destruct (decide (p = temp)) as [->|Ht].
    + rewrite !lookup_delete_eq. reflexivity.
    + rewrite !lookup_delete_ne by congruence.
      rewrite !lookup_alter_ne, lookup_insert_ne, lookup_delete_ne by congruence.
      reflexivity.
Qed.


Lemma set_status_run w fs st :
  can_write w STA_NEW = true ->
  set_status st (with_files fs w)
  = mkOut tt (with_files (<[STA_TXT := st ++ crlf]> (delete STA_NEW fs)) w)
          [EvRemove STA_NEW; EvOpenW STA_NEW; EvRemove STA_TXT;
           EvRename STA_NEW STA_TXT].
Proof.
  intros Hw. unfold set_status.
  erewrite run_bind;
    [ | apply write_text_atomic_run; [exact Hw | discriminate]
      | cbv beta iota; apply run_ret ].
  rewrite app_nil_r. reflexivity.
Qed.

(** *** Properties of a computation that compose along [bind] *)

#[export] Instance same_env_preorder : PreOrder same_env.
Proof.
  split.
  - intros w. unfold same_env. auto.
  - intros a b c (H1 & H2 & H3 & H4 & H5) (G1 & G2 & G3 & G4 & G5).
    unfold same_env. rewrite G1, G2, G3, G4, G5. auto.
Qed.

#[export] Instance same_file_preorder p : PreOrder (same_file p).
Proof.
  split.
  - intros w. reflexivity.
  - intros a b c H1 H2. unfold same_file in *. congruence.
Qed.

Section Compose.
Context {A B : Type}.

Lemma quiet_bind P (m : M A) (f : A -> M B) :
  quiet P m -> (forall a, quiet P (f a)) -> quiet P (bind m f).
Proof.
  intros Hm Hf w. unfold bind. simpl. rewrite forallb_app, Hm, Hf. reflexivity.
Qed.

Lemma stable_bind R `{!PreOrder R} (m : M A) (f : A -> M B) :
  stable R m -> (forall a, stable R (f a)) -> stable R (bind m f).
Proof.
  intros Hm Hf w. unfold bind. simpl.
  etransitivity; [apply Hm | apply Hf].
Qed.

End Compose.

Lemma quiet_ret P {A} (a : A) : quiet P (ret a).
Proof. intros w. reflexivity. Qed.

Lemma quiet_emit P e : P e = true -> quiet P (emit e).
Proof. intros H w. simpl. rewrite H. reflexivity. Qed.

Lemma quiet_get_files P : quiet P get_files.
Proof. intros w. reflexivity. Qed.

Lemma quiet_put_files P fs : quiet P (put_files fs).
Proof. intros w. reflexivity. Qed.

Lemma quiet_ask P {A} (f : World -> A) : quiet P (ask f).
Proof. intros w. reflexivity. Qed.

Lemma stable_ret R `{!PreOrder R} {A} (a : A) : stable R (ret a).
Proof. intros w. simpl. reflexivity. Qed.

Lemma stable_emit R `{!PreOrder R} e : stable R (emit e).
Proof. intros w. simpl. reflexivity. Qed.

Lemma stable_get_files R `{!PreOrder R} : stable R get_files.
Proof. intros w. simpl. reflexivity. Qed.

Lemma stable_ask R `{!PreOrder R} {A} (f : World -> A) : stable R (ask f).
Proof. intros w. simpl. reflexivity. Qed.

Lemma same_env_put_files fs : stable same_env (put_files fs).
Proof. intros w. unfold same_env. simpl. auto. Qed.

(** Breaking a goal about a straight-line computation into goals about
    the calls it makes; [leaf] closes the goals about single calls. *)
Ltac compose_with leaf :=
  repeat
    lazymatch goal with
    | |- quiet _ (ret _) => apply quiet_ret
    | |- stable _ (ret _) => apply stable_ret; typeclasses eauto
    | |- quiet _ (bind _ _) => apply quiet_bind; [| intros ?]
    | |- stable _ (bind _ _) =>
        apply stable_bind; [typeclasses eauto | | intros ?]
    | |- quiet _ (match ?x with _ => _ end) => destruct x
    | |- stable _ (match ?x with _ => _ end) => destruct x
    | |- _ => leaf
    end.

Ltac quiet_leaf :=
  idtac; lazymatch goal with
  | |- quiet _ (emit _) => apply quiet_emit; reflexivity
  | |- quiet _ get_files => apply quiet_get_files
  | |- quiet _ (put_files _) => apply quiet_put_files
  | |- quiet _ (ask _) => apply quiet_ask
  end.

Ltac env_leaf :=
  idtac; lazymatch goal with
  | |- stable _ (emit _) => apply stable_emit; typeclasses eauto
  | |- stable _ get_files => apply stable_get_files; typeclasses eauto
  | |- stable _ (ask _) => apply stable_ask; typeclasses eauto
  | |- stable same_env (put_files _) => apply same_env_put_files
  end.

(** *** The calls each function makes *)

Section Quiet.

Variable system : text -> gmap string text -> gmap string text * Z.
Variable P : Event -> bool.
Hypothesis P_basic : forall e, basic e = true -> P e = true.

Ltac basic_leaf :=
  idtac; lazymatch goal with
  | |- quiet _ (emit _) => apply quiet_emit; apply P_basic; reflexivity
  | |- quiet _ get_files => apply quiet_get_files
  | |- quiet _ (put_files _) => apply quiet_put_files
  | |- quiet _ (ask _) => apply quiet_ask
  end.

Lemma quiet_file_exists p : quiet P (file_exists p).
Proof. unfold file_exists. compose_with basic_leaf. Qed.

Lemma quiet_remove p : quiet P (remove p).
Proof. unfold remove. compose_with basic_leaf. Qed.

Lemma quiet_rename a b : quiet P (rename a b).
Proof. unfold rename. compose_with basic_leaf. Qed.

Lemma quiet_fopen_rt p : quiet P (fopen_rt p).
Proof. unfold fopen_rt. compose_with basic_leaf. Qed.

Lemma quiet_fprint s p : quiet P (fprint s p).
Proof. unfold fprint. compose_with basic_leaf. Qed.

Lemma quiet_fputs s p : quiet P (fputs s p).
Proof. apply quiet_fprint. Qed.

Lemma quiet_ms_sleep ms : quiet P (ms_sleep ms).
Proof. unfold ms_sleep. compose_with basic_leaf. Qed.

Lemma quiet_fopen_wt p : Spec.published p = false -> quiet P (fopen_wt p).
Proof.
  intros Hp. unfold fopen_wt.
  apply quiet_bind; [| intros ?; compose_with basic_leaf].
  apply quiet_emit, P_basic. unfold basic. simpl. rewrite Hp. reflexivity.
Qed.

Lemma quiet_log_line msg : quiet P (log_line msg).
Proof.
  unfold log_line, fopen_at. compose_with basic_leaf.
  all: try apply quiet_fprint.
Qed.

Ltac call_leaf :=
  idtac; lazymatch goal with
  | |- quiet _ (file_exists _) => apply quiet_file_exists
  | |- quiet _ (remove _) => apply quiet_remove
  | |- quiet _ (rename _ _) => apply quiet_rename
  | |- quiet _ (fopen_rt _) => apply quiet_fopen_rt
  | |- quiet _ (fprint _ _) => apply quiet_fprint
  | |- quiet _ (fputs _ _) => apply quiet_fputs
  | |- quiet _ (ms_sleep _) => apply quiet_ms_sleep
  | |- quiet _ (log_line _) => apply quiet_log_line
  | |- quiet _ (fopen_wt _) => apply quiet_fopen_wt; reflexivity
  | |- _ => basic_leaf
  end.

Lemma quiet_write_text_atomic temp final txt :
  Spec.published temp = false -> quiet P (write_text_atomic temp final txt).
Proof.
  intros Hp. unfold write_text_atomic.
  apply quiet_bind; [call_leaf | intros ?].
  apply quiet_bind; [apply quiet_fopen_wt, Hp | intros ?].
  compose_with call_leaf.
Qed.

Lemma quiet_set_status st : quiet P (set_status st).
Proof.
  unfold set_status.
  apply quiet_bind; [apply quiet_write_text_atomic; reflexivity | intros ?].
  compose_with call_leaf.
Qed.

Lemma quiet_claim_tries n : quiet P (claim_tries n).
Proof.
  induction n as [|n IH]; simpl; compose_with call_leaf. exact IH.
Qed.

Lemma quiet_claim_cmd : quiet P claim_cmd.
Proof.
  unfold claim_cmd. apply quiet_bind; [call_leaf | intros ?].
  apply quiet_claim_tries.
Qed.

Lemma quiet_claim_pending : quiet P claim_pending.
Proof.
  unfold claim_pending. compose_with call_leaf.
  all: try apply quiet_claim_cmd.
Qed.

Lemma quiet_read_first_nonempty_line p n :
  quiet P (read_first_nonempty_line p n).
Proof. unfold read_first_nonempty_line. compose_with call_leaf. Qed.

Lemma quiet_copy_payload bufs total : quiet P (copy_payload bufs total).
Proof.
  revert total. induction bufs as [|b bufs IH]; intros total; simpl.
  - apply quiet_ret.
  - compose_with call_leaf. apply IH.
Qed.

Lemma quiet_build_job_bat_from_cmd p : quiet P (build_job_bat_from_cmd p).
Proof.
  unfold build_job_bat_from_cmd. compose_with call_leaf.
  all: try apply quiet_copy_payload.
Qed.

Lemma quiet_write_error_output what : quiet P (write_error_output what).
Proof. unfold write_error_output. compose_with call_leaf. Qed.

Lemma quiet_startup : quiet P startup.
Proof.
  unfold startup. compose_with call_leaf. all: apply quiet_set_status.
Qed.

Lemma quiet_kbhit : quiet P kbhit.
Proof. apply quiet_ask. Qed.

Lemma quiet_getch : quiet P getch.
Proof. intros w. unfold getch. destruct (keys w); reflexivity. Qed.

(** The two calls that are not [basic]. *)
Lemma quiet_exec_job_to_out :
  (forall c, P (EvExec c) = true) -> quiet P (exec_job_to_out system).
Proof.
  intros HE. unfold exec_job_to_out, call_system. compose_with call_leaf.
  apply quiet_emit, HE.
Qed.

Lemma quiet_publish_results sys_rc :
  P (EvOpenW RC_TXT) = true -> quiet P (publish_results sys_rc).
Proof.
  intros HR. unfold publish_results. compose_with call_leaf.
  unfold fopen_wt. compose_with call_leaf. apply quiet_emit, HR.
Qed.

End Quiet.


(** *** What each function leaves as it was *)

Section Stable.

Variable system : text -> gmap string text -> gmap string text * Z.

Ltac unfold_calls :=
  unfold startup, claim_pending, claim_cmd, process_cmd_run,
    write_error_output, publish_results, exec_job_to_out, call_system,
    build_job_bat_from_cmd, read_first_nonempty_line, set_status,
    write_text_atomic, log_line, kbhit, fputs, fprint, fopen_rt, fopen_at,
    fopen_wt, rename, remove, file_exists, ms_sleep.

Lemma same_env_getch : stable same_env getch.
Proof.
  intros w. unfold getch, same_env. destruct (keys w); simpl; auto.
Qed.

Lemma same_env_claim_tries n : stable same_env (claim_tries n).
Proof.
  induction n as [|n IH]; simpl; unfold_calls; compose_with env_leaf.
  exact IH.
Qed.

Lemma same_env_copy_payload bufs total :
  stable same_env (copy_payload bufs total).
Proof.
  revert total. induction bufs as [|b bufs IH]; intros total; simpl;
    unfold_calls; compose_with env_leaf.
  apply IH.
Qed.

Lemma same_env_process_cmd_run idle :
  stable same_env (process_cmd_run system idle).
Proof.
  unfold_calls; compose_with env_leaf.
  all: first [apply same_env_claim_tries | apply same_env_copy_payload].
Qed.

Lemma same_env_claim_pending : stable same_env claim_pending.
Proof.
  unfold_calls; compose_with env_leaf. all: apply same_env_claim_tries.
Qed.

Lemma same_env_startup : stable same_env startup.
Proof. unfold_calls; compose_with env_leaf. Qed.

Lemma same_env_publish_results rc : stable same_env (publish_results rc).
Proof. unfold_calls; compose_with env_leaf. Qed.

Lemma same_env_exec_job_to_out : stable same_env (exec_job_to_out system).
Proof. unfold_calls; compose_with env_leaf. Qed.

Lemma same_env_log_line msg : stable same_env (log_line msg).
Proof. unfold_calls; compose_with env_leaf. Qed.

Lemma same_env_remove p : stable same_env (remove p).
Proof. unfold_calls; compose_with env_leaf. Qed.

Lemma same_env_set_status st : stable same_env (set_status st).
Proof. unfold_calls; compose_with env_leaf. Qed.

Lemma same_env_build_job_bat_from_cmd p :
  stable same_env (build_job_bat_from_cmd p).
Proof.
  unfold_calls; compose_with env_leaf. all: apply same_env_copy_payload.
Qed.

(** Files. *)
Variable p : string.

Lemma same_file_file_exists q : stable (same_file p) (file_exists q).
Proof. intros w. reflexivity. Qed.

Lemma same_file_fopen_rt q : stable (same_file p) (fopen_rt q).
Proof. intros w. reflexivity. Qed.

Lemma same_file_ms_sleep ms : stable (same_file p) (ms_sleep ms).
Proof. intros w. reflexivity. Qed.

Lemma same_file_kbhit : stable (same_file p) kbhit.
Proof. intros w. reflexivity. Qed.

Lemma same_file_getch : stable (same_file p) getch.
Proof. intros w. unfold getch. destruct (keys w); reflexivity. Qed.

Lemma same_file_remove q : p <> q -> stable (same_file p) (remove q).
Proof.
  intros Hne w. rewrite <- (with_files_id w), remove_run.
  unfold same_file. world_norm. apply lookup_delete_ne. congruence.
Qed.

Lemma same_file_rename a b :
  p <> a -> p <> b -> stable (same_file p) (rename a b).
Proof.
  intros Ha Hb w. unfold same_file, rename, bind, emit, get_files. simpl.
  destruct (files w !! a), (files w !! b); simpl; try reflexivity.
  rewrite lookup_insert_ne, lookup_delete_ne by congruence. reflexivity.
Qed.

Lemma same_file_fopen_wt q : p <> q -> stable (same_file p) (fopen_wt q).
Proof.
  intros Hne w. unfold same_file, fopen_wt, bind, emit, get_files, ask.
  simpl. destruct (can_write w q); simpl; [|reflexivity].
  apply lookup_insert_ne. congruence.
Qed.

Lemma same_file_fprint s q : p <> q -> stable (same_file p) (fprint s q).
Proof.
  intros Hne w. unfold same_file. simpl. apply lookup_alter_ne. congruence.
Qed.

Lemma same_file_log_line msg :
  p <> LOG_TXT -> stable (same_file p) (log_line msg).
Proof.
  intros Hne w. rewrite <- (with_files_id w), log_line_run.
  unfold same_file. world_norm. apply logged_other, Hne.
Qed.

Ltac file_leaf :=
  idtac; lazymatch goal with
  | |- stable _ (file_exists _) => apply same_file_file_exists
  | |- stable _ (fopen_rt _) => apply same_file_fopen_rt
  | |- stable _ (ms_sleep _) => apply same_file_ms_sleep
  | |- stable _ kbhit => apply same_file_kbhit
  | |- stable _ getch => apply same_file_getch
  | |- stable _ (remove _) => apply same_file_remove; assumption
  | |- stable _ (rename _ _) => apply same_file_rename; assumption
  | |- stable _ (fopen_wt _) => apply same_file_fopen_wt; assumption
  | |- stable _ (fprint _ _) => apply same_file_fprint; assumption
  | |- stable _ (log_line _) => apply same_file_log_line; assumption
  | |- stable _ (ask _) => apply stable_ask; typeclasses eauto
  end.

Lemma same_file_write_text_atomic temp final txt :
  p <> temp -> p <> final ->
  stable (same_file p) (write_text_atomic temp final txt).
Proof. intros H1 H2. unfold write_text_atomic. compose_with file_leaf. Qed.

Lemma same_file_set_status st :
  p <> STA_NEW -> p <> STA_TXT -> p <> LOG_TXT ->
  stable (same_file p) (set_status st).
Proof.
  intros H1 H2 H3. unfold set_status.
  apply stable_bind; [typeclasses eauto | | intros ?].
  - apply same_file_write_text_atomic; assumption.
  - compose_with file_leaf.
Qed.

End Stable.

(** *** Triples *)

Lemma hoare_bind P {A B} Pre (Mid : A -> World -> Prop) Post
  (m : M A) (f : A -> M B) :
  hoare P Pre m Mid -> (forall a, hoare P (Mid a) (f a) Post) ->
  hoare P Pre (bind m f) Post.
Proof.
  intros Hm Hf w Hw. destruct (Hm w Hw) as [H1 E1].
  destruct (Hf _ _ H1) as [H2 E2]. unfold bind. simpl. split; [exact H2|].
  rewrite forallb_app, E1, E2. reflexivity.
Qed.

Lemma hoare_weaken P {A} (Pre Pre' : World -> Prop)
  (Post Post' : A -> World -> Prop) (m : M A) :
  hoare P Pre' m Post' ->
  (forall w, Pre w -> Pre' w) -> (forall a w, Post' a w -> Post a w) ->
  hoare P Pre m Post.
Proof.
  intros H HP HQ w Hw. destruct (H w (HP w Hw)) as [H1 E1]. auto.
Qed.

Lemma hoare_ret P {A} (Pre : World -> Prop) (a : A) :
  hoare P Pre (ret a) (fun b w => b = a /\ Pre w).
Proof. intros w Hw. simpl. auto. Qed.

(** A file that a quiet computation leaves alone stays what it was. *)
Lemma hoare_frame P {A} (m : M A) p (x : option text) :
  quiet P m -> stable (same_file p) m ->
  hoare P (fun w => files w !! p = x) m (fun _ w => files w !! p = x).
Proof.
  intros Hq Hs w Hw. split; [| apply Hq].
  rewrite <- Hw. apply Hs.
Qed.


End GuestFacts.

(* ===================================================================== *)
(** ** The directive the server reads and the directive of the
       specification *)
(* ===================================================================== *)

Module DirectiveFacts.
Import Chars Spec CharsFacts Guest GuestLogic.

#[local] Arguments Ascii.eqb : simpl never.

Lemma skip_while_split (p : ascii -> bool) (s : text) :
  exists pre, s = pre ++ skip_while p s /\ forallb p pre = true.
Proof.
  induction s as [|c s (pre & E & Hp)]; simpl.
  - exists []. auto.
  - destruct (p c) eqn:Hc.
    + exists (c :: pre). simpl. rewrite Hc, Hp. split; [congruence | auto].
    + exists []. auto.
Qed.

Lemma chop_while_split (p : ascii -> bool) (s : text) :
  exists suf, s = chop_while p s ++ suf /\ forallb p suf = true.
Proof.
  destruct (skip_while_split p (rev s)) as (pre & E & Hp).
  exists (rev pre). split.
  - unfold chop_while. apply (f_equal (@rev ascii)) in E.
    rewrite rev_app_distr, rev_involutive in E. exact E.
  - rewrite forallb_forall in *. intros x Hx. apply Hp, in_rev. exact Hx.
Qed.

Lemma forallb_chop_while (q p : ascii -> bool) (s : text) :
  forallb q s = true -> forallb q (chop_while p s) = true.
Proof.
  intros H. destruct (chop_while_split p s) as (suf & E & _).
  rewrite E, forallb_app in H. apply andb_true_iff in H. tauto.
Qed.

Lemma skip_while_app_stop (p : ascii -> bool) (a b : text) :
  skip_while p a <> [] -> skip_while p (a ++ b) = skip_while p a ++ b.
Proof.
  induction a as [|c a IH]; simpl; [congruence|].
  destruct (p c); auto.
Qed.

Lemma forallb_impl (p q : ascii -> bool) (s : text) :
  (forall c, p c = true -> q c = true) ->
  forallb p s = true -> forallb q s = true.
Proof.
  intros Hpq. rewrite !forallb_forall. auto.
Qed.

Lemma is_eol_isspace c : is_eol c = true -> isspace c = true.
Proof.
  unfold is_eol. intros H. apply orb_true_iff in H as [H|H];
    apply Ascii.eqb_eq in H; subst; reflexivity.
Qed.

Lemma isspace_not_nul c : isspace c = true -> negb (Ascii.eqb c NUL) = true.
Proof.
  intros H. destruct (Ascii.eqb_spec c NUL) as [->|]; [discriminate H | reflexivity].
Qed.

Lemma blank_is_text s : spec_blank s = true -> is_text s = true.
Proof. apply forallb_impl, isspace_not_nul. Qed.

Lemma c_str_text s : is_text s = true -> c_str s = s.
Proof.
  induction s as [|c s IH]; simpl; auto.
  intros H. apply andb_true_iff in H as [Hc Hs].
  destruct (Ascii.eqb c NUL); [discriminate Hc|]. rewrite IH; auto.
Qed.

Lemma trim_app_space s suf :
  forallb isspace suf = true -> trim (s ++ suf) = trim s.
Proof.
  intros Hsuf. unfold trim.
  destruct (skip_while isspace s) as [|c r] eqn:Ea.
  - destruct (skip_while_split isspace s) as (pre & E1 & Hpre).
    rewrite Ea, app_nil_r in E1. subst pre.
    rewrite skip_while_all; [reflexivity|].
    rewrite forallb_app, Hpre, Hsuf. reflexivity.
  - rewrite skip_while_app_stop by (rewrite Ea; discriminate).
    rewrite Ea. rewrite chop_while_app_all by exact Hsuf. reflexivity.
Qed.

(** Trimming does not see the line ends cut before it: they are white
    space too. *)
Lemma trim_chop_eol s : trim (chop_while is_eol s) = trim s.
Proof.
  destruct (chop_while_split is_eol s) as (suf & E & Hsuf).
  apply (forallb_impl _ _ _ is_eol_isspace) in Hsuf.
  set (a := chop_while is_eol s) in *. clearbody a. rewrite E.
  symmetry. apply trim_app_space, Hsuf.
Qed.

Lemma trim_blank s : spec_blank s = true -> trim s = [].
Proof.
  intros H. unfold trim. rewrite skip_while_all by exact H. reflexivity.
Qed.

Lemma trim_nonblank s : spec_blank s = false -> trim s <> [].
Proof.
  intros H E. unfold trim in E.
  destruct (skip_while_split isspace s) as (pre & E1 & Hpre).
  destruct (chop_while_split isspace (skip_while isspace s)) as (suf & E2 & Hsuf).
  rewrite E, app_nil_l in E2. rewrite E2 in E1.
  unfold spec_blank in H. rewrite E1, forallb_app, Hpre, Hsuf in H.
  discriminate.
Qed.

(** A line is white space, its trimmed text, white space. *)
Lemma trim_split s :
  exists pre suf, s = pre ++ trim s ++ suf
    /\ forallb isspace pre = true /\ forallb isspace suf = true.
Proof.
  destruct (skip_while_split isspace s) as (pre & E1 & Hpre).
  destruct (chop_while_split isspace (skip_while isspace s)) as (suf & E2 & Hsuf).
  exists pre, suf. unfold trim. rewrite <- E2. auto.
Qed.

(** What a buffer of white space, and a buffer holding a whole line,
    leave once cleaned. *)
Lemma clean_line_blank buf : spec_blank buf = true -> clean_line buf = [].
Proof.
  intros H. unfold clean_line. rewrite c_str_text by (apply blank_is_text, H).
  rewrite trim_chop_eol. apply trim_blank, H.
Qed.

Lemma clean_line_whole l suf :
  is_text l = true -> forallb isspace suf = true ->
  clean_line (l ++ suf) = trim l.
Proof.
  intros Hl Hs. unfold clean_line.
  rewrite c_str_text.
  - rewrite trim_chop_eol. apply trim_app_space, Hs.
  - unfold is_text in *. rewrite forallb_app, Hl. simpl.
    apply (forallb_impl _ _ _ isspace_not_nul), Hs.
Qed.

(** *** [fgets] on a stream that starts with a line *)

Lemma fgets_aux_cons n c s :
  fgets_aux (S n) (c :: s)
  = if Ascii.eqb c LF then ([c], s)
    else (c :: fst (fgets_aux n s), snd (fgets_aux n s)).
Proof. reflexivity. Qed.

Lemma fgets_aux_whole_line n l rest :
  no_lf l = true -> (length l < n)%nat ->
  fgets_aux n (l ++ LF :: rest) = (l ++ [LF], rest).
Proof.
  revert n. induction l as [|c l IH]; intros n Hl Hn; simpl in *.
  - destruct n; [lia|]. reflexivity.
  - destruct n; [lia|]. apply andb_true_iff in Hl as [Hc Hl].
    rewrite fgets_aux_cons.
    destruct (Ascii.eqb c LF); [discriminate Hc|].
    rewrite IH by (auto; lia). reflexivity.
Qed.

Lemma fgets_aux_last_line n l :
  no_lf l = true -> (length l <= n)%nat -> fgets_aux n l = (l, []).
Proof.
  revert n. induction l as [|c l IH]; intros n Hl Hn; simpl in *.
  - destruct n; reflexivity.
  - destruct n; [lia|]. apply andb_true_iff in Hl as [Hc Hl].
    rewrite fgets_aux_cons.
    destruct (Ascii.eqb c LF); [discriminate Hc|].
    rewrite IH by (auto; lia). reflexivity.
Qed.

Lemma fgets_aux_long_line n l rest :
  no_lf l = true -> (n <= length l)%nat ->
  fgets_aux n (l ++ rest) = (firstn n l, skipn n l ++ rest).
Proof.
  revert n. induction l as [|c l IH]; intros n Hl Hn; simpl in *.
  - assert (n = 0%nat) by lia. subst. destruct rest; reflexivity.
  - destruct n; [reflexivity|]. apply andb_true_iff in Hl as [Hc Hl].
    rewrite fgets_aux_cons.
    destruct (Ascii.eqb c LF); [discriminate Hc|].
    rewrite IH by (auto; lia). reflexivity.
Qed.

(** Every call of [fgets] with room for a character consumes one. *)
Lemma fgets_aux_shorter n c s :
  (length (snd (fgets_aux (S n) (c :: s))) < length (c :: s))%nat.
Proof.
  revert c s. induction n as [|n IH]; intros c s; rewrite fgets_aux_cons.
  - destruct (Ascii.eqb c LF); simpl; [lia|]. destruct s; simpl; lia.
  - destruct (Ascii.eqb c LF); simpl; [lia|].
    destruct s as [|d s]; simpl; [lia|].
    specialize (IH d s). simpl in IH. lia.
Qed.

Lemma fgets_seq_enough cap fuel s :
  (2 <= cap)%nat -> (length s <= fuel)%nat ->
  fgets_seq fuel cap s = fgets_all cap s.
Proof.
  intros Hcap. unfold fgets_all.
  remember (length s) as k eqn:Hk.
  revert fuel s Hk. induction k as [k IH] using lt_wf_ind.
  intros fuel s Hk Hf. destruct s as [|c s]; simpl in Hk.
  - subst k. destruct fuel; reflexivity.
  - destruct fuel as [|fuel]; [lia|]. subst k. simpl.
    destruct cap as [|[|cap]]; try lia. simpl Nat.sub.
    replace (S (S cap) - 1)%nat with (S cap) by lia.
    pose proof (fgets_aux_shorter cap c s) as Hs.
    destruct (fgets_aux (S cap) (c :: s)) as [buf rest] eqn:E. simpl in Hs.
    f_equal.
    rewrite (IH (length rest)) with (fuel := fuel) by (simpl; lia).
    rewrite (IH (length rest)) with (fuel := length s) by (simpl; lia).
    reflexivity.
Qed.

Lemma fgets_all_step cap s :
  (2 <= cap)%nat -> s <> [] ->
  fgets_all cap s
  = fst (fgets_aux (cap - 1) s) :: fgets_all cap (snd (fgets_aux (cap - 1) s)).
Proof.
  intros Hcap Hs. destruct s as [|c s]; [congruence|]. clear Hs.
  unfold fgets_all at 1. simpl length. simpl fgets_seq.
  destruct cap as [|[|cap]]; try lia.
  replace (S (S cap) - 1)%nat with (S cap) by lia.
  pose proof (fgets_aux_shorter cap c s) as Hs.
  destruct (fgets_aux (S cap) (c :: s)) as [buf rest] eqn:E. simpl in *.
  f_equal. apply fgets_seq_enough; lia.
Qed.


Lemma fgets_all_first_line l rest :
  no_lf l = true -> (length l < 511)%nat ->
  fgets_all MAX_LINE (l ++ LF :: rest)
  = (l ++ [LF]) :: fgets_all MAX_LINE rest.
Proof.
  intros Hl Hlen.
  rewrite fgets_all_step by (unfold MAX_LINE; try lia; destruct l; discriminate).
  replace (MAX_LINE - 1)%nat with 511%nat by reflexivity.
  rewrite fgets_aux_whole_line by auto. reflexivity.
Qed.

(** *** The lines of the specification *)

Lemma spec_lines_cons c s :
  spec_lines (c :: s)
  = if Ascii.eqb c LF then [] :: spec_lines s
    else match spec_lines s with
         | l :: ls => (c :: l) :: ls
         | [] => [[c]]
         end.
Proof. reflexivity. Qed.

Lemma spec_lines_line l rest :
  no_lf l = true -> spec_lines (l ++ LF :: rest) = l :: spec_lines rest.
Proof.
  induction l as [|c l IH]; intros Hl.
  - reflexivity.
  - simpl in Hl. apply andb_true_iff in Hl as [Hc Hl].
    simpl app. rewrite spec_lines_cons.
    destruct (Ascii.eqb c LF); [discriminate Hc|].
    rewrite IH by exact Hl. reflexivity.
Qed.

Lemma spec_lines_last l : no_lf l = true -> spec_lines l = [l].
Proof.
  induction l as [|c l IH]; intros Hl.
  - reflexivity.
  - simpl in Hl. apply andb_true_iff in Hl as [Hc Hl].
    rewrite spec_lines_cons.
    destruct (Ascii.eqb c LF); [discriminate Hc|].
    rewrite IH by exact Hl. reflexivity.
Qed.

Lemma first_line s :
  exists l, no_lf l = true /\ (s = l \/ exists rest, s = l ++ LF :: rest).
Proof.
  induction s as [|c s (l & Hl & H)].
  - exists []. auto.
  - destruct (Ascii.eqb_spec c LF) as [->|Hc].
    + exists []. split; [reflexivity|]. right. exists s. reflexivity.
    + exists (c :: l). split.
      * simpl. rewrite Hl. apply Ascii.eqb_neq in Hc. rewrite Hc. reflexivity.
      * destruct H as [->|(rest & ->)]; [left | right; exists rest];
          reflexivity.
Qed.

Lemma some_nonempty (x : text) :
  x <> [] -> match x with [] => None | _ => Some x end = Some x.
Proof. destruct x; congruence. Qed.

Lemma first_nonempty_hit buf bufs :
  clean_line buf <> [] ->
  first_nonempty (buf :: bufs) = Some (clean_line buf).
Proof. intros H. simpl. destruct (clean_line buf); congruence. Qed.

Lemma first_nonempty_skip buf bufs :
  clean_line buf = [] -> first_nonempty (buf :: bufs) = first_nonempty bufs.
Proof. intros H. simpl. rewrite H. reflexivity. Qed.

(** The server reads the directive of the specification, as long as the
    directive line fits the buffer with its line feed. *)
Lemma directive_refines s l :
  spec_directive_line s = Some l ->
  (length l <= 510)%nat -> is_text l = true ->
  first_nonempty (fgets_all MAX_LINE s) = Some (trim l).
Proof.
  remember (length s) as k eqn:Hk. revert s Hk.
  induction k as [k IH] using lt_wf_ind. intros s Hk Hd Hlen Htxt.
  assert (Hcap : (2 <= MAX_LINE)%nat) by (unfold MAX_LINE; lia).
  assert (Hm : (MAX_LINE - 1 = 511)%nat) by reflexivity.
  destruct (first_line s) as (l0 & Hl0 & [->|(rest & ->)]).
  - (* the last line, without a line feed *)
    unfold spec_directive_line in Hd. rewrite spec_lines_last in Hd by exact Hl0.
    simpl in Hd. destruct (spec_blank l0) eqn:Hb; [discriminate|].
    injection Hd as ->.
    assert (l <> []) by (intros ->; discriminate Hb).
    rewrite fgets_all_step, Hm by auto.
    rewrite fgets_aux_last_line by (auto; lia). simpl fst.
    assert (Hc : clean_line l = trim l)
      by (rewrite <- (app_nil_r l) at 1; apply clean_line_whole; auto).
    rewrite first_nonempty_hit; rewrite Hc; [reflexivity|].
    apply trim_nonblank, Hb.
  - unfold spec_directive_line in Hd.
    rewrite spec_lines_line in Hd by exact Hl0. simpl in Hd.
    assert (Hne : l0 ++ LF :: rest <> []) by (destruct l0; discriminate).
    destruct (spec_blank l0) eqn:Hb; simpl in Hd.
    + (* a blank line: skipped, in one buffer or in several *)
      destruct (Nat.ltb_spec (length l0) 511) as [Hfit|Hlong].
      * rewrite fgets_all_step, Hm by auto.
        rewrite fgets_aux_whole_line by auto. simpl fst. simpl snd.
        rewrite first_nonempty_skip.
        -- apply (IH (length rest)); auto.
           subst k. rewrite length_app. simpl. lia.
        -- apply clean_line_blank. unfold spec_blank in *.
           rewrite forallb_app, Hb. reflexivity.
      * rewrite fgets_all_step, Hm by auto.
        rewrite fgets_aux_long_line by auto. simpl fst. simpl snd.
        assert (Hparts : spec_blank (firstn 511 l0) = true
                         /\ spec_blank (skipn 511 l0) = true
                         /\ no_lf (skipn 511 l0) = true).
        { unfold spec_blank, no_lf in *.
          rewrite <- (firstn_skipn 511 l0), !forallb_app in Hb, Hl0.
          apply andb_true_iff in Hb, Hl0. tauto. }
        destruct Hparts as (Hb1 & Hb2 & Hl2).
        rewrite first_nonempty_skip by (apply clean_line_blank, Hb1).
        apply (IH (length (skipn 511 l0 ++ LF :: rest))); auto.
        -- subst k. rewrite !length_app, length_skipn. simpl. lia.
        -- unfold spec_directive_line.
           rewrite spec_lines_line by exact Hl2. simpl. rewrite Hb2.
           exact Hd.
    + (* the directive line *)
      injection Hd as ->.
      rewrite fgets_all_step, Hm by auto.
      rewrite fgets_aux_whole_line by (auto; lia). simpl fst.
      assert (Hc : clean_line (l ++ [LF]) = trim l)
        by (apply clean_line_whole; auto).
      rewrite first_nonempty_hit; rewrite Hc; [reflexivity|].
      apply trim_nonblank, Hb.
Qed.

(** A word that reads EXIT or QUIT whatever the case holds no NUL, and
    neither does the line around it. *)
Lemma same_word_is_text d (w : string) :
  spec_same_word d (str w) -> is_text (map tolower (str w)) = true ->
  is_text d = true.
Proof.
  unfold spec_same_word. intros H Hw. rewrite <- H in Hw. clear H.
  induction d as [|c d IH]; [reflexivity|].
  simpl in *. apply andb_true_iff in Hw as [Hc Hd].
  rewrite IH by exact Hd.
  destruct (Ascii.eqb_spec c NUL) as [->|]; [discriminate Hc | reflexivity].
Qed.

Lemma directive_line_is_text l :
  spec_same_word (trim l) (str "EXIT") \/ spec_same_word (trim l) (str "QUIT") ->
  is_text l = true.
Proof.
  intros H.
  assert (Ht : is_text (trim l) = true)
    by (destruct H as [H|H]; apply (same_word_is_text _ _ H); reflexivity).
  destruct (trim_split l) as (pre & suf & E & Hpre & Hsuf).
  rewrite E. unfold is_text in *. rewrite !forallb_app, Ht.
  rewrite (forallb_impl _ _ _ isspace_not_nul Hpre).
  rewrite (forallb_impl _ _ _ isspace_not_nul Hsuf). reflexivity.
Qed.

Lemma is_exit_cmd_same_word d :
  spec_same_word d (str "EXIT") \/ spec_same_word d (str "QUIT") ->
  is_exit_cmd d = true.
Proof.
  unfold is_exit_cmd. intros [H|H]; rewrite (stricmp_same _ _ H);
    [reflexivity | apply orb_true_r].
Qed.

End DirectiveFacts.

(* ===================================================================== *)
(** ** The guest server along its paths *)
(* ===================================================================== *)

Module GuestPaths.
Import Chars Spec Guest GuestFacts DirectiveFacts GuestLogic.

Ltac key_ne := apply String.eqb_neq; reflexivity.

(** Reading a file name in a map built by the calls above. *)
Ltac look :=
  repeat first
    [ rewrite lookup_insert_eq
    | rewrite lookup_delete_eq
    | rewrite lookup_insert_ne by key_ne
    | rewrite lookup_delete_ne by key_ne
    | rewrite lookup_alter_ne by key_ne
    | rewrite logged_other by key_ne ].

Lemma present_some {A} (x : A) : bool_decide (is_Some (Some x)) = true.
Proof. reflexivity. Qed.

Lemma present_none {A} : bool_decide (is_Some (@None A)) = false.
Proof. reflexivity. Qed.

Ltac conj_split := repeat match goal with |- _ /\ _ => split end.

Ltac step_with tac := eapply run_bind; [ tac | cbv beta iota ].

Ltac step :=
  step_with ltac:(first
    [ apply file_exists_run | apply remove_run | apply fprint_run
    | apply ms_sleep_run | apply fopen_rt_run | apply log_line_run
    | apply ask_run | apply run_ret ]).

Section Paths.

Variable system : text -> gmap string text -> gmap string text * Z.
Variable idle : Z.

(** Without the stop key the turn is the claim and the processing. *)
Lemma tick_no_esc w a w2 t :
  esc_pending w = false ->
  (claim_pending >>
   let* run := file_exists CMD_RUN in
   if run then process_cmd_run system idle
   else ms_sleep (to_unsigned idle) >> ret Continue) (after_keys w)
  = mkOut a w2 t ->
  tick system idle w = mkOut a w2 t.
Proof.
  intros Hesc H. unfold tick, esc_pending, after_keys in *.
  destruct w as [fs cw e ck ks cs se]. simpl in *.
  destruct ks as [|k ks]; simpl in *.
  - unfold bind at 1. simpl. unfold bind at 1. simpl. exact H.
  - unfold bind at 1. simpl. unfold bind at 1. simpl.
    rewrite Hesc. simpl. unfold with_keys. simpl. exact H.
Qed.

Lemma read_first_nonempty_line_run w fs p n c :
  fs !! p = Some c ->
  read_first_nonempty_line p n (with_files fs w)
  = mkOut (first_nonempty (fgets_all n c)) (with_files fs w) [EvOpenR p].
Proof.
  intros H. unfold read_first_nonempty_line.
  erewrite run_bind; [| apply fopen_rt_run | rewrite H; cbv beta iota; apply run_ret].
  reflexivity.
Qed.

(** The claim leaves the command of the turn in CMD.RUN. *)
Lemma claim_pending_run w fs c :
  command_for_tick fs = Some c ->
  exists fs1 t,
    claim_pending (with_files fs w) = mkOut tt (with_files fs1 w) t
    /\ fs1 !! CMD_RUN = Some c
    /\ forallb basic t = true.
Proof.
  unfold command_for_tick. intros H. unfold claim_pending.
  destruct (fs !! CMD_RUN) as [c'|] eqn:Hrun.
  - injection H as ->. exists fs, []. split; [| auto].
    unfold bind, file_exists, get_files, ret. simpl.
    rewrite Hrun. reflexivity.
  - eexists _, _. split; [| split].
    + step. step. rewrite Hrun, H, present_some, present_none.
      simpl negb. cbv beta iota.
      step_with ltac:(unfold claim_cmd; step; simpl claim_tries; step;
        look; rewrite H, present_some; cbv beta iota;
        step_with ltac:(eapply rename_run_ok; look; [exact H | reflexivity]);
        simpl; apply run_ret).
      apply log_line_run.
    + look. reflexivity.
    + reflexivity.
Qed.

(** The path of EXIT and QUIT. *)
Lemma process_exit_run w fs c d :
  fs !! CMD_RUN = Some c ->
  first_nonempty (fgets_all MAX_LINE c) = Some d ->
  is_exit_cmd d = true ->
  can_write w STA_NEW = true -> can_write w OUT_NEW = true ->
  can_write w RC_NEW = true ->
  exists fs2 t,
    process_cmd_run system idle (with_files fs w)
    = mkOut Break (with_files fs2 w) t
    /\ fs2 !! OUT_TXT = Some (str "MBXSRV BYE" ++ crlf)
    /\ fs2 !! RC_TXT = Some (str "0" ++ crlf)
    /\ fs2 !! CMD_RUN = None
    /\ fs2 !! STA_TXT = Some (str "BYE" ++ crlf)
    /\ forallb basic t = true.
Proof.
  intros Hc Hd Hx Hsta Hout Hrc. unfold process_cmd_run.
  eexists _, _. split; [| conj_split].
  - step_with ltac:(apply set_status_run; exact Hsta).
    step_with ltac:(erewrite read_first_nonempty_line_run
                      by (look; exact Hc); rewrite Hd; reflexivity).
    rewrite Hx. cbv beta iota.
    step.
    step_with ltac:(apply write_text_atomic_run; [exact Hout | discriminate]).
    step_with ltac:(apply write_text_atomic_run; [exact Hrc | discriminate]).
    step.
    step_with ltac:(apply set_status_run; exact Hsta).
    apply run_ret.
  - look. reflexivity.
  - look. reflexivity.
  - look. reflexivity.
  - look. reflexivity.
  - reflexivity.
Qed.

(** A turn with a command, up to the processing of CMD.RUN. *)
Lemma tick_command_run w c :
  esc_pending w = false ->
  command_for_tick (files w) = Some c ->
  exists fs1 t1,
    fs1 !! CMD_RUN = Some c /\ forallb basic t1 = true
    /\ forall a w2 t2,
        process_cmd_run system idle (with_files fs1 (after_keys w))
        = mkOut a w2 t2 ->
        tick system idle w = mkOut a w2 (t1 ++ t2).
Proof.
  intros Hesc Hc.
  destruct (claim_pending_run (after_keys w) (files w) c Hc)
    as (fs1 & t1 & Hrun & Hfs1 & Ht1).
  exists fs1, t1. split; [exact Hfs1 | split; [exact Ht1 |]].
  intros a w2 t2 Hp. apply tick_no_esc; [exact Hesc |].
  rewrite <- (with_files_id (after_keys w)).
  replace (files (after_keys w)) with (files w) by reflexivity.
  eapply run_bind; [exact Hrun | cbv beta].
  change t2 with ([] ++ t2).
  eapply run_bind; [apply file_exists_run | cbv beta].
  rewrite Hfs1, present_some. exact Hp.
Qed.

(** A turn whose command says EXIT or QUIT. *)
Lemma tick_exit_run w c d :
  esc_pending w = false ->
  command_for_tick (files w) = Some c ->
  first_nonempty (fgets_all MAX_LINE c) = Some d ->
  is_exit_cmd d = true ->
  can_write w STA_NEW = true -> can_write w OUT_NEW = true ->
  can_write w RC_NEW = true ->
  let r := tick system idle w in
  val r = Break
  /\ files (post r) !! OUT_TXT = Some (str "MBXSRV BYE" ++ crlf)
  /\ files (post r) !! RC_TXT = Some (str "0" ++ crlf)
  /\ files (post r) !! CMD_RUN = None
  /\ files (post r) !! STA_TXT = Some (str "BYE" ++ crlf).
Proof.
  intros Hesc Hc Hd Hx Hsta Hout Hrc.
  destruct (tick_command_run w c Hesc Hc) as (fs1 & t1 & Hfs1 & _ & Htick).
  destruct (process_exit_run (after_keys w) fs1 c d Hfs1 Hd Hx Hsta Hout Hrc)
    as (fs2 & t2 & Hp & H1 & H2 & H3 & H4 & _).
  cbv zeta. rewrite (Htick _ _ _ Hp). simpl. auto.
Qed.

(** A turn that breaks ends the loop, whatever turns are left. *)
Lemma serve_break n w :
  val (tick system idle w) = Break ->
  serve system (S n) idle w
  = mkOut (Some tt) (post (tick system idle w)) (evs (tick system idle w)).
Proof.
  intros H. cbn [serve]. unfold bind.
  destruct (tick system idle w) as [v w1 t1]. cbn [val post evs] in *.
  subst v. cbn [ret val post evs]. rewrite app_nil_r. reflexivity.
Qed.

(** [main] when the loop ends at its first turn. *)
Lemma main_break n argv w0 w w1 t1 :
  post (startup w0) = w ->
  serve system (S n) (idle_ms_of argv) w = mkOut (Some tt) w1 t1 ->
  main system (S n) argv w0
  = mkOut (Some 0) (post (log_line (str "MBXSRV stopped") w1))
      (evs (startup w0) ++ t1 ++ evs (log_line (str "MBXSRV stopped") w1) ++ []).
Proof.
  intros Hw Hs. unfold main, bind. cbv zeta. rewrite Hw, Hs. reflexivity.
Qed.

End Paths.

End GuestPaths.

(* ===================================================================== *)
(** ** The properties of the specification *)
(* ===================================================================== *)

Import Chars Spec Examples.

(** C1. When the first non-blank line of the command of a turn reads EXIT
    or QUIT in any letter case (white space around it is allowed, as long
    as the line fits the line buffer), and the stop key is not pressed,
    the turn publishes the output "MBXSRV BYE" and the return code "0" (a
    text the host parses as 0), deletes the claimed command file, leaves
    BYE in the status slot and ends the loop: [serve] returns at this
    turn, whatever turns it had left, with the calls and the directory of
    the turn, and when the turn is the first of [main], [main] logs that
    it stopped and returns 0 with the directory of the turn.  This is
    stated of a directory in which the staging files can be opened and no
    rename is refused. *)
Theorem exit_or_quit_says_bye
  (system : text -> gmap string text -> gmap string text * Z)
  (idle : Z) (w : Guest.World) (c l : text) :
  esc_pending w = false ->
  command_for_tick (Guest.files w) = Some c ->
  spec_directive_line c = Some l ->
  (length l <= 510)%nat ->
  spec_same_word (trim l) (str "EXIT") \/ spec_same_word (trim l) (str "QUIT") ->
  Guest.can_write w Guest.STA_NEW = true ->
  Guest.can_write w Guest.OUT_NEW = true ->
  Guest.can_write w Guest.RC_NEW = true ->
  let r := Guest.tick system idle w in
  Guest.val r = Guest.Break
  /\ Guest.files (Guest.post r) !! Guest.OUT_TXT = Some (str "MBXSRV BYE" ++ crlf)
  /\ Guest.files (Guest.post r) !! Guest.RC_TXT = Some (str "0" ++ crlf)
  /\ Host.parseReturnCode (str "0" ++ crlf) = Some 0
  /\ Guest.files (Guest.post r) !! Guest.CMD_RUN = None
  /\ Guest.files (Guest.post r) !! Guest.STA_TXT = Some (str "BYE" ++ crlf)
  /\ (forall n,
        Guest.serve system (S n) idle w
        = Guest.mkOut (Some tt) (Guest.post r) (Guest.evs r))
  /\ (forall n argv w0,
        Guest.post (Guest.startup w0) = w ->
        Guest.idle_ms_of argv = idle ->
        let m := Guest.main system (S n) argv w0 in
        Guest.val m = Some 0
        /\ forall p, p <> Guest.LOG_TXT ->
             Guest.files (Guest.post m) !! p = Guest.files (Guest.post r) !! p).
Proof.
  intros Hesc Hc Hl Hlen Hword Hsta Hout Hrc.
  pose proof (DirectiveFacts.directive_refines c l Hl Hlen
                (DirectiveFacts.directive_line_is_text l Hword)) as Hd.
  pose proof (DirectiveFacts.is_exit_cmd_same_word _ Hword) as Hx.
  destruct (GuestPaths.tick_exit_run system idle w c (trim l)
              Hesc Hc Hd Hx Hsta Hout Hrc) as (H0 & H1 & H2 & H3 & H4).
  cbv zeta.
  assert (Hserve : forall n,
            Guest.serve system (S n) idle w
            = Guest.mkOut (Some tt) (Guest.post (Guest.tick system idle w))
                (Guest.evs (Guest.tick system idle w))).
  { intros n. apply GuestPaths.serve_break, H0. }
  do 6 (split; [assumption || reflexivity |]).
  split; [exact Hserve |].
  intros n argv w0 Hw0 Hidle.
  rewrite (GuestPaths.main_break system n argv w0 w _ _ Hw0
             ltac:(rewrite Hidle; apply Hserve)).
  cbn [Guest.val Guest.post]. split; [reflexivity |].
  intros p Hp. apply GuestFacts.same_file_log_line, Hp.
Qed.

Lemma exit_or_quit_says_bye_witness :
  let r := Guest.tick idle_shell 100 (Guest.post (Guest.startup exit_world)) in
  Guest.val r = Guest.Break
  /\ Guest.files (Guest.post r) !! Guest.OUT_TXT = Some (str "MBXSRV BYE" ++ crlf)
  /\ Guest.files (Guest.post r) !! Guest.RC_TXT = Some (str "0" ++ crlf)
  /\ Host.parseReturnCode (str "0" ++ crlf) = Some 0
  /\ Guest.files (Guest.post r) !! Guest.CMD_RUN = None
  /\ Guest.files (Guest.post r) !! Guest.STA_TXT = Some (str "BYE" ++ crlf)
  /\ Guest.val (Guest.serve idle_shell 3 100
                  (Guest.post (Guest.startup exit_world))) = Some tt
  /\ Guest.val (Guest.main idle_shell 3 [str "MBXSRV"] exit_world) = Some 0
  /\ Guest.files (Guest.post (Guest.main idle_shell 3 [str "MBXSRV"]
                                exit_world)) !! Guest.STA_TXT
     = Some (str "BYE" ++ crlf).
Proof.
  destruct (exit_or_quit_says_bye idle_shell 100
              (Guest.post (Guest.startup exit_world))
              (str "Exit" ++ crlf) (str "Exit" ++ [CR]))
    as (H0 & H1 & H2 & H3 & H4 & H5 & Hserve & Hmain).
  - reflexivity.
  - vm_compute. reflexivity.
  - reflexivity.
  - simpl. lia.
  - left. reflexivity.
  - reflexivity.
  - reflexivity.
  - reflexivity.
  - destruct (Hmain 2%nat [str "MBXSRV"] exit_world eq_refl eq_refl)
      as [Hval Hfiles].
    cbv zeta. do 6 (split; [assumption |]).
    split; [rewrite (Hserve 2%nat); reflexivity |].
    split; [exact Hval |].
    rewrite Hfiles by discriminate. exact H5.
Defined.

(** C8, as the specification has it, fails: a configured interval
    outside the range is not brought to the nearest end of the range.
    5000 gives 100ms, where a clamp gives 2000ms. *)
Lemma idle_interval_is_not_clamped :
  Guest.idle_ms_of [str "MBXSRV"; str "5000"]
  <> spec_clamp (Guest.atoi (str "5000")).
Proof. vm_compute. discriminate. Qed.

(** C8, amended. The idle interval is 100ms when no interval is
    configured; a configured value within [10, 2000] is taken as it is;
    any other configured value is ignored and the interval stays 100ms.
    The interval is therefore always within [10ms, 2000ms], and the
    conversion to [unsigned] for the sleep leaves it unchanged. *)
Theorem idle_interval_default_or_in_range
  (argv : list text) (prog a : text) (rest : list text) :
  10 <= Guest.idle_ms_of argv <= 2000
  /\ Guest.to_unsigned (Guest.idle_ms_of argv) = Guest.idle_ms_of argv
  /\ Guest.idle_ms_of [] = 100
  /\ Guest.idle_ms_of [prog] = 100
  /\ Guest.idle_ms_of (prog :: a :: rest)
     = if (10 <=? Guest.atoi a) && (Guest.atoi a <=? 2000)
       then Guest.atoi a else 100.
Proof.
  assert (Hr : 10 <= Guest.idle_ms_of argv <= 2000).
  { unfold Guest.idle_ms_of. destruct argv as [|p [|x xs]]; try lia.
    destruct ((Guest.atoi x >=? 10) && (Guest.atoi x <=? 2000)) eqn:E; lia. }
  split; [exact Hr | split; [| split; [| split]]]; try reflexivity.
  - unfold Guest.to_unsigned. apply Z.mod_small. lia.
  - unfold Guest.idle_ms_of. rewrite Z.geb_leb. reflexivity.
Qed.

(* ===================================================================== *)
(** ** The payload bound *)
(* ===================================================================== *)

Module PayloadFacts.
Import Chars Spec Guest GuestFacts DirectiveFacts GuestPaths GuestLogic.

#[local] Arguments Ascii.eqb : simpl never.

Lemma copy_payload_run w bufs : forall total fs,
  exists fs',
    copy_payload bufs total (with_files fs w)
    = mkOut (copy_verdict bufs total) (with_files fs' w) []
    /\ forall p, p <> JOB_BAT -> fs' !! p = fs !! p.
Proof.
  induction bufs as [|b bufs IH]; intros total fs; simpl.
  - exists fs. split; reflexivity.
  - destruct (total + strlen b >? MAX_PAYLOAD).
    + eexists. split.
      * change (@nil Event) with (@nil Event ++ ([] ++ [])).
        step. step. apply run_ret.
      * intros p Hp. rewrite !lookup_alter_ne by congruence. reflexivity.
    + destruct (IH (total + strlen b)
                  (alter (fun old => old ++ c_str b) JOB_BAT fs))
        as (fs' & Hrun & Hfs').
      exists fs'. split.
      * change (@nil Event) with (@nil Event ++ []).
        eapply run_bind; [apply fprint_run | exact Hrun].
      * intros p Hp. rewrite Hfs' by exact Hp.
        rewrite lookup_alter_ne by congruence. reflexivity.
Qed.

Lemma copy_verdict_over bufs : forall total,
  total <= MAX_PAYLOAD -> total + total_strlen bufs > MAX_PAYLOAD ->
  exists n, copy_verdict bufs total = inr n.
Proof.
  induction bufs as [|b bufs IH]; intros total Hle Hover; simpl in *.
  - lia.
  - destruct (total + strlen b >? MAX_PAYLOAD) eqn:E.
    + eauto.
    + apply IH; lia.
Qed.

Lemma fgets_aux_app n s :
  fst (fgets_aux n s) ++ snd (fgets_aux n s) = s.
Proof.
  revert s. induction n as [|n IH]; intros [|c s]; try reflexivity.
  rewrite fgets_aux_cons. destruct (Ascii.eqb c LF); simpl; [reflexivity|].
  rewrite IH. reflexivity.
Qed.

Lemma strlen_text s : is_text s = true -> strlen s = Z.of_nat (length s).
Proof. intros H. unfold strlen. rewrite c_str_text by exact H. reflexivity. Qed.

Lemma total_strlen_fgets_all s :
  is_text s = true ->
  total_strlen (fgets_all MAX_LINE s) = Z.of_nat (length s).
Proof.
  remember (length s) as k eqn:Hk. revert s Hk.
  induction k as [k IH] using lt_wf_ind. intros s Hk Htxt.
  destruct s as [|c s]; [subst; reflexivity|].
  assert (Hcap : (2 <= MAX_LINE)%nat) by (unfold MAX_LINE; lia).
  rewrite fgets_all_step by (auto; discriminate).
  replace (MAX_LINE - 1)%nat with 511%nat by reflexivity.
  pose proof (fgets_aux_app 511 (c :: s)) as Happ.
  pose proof (fgets_aux_shorter 510 c s) as Hshort.
  destruct (fgets_aux 511 (c :: s)) as [buf rest]. simpl fst in *. simpl snd in *.
  assert (Hparts : is_text buf = true /\ is_text rest = true).
  { unfold is_text in *. rewrite <- Happ, forallb_app in Htxt.
    apply andb_true_iff in Htxt. exact Htxt. }
  destruct Hparts as [Hb Hr].
  simpl total_strlen. rewrite (IH (length rest)) by (auto; lia).
  rewrite strlen_text by exact Hb. rewrite Hk, <- Happ, length_app. lia.
Qed.

(** A payload over the bound stops the copy loop. *)
Lemma copy_verdict_oversize c :
  is_text c = true -> Z.of_nat (length c) > MAX_PAYLOAD ->
  exists n, copy_verdict (fgets_all MAX_LINE c) 0 = inr n.
Proof.
  intros Htxt Hover. apply copy_verdict_over.
  - unfold MAX_PAYLOAD. lia.
  - rewrite total_strlen_fgets_all by exact Htxt. lia.
Qed.

Section Paths.

Variable system : text -> gmap string text -> gmap string text * Z.
Variable idle : Z.

Lemma build_oversize_run w fs c :
  fs !! CMD_RUN = Some c ->
  is_text c = true -> Z.of_nat (length c) > MAX_PAYLOAD ->
  exists n fs' t,
    build_job_bat_from_cmd CMD_RUN (with_files fs w)
    = mkOut (false, n) (with_files fs' w) t
    /\ (forall p, p <> JOB_BAT -> p <> RC_NEW -> fs' !! p = fs !! p)
    /\ forallb basic t = true.
Proof.
  intros Hc Htxt Hover. unfold build_job_bat_from_cmd.
  destruct (copy_verdict_oversize c Htxt Hover) as (n & Hn).
  destruct (can_write w JOB_BAT) eqn:Hw.
  - destruct (copy_payload_run w (fgets_all MAX_LINE c) 0
      (alter (fun old => old ++ (str "rem MBXSRV job wrapper" ++ crlf)) JOB_BAT
         (alter (fun old => old ++ (str "@echo off" ++ crlf)) JOB_BAT
            (<[JOB_BAT := []]> (delete RC_NEW (delete JOB_BAT fs))))))
      as (fs' & Hrun & Hfs').
    exists n, fs'. eexists. split; [| split].
    + step. step.
      step_with ltac:(rewrite fopen_rt_run; look; rewrite Hc; reflexivity).
      step_with ltac:(apply fopen_wt_run_ok; exact Hw).
      step. step.
      step_with ltac:(exact Hrun).
      rewrite Hn. cbv beta iota. apply run_ret.
    + intros p H1 H2. rewrite Hfs' by exact H1.
      rewrite !lookup_alter_ne, lookup_insert_ne, !lookup_delete_ne by congruence.
      reflexivity.
    + reflexivity.
  - exists 0. eexists _, _. split; [| split].
    + step. step.
      step_with ltac:(rewrite fopen_rt_run; look; rewrite Hc; reflexivity).
      step_with ltac:(apply fopen_wt_run_fail; exact Hw).
      apply run_ret.
    + intros p H1 H2. rewrite !lookup_delete_ne by congruence. reflexivity.
    + reflexivity.
Qed.

Lemma write_error_output_run w fs what :
  can_write w OUT_NEW = true -> can_write w RC_NEW = true ->
  exists fs' t,
    write_error_output what (with_files fs w) = mkOut tt (with_files fs' w) t
    /\ fs' !! OUT_TXT = Some (error_text what (errno w))
    /\ fs' !! RC_TXT = Some (str "1" ++ crlf)
    /\ fs' !! CMD_RUN = fs !! CMD_RUN
    /\ forallb basic t = true.
Proof.
  intros Hout Hrc. unfold write_error_output.
  eexists _, _. split; [| conj_split].
  - step.
    step_with ltac:(apply fopen_wt_run_ok; exact Hout).
    step. step. step. step.
    step_with ltac:(eapply rename_run_ok; look;
                    [rewrite !lookup_alter_eq; look; reflexivity | reflexivity]).
    step.
    step_with ltac:(eapply run_bind;
                    [apply fopen_wt_run_ok; exact Hrc
                    | cbv beta iota; apply fprint_run]).
    step.
    step_with ltac:(eapply rename_run_ok; look;
                    [rewrite !lookup_alter_eq; look; reflexivity | reflexivity]).
    apply run_ret.
  - look. reflexivity.
  - look. reflexivity.
  - look. reflexivity.
  - reflexivity.
Qed.

(** The path of a command over the bound that does not say EXIT. *)
Lemma process_oversize_run w fs c :
  fs !! CMD_RUN = Some c ->
  not_exit (first_nonempty (fgets_all MAX_LINE c)) ->
  is_text c = true -> Z.of_nat (length c) > MAX_PAYLOAD ->
  can_write w STA_NEW = true -> can_write w OUT_NEW = true ->
  can_write w RC_NEW = true ->
  exists fs2 t what,
    process_cmd_run system idle (with_files fs w)
    = mkOut Continue (with_files fs2 w) t
    /\ fs2 !! OUT_TXT = Some (error_text what (errno w))
    /\ fs2 !! RC_TXT = Some (str "1" ++ crlf)
    /\ fs2 !! CMD_RUN = None
    /\ fs2 !! STA_TXT = Some (str "READY" ++ crlf)
    /\ forallb basic t = true.
Proof.
  intros Hc Hd Htxt Hover Hsta Hout Hrc. unfold process_cmd_run.
  set (fs1 := <[STA_TXT := str "RUNNING" ++ crlf]> (delete STA_NEW fs)).
  assert (Hc1 : fs1 !! CMD_RUN = Some c) by (unfold fs1; look; exact Hc).
  destruct (first_nonempty (fgets_all MAX_LINE c)) as [d|] eqn:Hfirst;
    simpl in Hd.
  - destruct (build_oversize_run w fs1 c Hc1 Htxt Hover)
      as (n & fs' & tb & Hb & Hfs' & Htb).
    set (msg := str "ERROR: build_job_bat failed (payload=" ++ fmt_d n
                ++ str ", errno=" ++ fmt_d (errno w) ++ str ")").
    destruct (write_error_output_run w (logged w msg fs')
      (str "Failed to build MBXJOB.BAT (payload too large or file error)")
      Hout Hrc) as (fs3 & te & He & H1 & H2 & H3 & Hte).
    eexists _, _, _. split; [| conj_split].
    + step_with ltac:(apply set_status_run; exact Hsta).
      step_with ltac:(erewrite read_first_nonempty_line_run
                        by exact Hc1; rewrite Hfirst; reflexivity).
      rewrite Hd. cbv beta iota.
      step_with ltac:(exact Hb).
      cbn [fst snd]. cbv beta iota.
      step. step.
      step_with ltac:(exact He).
      step.
      step_with ltac:(apply set_status_run; exact Hsta).
      step. apply run_ret.
    + look. exact H1.
    + look. exact H2.
    + look. reflexivity.
    + look. reflexivity.
    + rewrite !forallb_app, Htb, Hte. reflexivity.
  - set (msg := str "ERROR: CMD.RUN empty").
    destruct (write_error_output_run w (logged w msg fs1)
      (str "CMD file is empty") Hout Hrc)
      as (fs3 & te & He & H1 & H2 & H3 & Hte).
    eexists _, _, _. split; [| conj_split].
    + step_with ltac:(apply set_status_run; exact Hsta).
      step_with ltac:(erewrite read_first_nonempty_line_run
                        by exact Hc1; rewrite Hfirst; reflexivity).
      step.
      step_with ltac:(exact He).
      step.
      step_with ltac:(apply set_status_run; exact Hsta).
      step. apply run_ret.
    + look. exact H1.
    + look. exact H2.
    + look. reflexivity.
    + look. reflexivity.
    + rewrite !forallb_app, Hte. reflexivity.
Qed.

(** *** A turn of the loop, by cases on the stop key *)

Lemma bind_silent {A B} (m : M A) (f : A -> M B) w a w' :
  m w = mkOut a w' [] -> bind m f w = f a w'.
Proof.
  intros H. unfold bind. rewrite H. cbn [val post evs app].
  destruct (f a w'). reflexivity.
Qed.

Lemma tick_unfold w :
  tick system idle w
  = (if esc_pending w then esc_branch else cmd_branch system idle)
      (after_keys w).
Proof.
  unfold tick. fold (cmd_branch system idle). fold esc_branch.
  unfold esc_pending, after_keys.
  destruct w as [fs cw e ck [|k ks] cs se]; cbn [keys tl].
  - set (w := mkWorld fs cw e ck [] cs se).
    rewrite (bind_silent kbhit _ w false w eq_refl). cbv beta iota.
    rewrite (bind_silent (ret 0) _ w 0 w eq_refl). reflexivity.
  - set (w := mkWorld fs cw e ck (k :: ks) cs se).
    rewrite (bind_silent kbhit _ w true w eq_refl). cbv beta iota.
    rewrite (bind_silent getch _ w k (with_keys ks w) eq_refl). reflexivity.
Qed.

End Paths.

(** The calls of a computation made of the functions of the server, for
    a [P] that holds of the [basic] calls ([HP]). *)
Ltac quiet_calls HP :=
  repeat
    lazymatch goal with
    | |- quiet _ (ret _) => apply quiet_ret
    | |- quiet _ (bind _ _) => apply quiet_bind; [| intros ?]
    | |- quiet _ (log_line _) => apply quiet_log_line; exact HP
    | |- quiet _ (set_status _) => apply quiet_set_status; exact HP
    | |- quiet _ (remove _) => apply quiet_remove; exact HP
    | |- quiet _ (ms_sleep _) => apply quiet_ms_sleep; exact HP
    | |- quiet _ (file_exists _) => apply quiet_file_exists
    | |- quiet _ (write_error_output _) =>
        apply quiet_write_error_output; exact HP
    | |- quiet _ (write_text_atomic _ _ _) =>
        apply quiet_write_text_atomic; [exact HP | reflexivity]
    | |- quiet _ (read_first_nonempty_line _ _) =>
        apply quiet_read_first_nonempty_line; exact HP
    | |- quiet _ (build_job_bat_from_cmd _) =>
        apply quiet_build_job_bat_from_cmd; exact HP
    | |- quiet _ claim_pending => apply quiet_claim_pending; exact HP
    | |- quiet _ kbhit => apply quiet_kbhit
    | |- quiet _ getch => apply quiet_getch
    | |- quiet _ (ask _) => apply quiet_ask
    | |- quiet _ (match ?x with _ => _ end) => destruct x
    end.

Lemma basic_not_exec e : basic e = true -> not_exec e = true.
Proof.
  unfold basic, not_exec. intros H. apply andb_true_iff in H. tauto.
Qed.

Lemma forallb_basic_not_exec t :
  forallb basic t = true -> forallb not_exec t = true.
Proof.
  rewrite !forallb_forall. intros H e He. apply basic_not_exec, H, He.
Qed.

Ltac quiet_branch :=
  split;
  [ exact I
  | lazymatch goal with
    | |- forallb _ (evs (?m ?w)) = true =>
        let Hq := fresh "Hq" in
        assert (Hq : quiet not_exec m) by quiet_calls basic_not_exec;
        apply Hq
    end ].

Section NeverRuns.

Variable system : text -> gmap string text -> gmap string text * Z.
Variable idle : Z.
Variable c : text.
Hypothesis c_text : is_text c = true.
Hypothesis c_over : Z.of_nat (length c) > MAX_PAYLOAD.

Let claimed (w : World) : Prop := files w !! CMD_RUN = Some c.

Lemma build_oversize_refuses :
  hoare not_exec claimed (build_job_bat_from_cmd CMD_RUN)
        (fun b _ => fst b = false).
Proof.
  intros w Hw. rewrite <- (with_files_id w).
  destruct (build_oversize_run w (files w) c Hw c_text c_over)
    as (n & fs' & t & Hb & _ & Ht).
  rewrite Hb. simpl. split; [reflexivity | apply forallb_basic_not_exec, Ht].
Qed.

Lemma process_oversize_never_runs :
  hoare not_exec claimed (process_cmd_run system idle) (fun _ _ => True).
Proof.
  unfold process_cmd_run.
  apply hoare_bind with (Mid := fun _ => claimed).
  { apply hoare_frame.
    - apply quiet_set_status, basic_not_exec.
    - apply same_file_set_status; discriminate. }
  intros _.
  apply hoare_bind
    with (Mid := fun a w => a = first_nonempty (fgets_all MAX_LINE c)
                            /\ claimed w).
  { intros w Hw. rewrite <- (with_files_id w).
    rewrite (read_first_nonempty_line_run w (files w) _ _ c Hw).
    simpl. rewrite with_files_id. auto. }
  intros first w [-> Hw].
  destruct (first_nonempty (fgets_all MAX_LINE c)) as [d|].
  - destruct (is_exit_cmd d).
    + quiet_branch.
    + refine (hoare_bind not_exec claimed (fun b _ => fst b = false)
                (fun _ _ => True) _ _ build_oversize_refuses _ w Hw).
      intros b w' Hb. rewrite Hb. quiet_branch.
  - quiet_branch.
Qed.

(** A command over the bound never reaches the interpreter, whatever
    else happens in the turn. *)
Lemma oversize_never_runs w :
  command_for_tick (files w) = Some c ->
  forallb not_exec (evs (tick system idle w)) = true.
Proof.
  intros Hc. rewrite tick_unfold.
  destruct (esc_pending w).
  - assert (Hq : quiet not_exec esc_branch)
      by (unfold esc_branch; quiet_calls basic_not_exec).
    apply Hq.
  - assert (Hh : hoare not_exec
                   (fun w => command_for_tick (files w) = Some c)
                   (cmd_branch system idle) (fun _ _ => True)).
    { unfold cmd_branch.
      apply hoare_bind with (Mid := fun _ => claimed).
      { intros w0 H0. rewrite <- (with_files_id w0).
        destruct (claim_pending_run w0 (files w0) c H0)
          as (fs1 & t & Hrun & Hl & Hb).
        rewrite Hrun. simpl. split;
          [exact Hl | apply forallb_basic_not_exec, Hb]. }
      intros _.
      apply hoare_bind with (Mid := fun a w => a = true /\ claimed w).
      { intros w0 H0. unfold file_exists, bind, get_files, ret. simpl.
        rewrite H0. auto. }
      intros a w0 [-> H0]. exact (process_oversize_never_runs w0 H0). }
    apply Hh. exact Hc.
Qed.

End NeverRuns.

End PayloadFacts.

Lemma repeat_no_lf n : GuestLogic.no_lf (repeat "a"%char n) = true.
Proof. induction n; simpl; auto. Qed.

Lemma repeat_is_text n : is_text (repeat "a"%char n) = true.
Proof. induction n; simpl; auto. Qed.

(** C2, as the specification has it, fails: a command over the payload
    bound whose directive is EXIT is answered as EXIT, with return code
    "0" and status BYE, not with return code "1" and status READY. *)
Lemma oversize_exit_is_answered_as_exit :
  let r := Guest.tick idle_shell 100 oversize_exit_world in
  command_for_tick (Guest.files oversize_exit_world) = Some oversize_exit
  /\ Z.of_nat (length oversize_exit) > Guest.MAX_PAYLOAD
  /\ Guest.files (Guest.post r) !! Guest.RC_TXT <> Some (str "1" ++ crlf)
  /\ Guest.files (Guest.post r) !! Guest.STA_TXT <> Some (str "READY" ++ crlf).
Proof.
  assert (Hc : command_for_tick (Guest.files oversize_exit_world)
               = Some oversize_exit).
  { unfold command_for_tick, oversize_exit_world. cbn [Guest.files].
    rewrite lookup_singleton_eq. reflexivity. }
  assert (Hd : Guest.first_nonempty (fgets_all Guest.MAX_LINE oversize_exit)
               = Some (str "EXIT")).
  { unfold oversize_exit.
    rewrite (DirectiveFacts.fgets_all_first_line (str "EXIT"))
      by (reflexivity || (simpl; lia)).
    rewrite DirectiveFacts.first_nonempty_hit; [reflexivity | discriminate]. }
  destruct (GuestPaths.tick_exit_run idle_shell 100 oversize_exit_world
              oversize_exit (str "EXIT") eq_refl Hc Hd eq_refl eq_refl
              eq_refl eq_refl) as (_ & _ & Hrc & _ & Hsta).
  cbv zeta. split; [exact Hc |]. split.
  - unfold oversize_exit, Guest.MAX_PAYLOAD.
    rewrite length_app. cbn [length str list_ascii_of_string].
    rewrite repeat_length. lia.
  - rewrite Hrc, Hsta. split; discriminate.
Qed.

(** C2, amended. A command over the payload bound (32 KiB of text) never
    reaches the interpreter.  When moreover its directive is not EXIT or
    QUIT and the stop key is not pressed, the turn publishes a diagnostic
    output (a line that starts with ERROR: and a line that gives a value
    of [errno], whatever the failed calls left there), forces the return
    code "1", deletes the claimed command, leaves READY in the status slot
    and goes on with the loop.  The second part is stated of a directory
    in which the staging files can be opened and no rename is refused. *)
Theorem oversize_payload_is_refused
  (system : text -> gmap string text -> gmap string text * Z)
  (idle : Z) (w : Guest.World) (c : text) :
  command_for_tick (Guest.files w) = Some c ->
  is_text c = true ->
  Z.of_nat (length c) > Guest.MAX_PAYLOAD ->
  let r := Guest.tick system idle w in
  forallb GuestLogic.not_exec (Guest.evs r) = true
  /\ (esc_pending w = false ->
      GuestLogic.not_exit
        (Guest.first_nonempty (fgets_all Guest.MAX_LINE c)) ->
      Guest.can_write w Guest.STA_NEW = true ->
      Guest.can_write w Guest.OUT_NEW = true ->
      Guest.can_write w Guest.RC_NEW = true ->
      Guest.val r = Guest.Continue
      /\ (exists what e,
            Guest.files (Guest.post r) !! Guest.OUT_TXT
            = Some (GuestLogic.error_text what e))
      /\ Guest.files (Guest.post r) !! Guest.RC_TXT = Some (str "1" ++ crlf)
      /\ Guest.files (Guest.post r) !! Guest.CMD_RUN = None
      /\ Guest.files (Guest.post r) !! Guest.STA_TXT
         = Some (str "READY" ++ crlf)).
Proof.
  intros Hc Htxt Hover. cbv zeta. split.
  - apply PayloadFacts.oversize_never_runs with (c := c); assumption.
  - intros Hesc Hd Hsta Hout Hrc.
    destruct (GuestPaths.tick_command_run system idle w c Hesc Hc)
      as (fs1 & t1 & Hfs1 & _ & Htick).
    destruct (PayloadFacts.process_oversize_run system idle
                (GuestLogic.after_keys w) fs1 c Hfs1 Hd Htxt Hover
                Hsta Hout Hrc)
      as (fs2 & t2 & what & Hp & H1 & H2 & H3 & H4 & _).
    rewrite (Htick _ _ _ Hp). simpl.
    split; [reflexivity |].
    split; [exists what, (Guest.errno w); exact H1 |].
    auto.
Qed.

Lemma oversize_payload_is_refused_witness :
  let r := Guest.tick idle_shell 100 oversize_dir_world in
  forallb GuestLogic.not_exec (Guest.evs r) = true
  /\ Guest.val r = Guest.Continue
  /\ (exists what e,
        Guest.files (Guest.post r) !! Guest.OUT_TXT
        = Some (GuestLogic.error_text what e))
  /\ Guest.files (Guest.post r) !! Guest.RC_TXT = Some (str "1" ++ crlf)
  /\ Guest.files (Guest.post r) !! Guest.CMD_RUN = None
  /\ Guest.files (Guest.post r) !! Guest.STA_TXT = Some (str "READY" ++ crlf).
Proof.
  destruct (oversize_payload_is_refused idle_shell 100 oversize_dir_world
              oversize_dir) as [Hne Hrest].
  - unfold command_for_tick, oversize_dir_world. cbn [Guest.files].
    rewrite lookup_singleton_eq. reflexivity.
  - unfold oversize_dir, is_text. rewrite forallb_app. cbn [forallb].
    fold (is_text (repeat "a"%char (Z.to_nat 33000))).
    rewrite repeat_is_text. reflexivity.
  - unfold oversize_dir, Guest.MAX_PAYLOAD.
    rewrite length_app. cbn [length str list_ascii_of_string].
    rewrite repeat_length. lia.
  - split; [exact Hne |]. apply Hrest.
    + reflexivity.
    + unfold oversize_dir.
      rewrite (DirectiveFacts.fgets_all_first_line (str "dir"))
        by (reflexivity || (simpl; lia)).
      rewrite DirectiveFacts.first_nonempty_hit; [reflexivity | discriminate].
    + reflexivity.
    + reflexivity.
    + reflexivity.
Defined.

(* ===================================================================== *)
(** ** Publishing the results of a job *)
(* ===================================================================== *)

Module PublishFacts.
Import Chars Spec Guest GuestFacts DirectiveFacts GuestPaths
  PayloadFacts GuestLogic.

Lemma quiet_any {A} (m : M A) : quiet any m.
Proof. intros w. apply forallb_forall. reflexivity. Qed.

(** What holds of a file, or of the environment, holds after a
    computation that leaves it alone. *)
Lemma keep_file {A} (m : M A) p (Q : option text -> Prop) :
  stable (same_file p) m ->
  hoare any (fun w => Q (files w !! p)) m (fun _ w => Q (files w !! p)).
Proof.
  intros Hs w Hw. split; [| apply quiet_any].
  rewrite (Hs w). exact Hw.
Qed.

Lemma keep_can_write {A} (m : M A) p b :
  stable same_env m ->
  hoare any (fun w => can_write w p = b) m (fun _ w => can_write w p = b).
Proof.
  intros Hs w Hw. split; [| apply quiet_any].
  destruct (Hs w) as (H & _). rewrite H. exact Hw.
Qed.

Lemma hoare_conj P {A} (m : M A) Pre1 Pre2 (Post1 Post2 : A -> World -> Prop) :
  hoare P Pre1 m Post1 -> hoare P Pre2 m Post2 ->
  hoare P (fun w => Pre1 w /\ Pre2 w) m (fun a w => Post1 a w /\ Post2 a w).
Proof.
  intros H1 H2 w [Hw1 Hw2]. destruct (H1 w Hw1), (H2 w Hw2). auto.
Qed.


Lemma bind_assoc {A B C} (m : M A) (f : A -> M B) (g : B -> M C) w :
  bind (bind m f) g w = bind m (fun a => bind (f a) g) w.
Proof.
  unfold bind. cbn [val post evs]. rewrite app_assoc. reflexivity.
Qed.

Lemma post_bind {A B} (m : M A) (f : A -> M B) w :
  post (bind m f w) = post (f (val (m w)) (post (m w))).
Proof. reflexivity. Qed.


Lemma evs_bind {A B} (m : M A) (f : A -> M B) w :
  evs (bind m f w) = evs (m w) ++ evs (f (val (m w)) (post (m w))).
Proof. reflexivity. Qed.

Lemma bind_ext {A B} (m : M A) (f g : A -> M B) w :
  (forall a w', f a w' = g a w') -> bind m f w = bind m g w.
Proof. intros H. unfold bind. rewrite H. reflexivity. Qed.

Section Publish.

Variable system : text -> gmap string text -> gmap string text * Z.
Variable idle : Z.

Lemma publish_rc_staged w r :
  files w !! RC_NEW = Some r ->
  files (post (publish_rc w)) !! RC_TXT = Some r
  /\ evs (publish_rc w) = [EvRemove RC_TXT; EvRename RC_NEW RC_TXT].
Proof.
  intros H. rewrite <- (with_files_id w).
  assert (E : publish_rc (with_files (files w) w)
              = mkOut tt (with_files (<[RC_TXT := r]>
                            (delete RC_NEW (delete RC_TXT (files w)))) w)
                  ([] ++ [EvRemove RC_TXT] ++ [EvRename RC_NEW RC_TXT] ++ [])).
  { unfold publish_rc. step. rewrite H, present_some. cbv beta iota.
    step.
    step_with ltac:(eapply rename_run_ok; look; [exact H | reflexivity]).
    apply run_ret. }
  rewrite E. simpl. rewrite lookup_insert_eq. auto.
Qed.

Lemma publish_rc_fallback w :
  files w !! RC_NEW = None -> can_write w RC_TXT = true ->
  files (post (publish_rc w)) !! RC_TXT = Some (str "1" ++ crlf)
  /\ evs (publish_rc w) = [EvOpenW RC_TXT].
Proof.
  intros H Hw. rewrite <- (with_files_id w).
  assert (E : publish_rc (with_files (files w) w)
              = mkOut tt (with_files
                            (alter (fun old => old ++ str "1" ++ crlf) RC_TXT
                               (<[RC_TXT := []]> (files w))) w)
                  ([] ++ [EvOpenW RC_TXT] ++ [])).
  { unfold publish_rc. step. rewrite H, present_none. cbv beta iota.
    step_with ltac:(apply fopen_wt_run_ok; exact Hw).
    apply fprint_run. }
  rewrite E. simpl. rewrite lookup_alter_eq, lookup_insert_eq. auto.
Qed.

Lemma publish_results_halves sys_rc w :
  publish_results sys_rc w = (publish_out sys_rc >> publish_rc) w.
Proof.
  unfold publish_results, publish_out. fold publish_rc.
  symmetry. etransitivity; [apply bind_assoc |].
  apply bind_ext. intros _ w1.
  etransitivity; [apply bind_assoc |]. reflexivity.
Qed.

Lemma publish_out_keeps sys_rc p :
  p <> OUT_NEW -> p <> OUT_TXT -> p <> LOG_TXT ->
  stable (same_file p) (publish_out sys_rc).
Proof.
  intros H1 H2 H3. unfold publish_out.
  repeat
    lazymatch goal with
    | |- stable _ (ret _) => apply stable_ret; typeclasses eauto
    | |- stable _ (bind _ _) =>
        apply stable_bind; [typeclasses eauto | | intros ?]
    | |- stable _ (file_exists _) => apply same_file_file_exists
    | |- stable _ (remove _) => apply same_file_remove; assumption
    | |- stable _ (rename _ _) => apply same_file_rename; assumption
    | |- stable _ (fopen_wt _) => apply same_file_fopen_wt; assumption
    | |- stable _ (fprint _ _) => apply same_file_fprint; assumption
    | |- stable _ (log_line _) => apply same_file_log_line; assumption
    | |- stable _ (ask _) => apply stable_ask; typeclasses eauto
    | |- stable _ (match ?x with _ => _ end) => destruct x
    end.
Qed.

Lemma publish_out_env sys_rc : stable same_env (publish_out sys_rc).
Proof.
  unfold publish_out, log_line, fopen_at, fopen_wt, fprint, rename, remove,
    file_exists.
  compose_with env_leaf.
Qed.

(** After [publish_results] the return-code slot holds the staged code,
    or "1" when the job staged none. *)
Lemma publish_results_staged sys_rc w r :
  files w !! RC_NEW = Some r ->
  files (post (publish_results sys_rc w)) !! RC_TXT = Some r.
Proof.
  intros H. rewrite publish_results_halves, post_bind.
  apply publish_rc_staged.
  pose proof (publish_out_keeps sys_rc RC_NEW ltac:(discriminate)
                ltac:(discriminate) ltac:(discriminate) w) as Hk.
  unfold same_file in Hk. rewrite Hk. exact H.
Qed.

Lemma publish_results_fallback sys_rc w :
  files w !! RC_NEW = None -> can_write w RC_TXT = true ->
  files (post (publish_results sys_rc w)) !! RC_TXT = Some (str "1" ++ crlf).
Proof.
  intros H Hw. rewrite publish_results_halves, post_bind.
  apply publish_rc_fallback.
  - pose proof (publish_out_keeps sys_rc RC_NEW ltac:(discriminate)
                  ltac:(discriminate) ltac:(discriminate) w) as Hk.
    unfold same_file in Hk. rewrite Hk. exact H.
  - destruct (publish_out_env sys_rc w) as (E & _). rewrite E. exact Hw.
Qed.

Lemma publish_results_present sys_rc :
  hoare any (fun w => can_write w RC_TXT = true) (publish_results sys_rc)
        (fun _ w => is_Some (files w !! RC_TXT)).
Proof.
  intros w Hw. split; [| apply quiet_any].
  destruct (files w !! RC_NEW) as [r|] eqn:E.
  - rewrite (publish_results_staged sys_rc w r E). eauto.
  - rewrite (publish_results_fallback sys_rc w E Hw). eauto.
Qed.

(** The part of [process_cmd_run] that runs the job ends with the
    return-code slot present. *)
Lemma job_publishes_rc n :
  hoare any (fun w => can_write w RC_TXT = true)
    (log_line (str "Executing job (payload=" ++ fmt_d n ++ str " bytes)") >>
     remove OUT_TXT >>
     remove RC_TXT >>
     let* sys_rc := exec_job_to_out system in
     log_line (str "system() rc=" ++ fmt_d sys_rc) >>
     publish_results sys_rc >>
     remove CMD_RUN >>
     set_status (str "READY") >>
     ms_sleep (to_unsigned idle) >>
     ret Continue)
    (fun _ w => is_Some (files w !! RC_TXT)).
Proof.
  apply hoare_bind with (Mid := fun _ w => can_write w RC_TXT = true);
    [apply keep_can_write, same_env_log_line | intros _].
  apply hoare_bind with (Mid := fun _ w => can_write w RC_TXT = true);
    [apply keep_can_write, same_env_remove | intros _].
  apply hoare_bind with (Mid := fun _ w => can_write w RC_TXT = true);
    [apply keep_can_write, same_env_remove | intros _].
  apply hoare_bind with (Mid := fun _ w => can_write w RC_TXT = true);
    [apply keep_can_write, same_env_exec_job_to_out | intros sys_rc].
  apply hoare_bind with (Mid := fun _ w => can_write w RC_TXT = true);
    [apply keep_can_write, same_env_log_line | intros _].
  apply hoare_bind with (Mid := fun _ w => is_Some (files w !! RC_TXT));
    [apply publish_results_present | intros _].
  apply hoare_bind with (Mid := fun _ w => is_Some (files w !! RC_TXT));
    [apply (keep_file _ RC_TXT is_Some), same_file_remove; discriminate
    | intros _].
  apply hoare_bind with (Mid := fun _ w => is_Some (files w !! RC_TXT));
    [apply (keep_file _ RC_TXT is_Some), same_file_set_status; discriminate
    | intros _].
  apply hoare_bind with (Mid := fun _ w => is_Some (files w !! RC_TXT));
    [apply (keep_file _ RC_TXT is_Some), same_file_ms_sleep | intros _].
  intros w Hw. split; [exact Hw | reflexivity].
Qed.

Lemma runs_with_rc_quiet {A} (m : M A) : quiet not_exec m -> runs_with_rc m.
Proof. intros H w _. left. apply H. Qed.

Lemma runs_with_rc_bind {A B} (m : M A) (f : A -> M B) :
  quiet not_exec m -> stable same_env m ->
  (forall a, runs_with_rc (f a)) -> runs_with_rc (bind m f).
Proof.
  intros Hq Hs Hf w Hw. rewrite evs_bind, post_bind, forallb_app, Hq.
  apply Hf. destruct (Hs w) as (E & _). rewrite E. exact Hw.
Qed.

Lemma process_runs_with_rc : runs_with_rc (process_cmd_run system idle).
Proof.
  unfold process_cmd_run.
  apply runs_with_rc_bind;
    [apply quiet_set_status, basic_not_exec | apply same_env_set_status |].
  intros _.
  apply runs_with_rc_bind;
    [apply quiet_read_first_nonempty_line, basic_not_exec
    | unfold read_first_nonempty_line, fopen_rt; compose_with env_leaf |].
  intros [d|].
  - destruct (is_exit_cmd d).
    + apply runs_with_rc_quiet. quiet_calls basic_not_exec.
    + apply runs_with_rc_bind;
        [apply quiet_build_job_bat_from_cmd, basic_not_exec
        | apply same_env_build_job_bat_from_cmd |].
      intros [[|] n]; cbn [fst snd].
      * intros w Hw. right. apply (job_publishes_rc n w Hw).
      * apply runs_with_rc_quiet. quiet_calls basic_not_exec.
  - apply runs_with_rc_quiet. quiet_calls basic_not_exec.
Qed.

Lemma tick_runs_with_rc : runs_with_rc (tick system idle).
Proof.
  intros w Hw. rewrite tick_unfold.
  assert (Hw' : can_write (after_keys w) RC_TXT = true) by exact Hw.
  destruct (esc_pending w).
  - left. assert (Hq : quiet not_exec esc_branch)
      by (unfold esc_branch; quiet_calls basic_not_exec).
    apply Hq.
  - revert Hw'. generalize (after_keys w). unfold cmd_branch.
    apply runs_with_rc_bind;
      [apply quiet_claim_pending, basic_not_exec
      | apply same_env_claim_pending |].
    intros _.
    apply runs_with_rc_bind;
      [apply quiet_file_exists
      | unfold file_exists; compose_with env_leaf |].
    intros [|].
    + apply process_runs_with_rc.
    + apply runs_with_rc_quiet. quiet_calls basic_not_exec.
Qed.

Lemma ran_and_quiet t :
  existsb is_exec t = true -> forallb not_exec t = true -> False.
Proof.
  induction t as [|e t IH]; simpl; [discriminate|].
  unfold not_exec at 1. destruct (is_exec e); simpl; [discriminate | exact IH].
Qed.

End Publish.

End PublishFacts.

(* ===================================================================== *)
(** ** The guest server when a rename is refused *)
(* ===================================================================== *)

Module RefusalFacts.
Import Chars Spec Guest GuestLogic GuestFacts DirectiveFacts GuestPaths
  PayloadFacts PublishFacts RefusalLogic.

(** With no refusal the functions are those of [Guest]. *)
Lemma tick_never system idle :
  Refusal.tick Refusal.never system idle = Guest.tick system idle.
Proof. reflexivity. Qed.

Lemma publish_results_never sys_rc :
  Refusal.publish_results Refusal.never sys_rc = Guest.publish_results sys_rc.
Proof. reflexivity. Qed.

Lemma write_text_atomic_never temp final txt :
  Refusal.write_text_atomic Refusal.never temp final txt
  = Guest.write_text_atomic temp final txt.
Proof. reflexivity. Qed.

Section Directory.

Variable refused : string -> string -> bool.

(** *** The rename *)

Lemma rename_allowed a b :
  refused a b = false -> Refusal.rename refused a b = rename a b.
Proof. intros H. unfold Refusal.rename. rewrite H. reflexivity. Qed.

Lemma rename_run_refused w fs a b :
  refused a b = true ->
  Refusal.rename refused a b (with_files fs w)
  = mkOut (-1) (with_files fs w) [EvRename a b].
Proof. intros H. unfold Refusal.rename. rewrite H. reflexivity. Qed.

Lemma rename_run_allowed w fs a b c :
  refused a b = false -> fs !! a = Some c -> fs !! b = None ->
  Refusal.rename refused a b (with_files fs w)
  = mkOut 0 (with_files (<[b := c]> (delete a fs)) w) [EvRename a b].
Proof.
  intros H Ha Hb. rewrite (rename_allowed a b H). apply rename_run_ok; assumption.
Qed.

(** In a directory that refuses none of the renames of the server, a
    turn is the turn of [Guest]. *)
Lemma claim_tries_allowed n :
  moves refused -> Refusal.claim_tries refused n = claim_tries n.
Proof.
  intros (H1 & _). induction n as [|n IH]; [reflexivity |].
  cbn [Refusal.claim_tries claim_tries].
  rewrite (rename_allowed _ _ H1), IH. reflexivity.
Qed.

Lemma tick_allowed system idle :
  moves refused -> Refusal.tick refused system idle = tick system idle.
Proof.
  intros Hm. pose proof (fun n => claim_tries_allowed n Hm) as Hc.
  destruct Hm as (H1 & H2 & H3 & H4).
  unfold Refusal.tick, Refusal.claim_pending, Refusal.claim_cmd,
    Refusal.process_cmd_run, Refusal.set_status, Refusal.write_error_output,
    Refusal.publish_results, Refusal.write_text_atomic.
  rewrite Hc.
  rewrite (rename_allowed _ _ H2), (rename_allowed _ _ H3),
    (rename_allowed _ _ H4).
  reflexivity.
Qed.

(** *** The calls each function makes *)

Section Quiet.

Variable P : Event -> bool.
Hypothesis P_basic : forall e, basic e = true -> P e = true.

Lemma quiet_rename_refusing a b : quiet P (Refusal.rename refused a b).
Proof.
  unfold Refusal.rename. destruct (refused a b).
  - apply quiet_bind; [| intros ?; apply quiet_ret].
    apply quiet_emit, P_basic. reflexivity.
  - apply GuestFacts.quiet_rename, P_basic.
Qed.

Ltac refusal_leaf :=
  idtac; lazymatch goal with
  | |- quiet _ (file_exists _) => apply quiet_file_exists
  | |- quiet _ (remove _) => apply quiet_remove; exact P_basic
  | |- quiet _ (Refusal.rename _ _ _) => apply quiet_rename_refusing
  | |- quiet _ (fprint _ _) => apply quiet_fprint
  | |- quiet _ (ms_sleep _) => apply quiet_ms_sleep; exact P_basic
  | |- quiet _ (log_line _) => apply quiet_log_line; exact P_basic
  | |- quiet _ (fopen_wt _) => apply quiet_fopen_wt; [exact P_basic | reflexivity]
  | |- quiet _ (ask _) => apply quiet_ask
  end.

Lemma quiet_write_text_atomic_refusing temp final txt :
  Spec.published temp = false ->
  quiet P (Refusal.write_text_atomic refused temp final txt).
Proof.
  intros Hp. unfold Refusal.write_text_atomic.
  apply quiet_bind; [refusal_leaf | intros ?].
  apply quiet_bind; [apply quiet_fopen_wt; [exact P_basic | exact Hp] | intros ?].
  compose_with refusal_leaf.
Qed.

Lemma quiet_set_status_refusing st : quiet P (Refusal.set_status refused st).
Proof.
  unfold Refusal.set_status.
  apply quiet_bind; [apply quiet_write_text_atomic_refusing; reflexivity | intros ?].
  compose_with refusal_leaf.
Qed.

Lemma quiet_claim_tries_refusing n : quiet P (Refusal.claim_tries refused n).
Proof.
  induction n as [|n IH]; simpl; compose_with refusal_leaf. exact IH.
Qed.

Lemma quiet_claim_pending_refusing : quiet P (Refusal.claim_pending refused).
Proof.
  unfold Refusal.claim_pending, Refusal.claim_cmd. compose_with refusal_leaf.
  all: try apply quiet_claim_tries_refusing.
Qed.

Lemma quiet_write_error_output_refusing what :
  quiet P (Refusal.write_error_output refused what).
Proof. unfold Refusal.write_error_output. compose_with refusal_leaf. Qed.

End Quiet.

(** The calls of a computation made of the functions of the server. *)
Ltac refusal_calls HP :=
  repeat
    lazymatch goal with
    | |- quiet _ (ret _) => apply quiet_ret
    | |- quiet _ (bind _ _) => apply quiet_bind; [| intros ?]
    | |- quiet _ (log_line _) => apply quiet_log_line; exact HP
    | |- quiet _ (Refusal.set_status _ _) => apply quiet_set_status_refusing; exact HP
    | |- quiet _ (remove _) => apply quiet_remove; exact HP
    | |- quiet _ (ms_sleep _) => apply quiet_ms_sleep; exact HP
    | |- quiet _ (file_exists _) => apply quiet_file_exists
    | |- quiet _ (Refusal.write_error_output _ _) =>
        apply quiet_write_error_output_refusing; exact HP
    | |- quiet _ (Refusal.write_text_atomic _ _ _ _) =>
        apply quiet_write_text_atomic_refusing; [exact HP | reflexivity]
    | |- quiet _ (Refusal.claim_pending _) =>
        apply quiet_claim_pending_refusing; exact HP
    | |- quiet _ kbhit => apply quiet_kbhit
    | |- quiet _ getch => apply quiet_getch
    | |- quiet _ (ask _) => apply quiet_ask
    | |- quiet _ (match ?x with _ => _ end) => destruct x
    end.

(** *** What each function leaves as it was *)

Ltac refusal_unfold :=
  unfold Refusal.claim_pending, Refusal.claim_cmd,
    Refusal.write_error_output, Refusal.publish_results, publish_out,
    publish_rc, Refusal.set_status, Refusal.write_text_atomic,
    Refusal.rename, log_line, kbhit, fputs, fprint, fopen_rt, fopen_at,
    fopen_wt, rename, remove, file_exists, ms_sleep.

Lemma same_env_claim_tries_refusing n : stable same_env (Refusal.claim_tries refused n).
Proof.
  induction n as [|n IH]; simpl; refusal_unfold; compose_with env_leaf.
  exact IH.
Qed.

Lemma same_env_claim_pending_refusing : stable same_env (Refusal.claim_pending refused).
Proof.
  refusal_unfold; compose_with env_leaf. all: apply same_env_claim_tries_refusing.
Qed.

Lemma same_env_set_status_refusing st : stable same_env (Refusal.set_status refused st).
Proof. refusal_unfold; compose_with env_leaf. Qed.

Lemma same_env_publish_out rc : stable same_env (publish_out refused rc).
Proof. refusal_unfold; compose_with env_leaf. Qed.

Section Files.

Variable p : string.

Lemma same_file_rename_refusing a b :
  p <> a -> p <> b -> stable (same_file p) (Refusal.rename refused a b).
Proof.
  intros Ha Hb. unfold Refusal.rename. destruct (refused a b).
  - intros w. reflexivity.
  - apply GuestFacts.same_file_rename; assumption.
Qed.

Ltac refusal_file_leaf :=
  idtac; lazymatch goal with
  | |- stable _ (file_exists _) => apply same_file_file_exists
  | |- stable _ (remove _) => apply same_file_remove; assumption
  | |- stable _ (Refusal.rename _ _ _) => apply same_file_rename_refusing; assumption
  | |- stable _ (fopen_wt _) => apply same_file_fopen_wt; assumption
  | |- stable _ (fprint _ _) => apply same_file_fprint; assumption
  | |- stable _ (log_line _) => apply same_file_log_line; assumption
  | |- stable _ (ask _) => apply stable_ask; typeclasses eauto
  end.

Lemma same_file_set_status_refusing st :
  p <> STA_NEW -> p <> STA_TXT -> p <> LOG_TXT ->
  stable (same_file p) (Refusal.set_status refused st).
Proof.
  intros H1 H2 H3. unfold Refusal.set_status, Refusal.write_text_atomic.
  compose_with refusal_file_leaf.
Qed.

Lemma publish_out_keeps_refusing sys_rc :
  p <> OUT_NEW -> p <> OUT_TXT -> p <> LOG_TXT ->
  stable (same_file p) (publish_out refused sys_rc).
Proof. intros H1 H2 H3. unfold publish_out. compose_with refusal_file_leaf. Qed.

Lemma publish_rc_keeps_refusing :
  p <> RC_NEW -> p <> RC_TXT -> p <> LOG_TXT ->
  stable (same_file p) (publish_rc refused).
Proof. intros H1 H2 H3. unfold publish_rc. compose_with refusal_file_leaf. Qed.

End Files.

(** *** [write_text_atomic] *)

Lemma write_text_atomic_allowed temp final txt :
  refused temp final = false ->
  Refusal.write_text_atomic refused temp final txt
  = write_text_atomic temp final txt.
Proof.
  intros H. unfold Refusal.write_text_atomic, write_text_atomic.
  rewrite (rename_allowed temp final H). reflexivity.
Qed.

Lemma write_text_atomic_refused_rename w fs temp final txt :
  can_write w temp = true -> temp <> final ->
  refused temp final = true ->
  exists fs',
    Refusal.write_text_atomic refused temp final txt (with_files fs w)
    = mkOut false (with_files fs' w)
        [EvRemove temp; EvOpenW temp; EvRemove final; EvRename temp final]
    /\ fs' !! temp = Some (txt ++ crlf)
    /\ fs' !! final = None
    /\ forall p, p <> temp -> p <> final -> fs' !! p = fs !! p.
Proof.
  intros Hw Hne Href. unfold Refusal.write_text_atomic.
  eexists. split; [| split; [| split]].
  - change [EvRemove temp; EvOpenW temp; EvRemove final; EvRename temp final]
      with ([EvRemove temp] ++ [EvOpenW temp] ++ [] ++ [] ++ [EvRemove final]
            ++ [EvRename temp final] ++ []).
    step.
    step_with ltac:(apply fopen_wt_run_ok; exact Hw).
    step. step. step.
    step_with ltac:(apply rename_run_refused; exact Href).
    apply run_ret.
  - rewrite lookup_delete_ne by congruence.
    rewrite !lookup_alter_eq, lookup_insert_eq. reflexivity.
  - apply lookup_delete_eq.
  - intros p H1 H2.
    rewrite lookup_delete_ne, !lookup_alter_ne, lookup_insert_ne,
      lookup_delete_ne by congruence.
    reflexivity.
Qed.

(** *** [publish_results] *)

Lemma publish_results_halves_refusing sys_rc w :
  Refusal.publish_results refused sys_rc w
  = (publish_out refused sys_rc >> publish_rc refused) w.
Proof.
  unfold Refusal.publish_results, publish_out. fold (publish_rc refused).
  symmetry. etransitivity; [apply bind_assoc |].
  apply bind_ext. intros _ w1.
  etransitivity; [apply bind_assoc |]. reflexivity.
Qed.

(** The output half, by cases on OUT.NEW and on the refusal. *)
Lemma publish_out_run w fs rc :
  can_write w OUT_NEW = true ->
  exists fs' t,
    publish_out refused rc (with_files fs w) = mkOut tt (with_files fs' w) t
    /\ fs' !! OUT_TXT
       = (if refused OUT_NEW OUT_TXT then None
          else Some (output_of rc (with_files fs w)))
    /\ fs' !! OUT_NEW
       = (if refused OUT_NEW OUT_TXT
          then Some (output_of rc (with_files fs w)) else None).
Proof.
  intros Hw. unfold publish_out, output_of. cbn [files with_files].
  destruct (fs !! OUT_NEW) as [o|] eqn:Ho;
    destruct (refused OUT_NEW OUT_TXT) eqn:Href.
  - eexists _, _. split; [| split].
    + step_with ltac:(eapply run_bind;
        [apply file_exists_run
        | rewrite Ho, present_some; cbv beta iota; apply run_ret]).
      step.
      step_with ltac:(apply rename_run_refused; exact Href).
      change (-1 =? 0) with false. cbv iota.
      step. apply log_line_run.
    + look. reflexivity.
    + look. exact Ho.
  - eexists _, _. split; [| split].
    + step_with ltac:(eapply run_bind;
        [apply file_exists_run
        | rewrite Ho, present_some; cbv beta iota; apply run_ret]).
      step.
      step_with ltac:(eapply rename_run_allowed; look;
                      [exact Href | exact Ho | reflexivity]).
      simpl. apply run_ret.
    + look. reflexivity.
    + look. reflexivity.
  - eexists _, _. split; [| split].
    + step_with ltac:(eapply run_bind;
        [apply file_exists_run
        | rewrite Ho, present_none; cbv beta iota;
          eapply run_bind;
            [apply fopen_wt_run_ok; exact Hw
            | cbv beta iota; apply fprint_run]]).
      step.
      step_with ltac:(apply rename_run_refused; exact Href).
      change (-1 =? 0) with false. cbv iota.
      step. apply log_line_run.
    + look. reflexivity.
    + look. rewrite lookup_alter_eq. look. reflexivity.
  - eexists _, _. split; [| split].
    + step_with ltac:(eapply run_bind;
        [apply file_exists_run
        | rewrite Ho, present_none; cbv beta iota;
          eapply run_bind;
            [apply fopen_wt_run_ok; exact Hw
            | cbv beta iota; apply fprint_run]]).
      step.
      step_with ltac:(eapply rename_run_allowed; look;
                      [exact Href | rewrite lookup_alter_eq; look; reflexivity
                      | reflexivity]).
      simpl. apply run_ret.
    + look. reflexivity.
    + look. reflexivity.
Qed.

(** The return-code half. *)
Lemma publish_rc_staged_refusing w r :
  files w !! RC_NEW = Some r ->
  files (post (publish_rc refused w)) !! RC_TXT
  = if refused RC_NEW RC_TXT then None else Some r.
Proof.
  intros H. rewrite <- (with_files_id w). unfold publish_rc.
  destruct (refused RC_NEW RC_TXT) eqn:Href.
  - erewrite run_bind; [| apply file_exists_run |].
    2:{ rewrite H, present_some. cbv beta iota.
        eapply run_bind; [apply remove_run | cbv beta].
        eapply run_bind; [apply rename_run_refused; exact Href |].
        cbv beta iota. change (-1 =? 0) with false. cbv iota.
        eapply run_bind; [apply ask_run | cbv beta; apply log_line_run]. }
    cbn [post files with_files]. look. reflexivity.
  - erewrite run_bind; [| apply file_exists_run |].
    2:{ rewrite H, present_some. cbv beta iota.
        eapply run_bind; [apply remove_run | cbv beta].
        eapply run_bind;
          [eapply rename_run_allowed; look; [exact Href | exact H | reflexivity] |].
        cbv beta iota. apply run_ret. }
    cbn [post files with_files]. look. reflexivity.
Qed.

Lemma publish_rc_fallback_refusing w :
  files w !! RC_NEW = None -> can_write w RC_TXT = true ->
  files (post (publish_rc refused w)) !! RC_TXT = Some (str "1" ++ crlf).
Proof.
  intros H Hw. rewrite <- (with_files_id w). unfold publish_rc.
  erewrite run_bind; [| apply file_exists_run |].
  2:{ rewrite H, present_none. cbv beta iota.
      eapply run_bind; [apply fopen_wt_run_ok; exact Hw |].
      cbv beta iota. apply fprint_run. }
  cbn [post files with_files]. rewrite lookup_alter_eq, lookup_insert_eq.
  reflexivity.
Qed.

Lemma publish_results_staged_refusing sys_rc w r :
  files w !! RC_NEW = Some r ->
  files (post (Refusal.publish_results refused sys_rc w)) !! RC_TXT
  = if refused RC_NEW RC_TXT then None else Some r.
Proof.
  intros H. rewrite publish_results_halves_refusing, post_bind.
  apply publish_rc_staged_refusing.
  pose proof (publish_out_keeps_refusing RC_NEW sys_rc ltac:(discriminate)
                ltac:(discriminate) ltac:(discriminate) w) as Hk.
  unfold same_file in Hk. rewrite Hk. exact H.
Qed.

Lemma publish_results_fallback_refusing sys_rc w :
  files w !! RC_NEW = None -> can_write w RC_TXT = true ->
  files (post (Refusal.publish_results refused sys_rc w)) !! RC_TXT
  = Some (str "1" ++ crlf).
Proof.
  intros H Hw. rewrite publish_results_halves_refusing, post_bind.
  apply publish_rc_fallback_refusing.
  - pose proof (publish_out_keeps_refusing RC_NEW sys_rc ltac:(discriminate)
                  ltac:(discriminate) ltac:(discriminate) w) as Hk.
    unfold same_file in Hk. rewrite Hk. exact H.
  - destruct (same_env_publish_out sys_rc w) as (E & _). rewrite E. exact Hw.
Qed.

Lemma publish_results_out_refusing sys_rc w fs' t :
  publish_out refused sys_rc w = mkOut tt (with_files fs' w) t ->
  files (post (Refusal.publish_results refused sys_rc w)) !! OUT_TXT
  = fs' !! OUT_TXT
  /\ files (post (Refusal.publish_results refused sys_rc w)) !! OUT_NEW
     = fs' !! OUT_NEW.
Proof.
  intros H. rewrite publish_results_halves_refusing, post_bind, H.
  cbn [val post].
  split.
  - rewrite (publish_rc_keeps_refusing OUT_TXT ltac:(discriminate) ltac:(discriminate)
               ltac:(discriminate) (with_files fs' w)).
    reflexivity.
  - rewrite (publish_rc_keeps_refusing OUT_NEW ltac:(discriminate) ltac:(discriminate)
               ltac:(discriminate) (with_files fs' w)).
    reflexivity.
Qed.

(** *** A turn in which the interpreter is called *)

Section Turn.

Variable system : text -> gmap string text -> gmap string text * Z.
Variable idle : Z.
Hypothesis rc_moves : refused RC_NEW RC_TXT = false.

Lemma publish_results_present_refusing sys_rc :
  hoare any (fun w => can_write w RC_TXT = true)
    (Refusal.publish_results refused sys_rc)
    (fun _ w => is_Some (files w !! RC_TXT)).
Proof.
  intros w Hw. split; [| apply quiet_any].
  destruct (files w !! RC_NEW) as [r|] eqn:E.
  - rewrite (publish_results_staged_refusing sys_rc w r E), rc_moves. eauto.
  - rewrite (publish_results_fallback_refusing sys_rc w E Hw). eauto.
Qed.

Lemma job_publishes_rc_refusing n :
  hoare any (fun w => can_write w RC_TXT = true)
    (log_line (str "Executing job (payload=" ++ fmt_d n ++ str " bytes)") >>
     remove OUT_TXT >>
     remove RC_TXT >>
     let* sys_rc := exec_job_to_out system in
     log_line (str "system() rc=" ++ fmt_d sys_rc) >>
     Refusal.publish_results refused sys_rc >>
     remove CMD_RUN >>
     Refusal.set_status refused (str "READY") >>
     ms_sleep (to_unsigned idle) >>
     ret Continue)
    (fun _ w => is_Some (files w !! RC_TXT)).
Proof.
  apply hoare_bind with (Mid := fun _ w => can_write w RC_TXT = true);
    [apply keep_can_write, same_env_log_line | intros _].
  apply hoare_bind with (Mid := fun _ w => can_write w RC_TXT = true);
    [apply keep_can_write, same_env_remove | intros _].
  apply hoare_bind with (Mid := fun _ w => can_write w RC_TXT = true);
    [apply keep_can_write, same_env_remove | intros _].
  apply hoare_bind with (Mid := fun _ w => can_write w RC_TXT = true);
    [apply keep_can_write, same_env_exec_job_to_out | intros sys_rc].
  apply hoare_bind with (Mid := fun _ w => can_write w RC_TXT = true);
    [apply keep_can_write, same_env_log_line | intros _].
  apply hoare_bind with (Mid := fun _ w => is_Some (files w !! RC_TXT));
    [apply publish_results_present_refusing | intros _].
  apply hoare_bind with (Mid := fun _ w => is_Some (files w !! RC_TXT));
    [apply (keep_file _ RC_TXT is_Some), same_file_remove; discriminate
    | intros _].
  apply hoare_bind with (Mid := fun _ w => is_Some (files w !! RC_TXT));
    [apply (keep_file _ RC_TXT is_Some), same_file_set_status_refusing; discriminate
    | intros _].
  apply hoare_bind with (Mid := fun _ w => is_Some (files w !! RC_TXT));
    [apply (keep_file _ RC_TXT is_Some), same_file_ms_sleep | intros _].
  intros w Hw. split; [exact Hw | reflexivity].
Qed.

Lemma process_runs_with_rc_refusing :
  runs_with_rc (Refusal.process_cmd_run refused system idle).
Proof.
  unfold Refusal.process_cmd_run.
  apply runs_with_rc_bind;
    [apply quiet_set_status_refusing, basic_not_exec | apply same_env_set_status_refusing |].
  intros _.
  apply runs_with_rc_bind;
    [apply quiet_read_first_nonempty_line, basic_not_exec
    | unfold read_first_nonempty_line, fopen_rt; compose_with env_leaf |].
  intros [d|].
  - destruct (is_exit_cmd d).
    + apply runs_with_rc_quiet. refusal_calls basic_not_exec.
    + apply runs_with_rc_bind;
        [apply quiet_build_job_bat_from_cmd, basic_not_exec
        | apply same_env_build_job_bat_from_cmd |].
      intros [[|] n]; cbn [fst snd].
      * intros w Hw. right. apply (job_publishes_rc_refusing n w Hw).
      * apply runs_with_rc_quiet. refusal_calls basic_not_exec.
  - apply runs_with_rc_quiet. refusal_calls basic_not_exec.
Qed.

Lemma tick_runs_with_rc_refusing : runs_with_rc (Refusal.tick refused system idle).
Proof.
  unfold Refusal.tick.
  apply runs_with_rc_bind;
    [apply quiet_kbhit | apply stable_ask; typeclasses eauto |].
  intros hit.
  apply runs_with_rc_bind;
    [destruct hit; [apply quiet_getch | apply quiet_ret]
    | destruct hit; [apply same_env_getch | apply stable_ret; typeclasses eauto] |].
  intros ch.
  destruct (hit && (ch =? 27)).
  - apply runs_with_rc_quiet. refusal_calls basic_not_exec.
  - apply runs_with_rc_bind;
      [apply quiet_claim_pending_refusing, basic_not_exec
      | apply same_env_claim_pending_refusing |].
    intros _.
    apply runs_with_rc_bind;
      [apply quiet_file_exists
      | unfold file_exists; compose_with env_leaf |].
    intros [|].
    + apply process_runs_with_rc_refusing.
    + apply runs_with_rc_quiet. refusal_calls basic_not_exec.
Qed.

End Turn.

End Directory.

End RefusalFacts.

(** C10, as the specification has it, fails: when the rename of RC.NEW to
    RC.TXT is refused, [publish_results], which has removed RC.TXT before,
    leaves the return-code slot absent although the job staged a return
    code and no file failed to open; so does a whole turn in which the
    interpreter was called. *)
Lemma refused_rename_leaves_no_return_code :
  (forall p, Guest.can_write staged_rc_world p = true)
  /\ Guest.files staged_rc_world !! Guest.RC_NEW = Some (str "0 " ++ crlf)
  /\ Guest.files (Guest.post (Refusal.publish_results held_rc 0
                                staged_rc_world)) !! Guest.RC_TXT = None
  /\ (forall p, Guest.can_write echo_world p = true)
  /\ existsb is_exec
       (Guest.evs (Refusal.tick held_rc echo_shell 100 echo_world)) = true
  /\ Guest.files (Guest.post (Refusal.tick held_rc echo_shell 100
                                echo_world)) !! Guest.RC_TXT = None.
Proof.
  split; [reflexivity |]. split; [reflexivity |].
  split; [vm_compute; reflexivity |]. split; [reflexivity |].
  split; vm_compute; reflexivity.
Qed.

(** C10, amended. [publish_results] leaves a return-code file unless a
    rename or an open fails: when the job staged a return code (RC.NEW),
    RC.TXT holds it afterwards if the rename of RC.NEW to RC.TXT is not
    refused, and is absent if it is; when the job staged none, RC.TXT
    holds "1", barring a failure to open RC.TXT.  A turn of the loop in
    which the interpreter was called therefore ends with the return-code
    slot present, provided RC.TXT can be opened and that rename is not
    refused. *)
Theorem completed_job_leaves_return_code
  (refused : string -> string -> bool)
  (system : text -> gmap string text -> gmap string text * Z)
  (idle sys_rc : Z) (w : Guest.World) :
  Guest.can_write w Guest.RC_TXT = true ->
  (forall r, Guest.files w !! Guest.RC_NEW = Some r ->
     Guest.files (Guest.post (Refusal.publish_results refused sys_rc w))
       !! Guest.RC_TXT
     = if refused Guest.RC_NEW Guest.RC_TXT then None else Some r)
  /\ (Guest.files w !! Guest.RC_NEW = None ->
      Guest.files (Guest.post (Refusal.publish_results refused sys_rc w))
        !! Guest.RC_TXT
      = Some (str "1" ++ crlf))
  /\ (refused Guest.RC_NEW Guest.RC_TXT = false ->
      existsb is_exec (Guest.evs (Refusal.tick refused system idle w)) = true ->
      is_Some (Guest.files (Guest.post (Refusal.tick refused system idle w))
               !! Guest.RC_TXT)).
Proof.
  intros Hw. split; [| split].
  - intros r Hr. apply RefusalFacts.publish_results_staged_refusing, Hr.
  - intros Hr. apply RefusalFacts.publish_results_fallback_refusing; assumption.
  - intros Hmoves Hran.
    destruct (RefusalFacts.tick_runs_with_rc_refusing refused system idle Hmoves w Hw)
      as [Hq|Hp].
    + destruct (PublishFacts.ran_and_quiet _ Hran Hq).
    + exact Hp.
Qed.

Lemma completed_job_leaves_return_code_witness :
  Guest.files (Guest.post (Refusal.publish_results Refusal.never (-1)
                             failed_job_world))
    !! Guest.RC_TXT = Some (str "1" ++ crlf)
  /\ is_Some (Guest.files (Guest.post (Refusal.tick Refusal.never
                                         failing_shell 100 failed_job_world))
              !! Guest.RC_TXT).
Proof.
  destruct (completed_job_leaves_return_code Refusal.never failing_shell 100
              (-1) failed_job_world eq_refl) as (_ & Hfallback & Hran).
  split.
  - apply Hfallback. reflexivity.
  - apply Hran; [reflexivity | vm_compute; reflexivity].
Defined.

(* ===================================================================== *)
(** ** A claimed command found at startup *)
(* ===================================================================== *)

Module RecoveryFacts.
Import Chars Spec Guest GuestFacts DirectiveFacts GuestPaths PayloadFacts
  PublishFacts GuestLogic.

#[export] Instance same_keys_preorder : PreOrder same_keys.
Proof.
  split.
  - intros w. reflexivity.
  - intros a b c H1 H2. unfold same_keys in *. congruence.
Qed.





Section Recovery.

Variable system : text -> gmap string text -> gmap string text * Z.
Variable idle : Z.
Variable c : text.






End Recovery.

End RecoveryFacts.



(* ===================================================================== *)
(** ** Reading a number: [scan_int] against the decimal notation *)
(* ===================================================================== *)

Module ScanFacts.
Import Chars Spec CharsFacts DirectiveFacts HostLogic.

#[local] Arguments Ascii.eqb : simpl never.

Lemma scan_digits_stop acc rest :
  no_digit_ahead rest = true -> scan_digits acc rest = (acc, rest).
Proof.
  destruct rest as [|c r]; simpl; [reflexivity|].
  intros H. apply negb_true_iff in H. rewrite H. reflexivity.
Qed.

Lemma scan_digits_cons acc c s :
  isdigit c = true ->
  scan_digits acc (c :: s) = scan_digits (10 * acc + digit_val c) s.
Proof. intros H. simpl. rewrite H. reflexivity. Qed.

Lemma scan_digits_acc u : forall acc rest,
  no_digit_ahead rest = true ->
  scan_digits (Z.pos acc) (digits u ++ rest)
  = (Z.pos (Pos.of_uint_acc u acc), rest).
Proof.
  induction u; intros acc rest Hr; [apply scan_digits_stop, Hr | ..];
    unfold digits;
    cbn [str NilEmpty.string_of_uint list_ascii_of_string app];
    rewrite scan_digits_cons by reflexivity;
    fold (str (NilEmpty.string_of_uint u)); fold (digits u);
    cbn [Pos.of_uint_acc];
    match goal with
    | |- scan_digits ?a _ = (Z.pos (Pos.of_uint_acc _ ?b), _) =>
        replace a with (Z.pos b) by (unfold digit_val, code; simpl; lia)
    end;
    apply IHu, Hr.
Qed.

Lemma scan_digits_uint u : forall rest,
  no_digit_ahead rest = true ->
  scan_digits 0 (digits u ++ rest) = (Z.of_N (Pos.of_uint u), rest).
Proof.
  induction u; intros rest Hr; [apply scan_digits_stop, Hr | ..];
    unfold digits;
    cbn [str NilEmpty.string_of_uint list_ascii_of_string app];
    rewrite scan_digits_cons by reflexivity;
    fold (str (NilEmpty.string_of_uint u)); fold (digits u);
    cbn [Pos.of_uint];
    first
      [ match goal with
        | |- scan_digits ?a _ = (Z.of_N (N.pos (Pos.of_uint_acc _ ?b)), _) =>
            replace a with (Z.pos b) by reflexivity
        end;
        apply scan_digits_acc, Hr
      | apply IHu, Hr ].
Qed.

(** A digit is neither white space nor a sign. *)
Lemma digit_not_space c : isdigit c = true -> isspace c = false.
Proof.
  unfold isdigit, isspace. intros H.
  apply andb_true_iff in H as [H1 H2].
  apply Z.leb_le in H1, H2.
  apply orb_false_iff. split.
  - apply Z.eqb_neq. lia.
  - apply andb_false_iff. right. apply Z.leb_gt. lia.
Qed.

Lemma digit_not_char c (s : ascii) :
  isdigit c = true -> isdigit s = false -> Ascii.eqb c s = false.
Proof.
  intros Hc Hs. destruct (Ascii.eqb_spec c s) as [->|]; [congruence | reflexivity].
Qed.

Lemma scan_int_digit c tl :
  isdigit c = true ->
  scan_int (c :: tl) = Some (fst (scan_digits 0 (c :: tl))).
Proof.
  intros H. unfold scan_int.
  rewrite skip_while_stop by (apply digit_not_space, H).
  rewrite (digit_not_char c "-"%char H eq_refl).
  rewrite (digit_not_char c "+"%char H eq_refl).
  rewrite H. reflexivity.
Qed.

Lemma scan_int_minus c tl :
  isdigit c = true ->
  scan_int ("-"%char :: c :: tl) = Some (- fst (scan_digits 0 (c :: tl))).
Proof.
  intros H. unfold scan_int.
  rewrite skip_while_stop by reflexivity.
  change (Ascii.eqb "-" "-") with true. cbv iota. rewrite H. reflexivity.
Qed.

Lemma digits_head u :
  u <> Decimal.Nil ->
  exists c tl, digits u = c :: tl /\ isdigit c = true.
Proof.
  destruct u; [congruence | ..]; intros _; eexists _, _;
    (split; [reflexivity | reflexivity]).
Qed.

Lemma scan_int_uint u rest :
  u <> Decimal.Nil -> no_digit_ahead rest = true ->
  scan_int (digits u ++ rest) = Some (Z.of_N (Pos.of_uint u)).
Proof.
  intros Hu Hr. destruct (digits_head u Hu) as (c & tl & E & Hc).
  pose proof (scan_digits_uint u rest Hr) as Hs.
  rewrite E in *. simpl app in *.
  rewrite scan_int_digit by exact Hc. rewrite Hs. reflexivity.
Qed.

Lemma scan_int_neg_uint u rest :
  u <> Decimal.Nil -> no_digit_ahead rest = true ->
  scan_int ("-"%char :: digits u ++ rest) = Some (- Z.of_N (Pos.of_uint u)).
Proof.
  intros Hu Hr. destruct (digits_head u Hu) as (c & tl & E & Hc).
  pose proof (scan_digits_uint u rest Hr) as Hs.
  rewrite E in *. simpl app in *.
  rewrite scan_int_minus by exact Hc. rewrite Hs. reflexivity.
Qed.

Lemma digits_nonnil u :
  u <> Decimal.Nil -> str (NilZero.string_of_uint u) = digits u.
Proof. destruct u; [congruence | reflexivity..]. Qed.

(** The number [printf] writes is the number [scan_int] reads. *)
Lemma scan_int_fmt_d z rest :
  no_digit_ahead rest = true -> scan_int (fmt_d z ++ rest) = Some z.
Proof.
  intros Hr. unfold fmt_d. destruct z as [|p|p]; unfold Z.to_int.
  - change (str (NilZero.string_of_int (Decimal.Pos Decimal.zero)))
      with (digits (Decimal.D0 Decimal.Nil)).
    rewrite scan_int_uint by (auto; discriminate). reflexivity.
  - pose proof (DecimalPos.Unsigned.to_uint_nonnil p) as Hn.
    change (str (NilZero.string_of_int (Decimal.Pos (Pos.to_uint p))))
      with (str (NilZero.string_of_uint (Pos.to_uint p))).
    rewrite digits_nonnil by exact Hn.
    rewrite scan_int_uint by auto.
    rewrite DecimalPos.Unsigned.of_to. reflexivity.
  - pose proof (DecimalPos.Unsigned.to_uint_nonnil p) as Hn.
    change (str (NilZero.string_of_int (Decimal.Neg (Pos.to_uint p))))
      with ("-"%char :: str (NilZero.string_of_uint (Pos.to_uint p))).
    rewrite digits_nonnil by exact Hn. simpl app. rewrite scan_int_neg_uint by auto.
    rewrite DecimalPos.Unsigned.of_to. reflexivity.
Qed.

Lemma scan_int_skips ws s :
  forallb isspace ws = true -> scan_int (ws ++ s) = scan_int s.
Proof.
  intros H. unfold scan_int. rewrite skip_while_app_all by exact H.
  reflexivity.
Qed.

Lemma scan_int_none rest :
  no_number_ahead rest = true -> scan_int rest = None.
Proof.
  destruct rest as [|c r]; [reflexivity|].
  unfold no_number_ahead. intros H.
  apply andb_true_iff in H as [H H3]. apply andb_true_iff in H as [H1 H2].
  apply negb_true_iff in H1, H2, H3.
  unfold scan_int. rewrite skip_while_stop by exact H1.
  destruct (Ascii.eqb c "-") eqn:Em; [| destruct (Ascii.eqb c "+") eqn:Ep].
  - simpl in H3. apply negb_false_iff in H3.
    destruct r as [|d r]; [reflexivity|]. simpl in H3.
    apply negb_true_iff in H3. rewrite H3. reflexivity.
  - simpl in H3. apply negb_false_iff in H3.
    destruct r as [|d r]; [reflexivity|]. simpl in H3.
    apply negb_true_iff in H3. rewrite H3. reflexivity.
  - rewrite H2. reflexivity.
Qed.

(** *** Line breaks turned into spaces *)

Import Host.

Lemma blank_breaks_space c : isspace (blank_breaks c) = isspace c.
Proof.
  unfold blank_breaks.
  destruct (Ascii.eqb_spec c CR) as [->|]; [reflexivity|].
  destruct (Ascii.eqb_spec c LF) as [->|]; [reflexivity|].
  destruct (Ascii.eqb_spec c TAB) as [->|]; reflexivity.
Qed.

Lemma blank_breaks_digit c : isdigit (blank_breaks c) = isdigit c.
Proof.
  unfold blank_breaks.
  destruct (Ascii.eqb_spec c CR) as [->|]; [reflexivity|].
  destruct (Ascii.eqb_spec c LF) as [->|]; [reflexivity|].
  destruct (Ascii.eqb_spec c TAB) as [->|]; reflexivity.
Qed.

Lemma blank_breaks_not_space c : isspace c = false -> blank_breaks c = c.
Proof.
  unfold blank_breaks. intros H.
  destruct (Ascii.eqb_spec c CR) as [->|]; [discriminate H|].
  destruct (Ascii.eqb_spec c LF) as [->|]; [discriminate H|].
  destruct (Ascii.eqb_spec c TAB) as [->|]; [discriminate H | reflexivity].
Qed.

Lemma map_blank_breaks_space ws :
  forallb isspace ws = true -> forallb isspace (map blank_breaks ws) = true.
Proof.
  induction ws as [|c ws IH]; simpl; [reflexivity|].
  rewrite blank_breaks_space. intros H.
  apply andb_true_iff in H as [-> H]. auto.
Qed.

Lemma map_blank_breaks_no_digit rest :
  no_digit_ahead (map blank_breaks rest) = no_digit_ahead rest.
Proof. destruct rest; simpl; [reflexivity|]. rewrite blank_breaks_digit. reflexivity. Qed.

Lemma map_blank_breaks_no_number rest :
  no_number_ahead rest = true ->
  no_number_ahead (map blank_breaks rest) = true.
Proof.
  destruct rest as [|c r]; [reflexivity|]. simpl.
  rewrite map_blank_breaks_no_digit, blank_breaks_space, blank_breaks_digit.
  intros H. destruct (isspace c) eqn:E; [discriminate H|].
  rewrite (blank_breaks_not_space c E). exact H.
Qed.

Lemma digits_plain u : map blank_breaks (digits u) = digits u.
Proof.
  induction u; [reflexivity | ..]; unfold digits in *;
    cbn [str NilEmpty.string_of_uint list_ascii_of_string map];
    fold (str (NilEmpty.string_of_uint u)); rewrite IHu; reflexivity.
Qed.

Lemma fmt_d_plain z : map blank_breaks (fmt_d z) = fmt_d z.
Proof.
  unfold fmt_d. destruct z as [|p|p]; unfold Z.to_int.
  - reflexivity.
  - change (str (NilZero.string_of_int (Decimal.Pos (Pos.to_uint p))))
      with (str (NilZero.string_of_uint (Pos.to_uint p))).
    rewrite digits_nonnil by apply DecimalPos.Unsigned.to_uint_nonnil.
    apply digits_plain.
  - change (str (NilZero.string_of_int (Decimal.Neg (Pos.to_uint p))))
      with ("-"%char :: str (NilZero.string_of_uint (Pos.to_uint p))).
    rewrite digits_nonnil by apply DecimalPos.Unsigned.to_uint_nonnil.
    simpl map. rewrite digits_plain. reflexivity.
Qed.

End ScanFacts.

(** C6. [parseReturnCode] skips white space, carriage returns, line
    feeds and tabs before the number, reads the first decimal integer
    ([z], as [printf] writes it) and ignores whatever follows it; the
    result is absent when the integer does not fit an [int], and when the
    content holds no integer at its head. *)
Theorem return_code_is_first_integer (ws rest : text) (z : Z) :
  forallb isspace ws = true ->
  (HostLogic.no_digit_ahead rest = true ->
   Host.parseReturnCode (ws ++ fmt_d z ++ rest)
   = if (INT_MIN <=? z) && (z <=? INT_MAX) then Some z else None)
  /\ (HostLogic.no_number_ahead rest = true ->
      Host.parseReturnCode (ws ++ rest) = None).
Proof.
  intros Hws. unfold Host.parseReturnCode, Host.extract_int. split.
  - intros Hr. rewrite !map_app, ScanFacts.fmt_d_plain.
    rewrite ScanFacts.scan_int_skips
      by (apply ScanFacts.map_blank_breaks_space, Hws).
    rewrite ScanFacts.scan_int_fmt_d
      by (rewrite ScanFacts.map_blank_breaks_no_digit; exact Hr).
    reflexivity.
  - intros Hr. rewrite map_app.
    rewrite ScanFacts.scan_int_skips
      by (apply ScanFacts.map_blank_breaks_space, Hws).
    rewrite ScanFacts.scan_int_none
      by (apply ScanFacts.map_blank_breaks_no_number, Hr).
    reflexivity.
Qed.

Lemma return_code_is_first_integer_witness :
  Host.parseReturnCode (str " " ++ crlf ++ fmt_d 3 ++ str " " ++ crlf ++ str "7")
  = Some 3
  /\ Host.parseReturnCode (crlf ++ str "ERRORLEVEL 3") = None.
Proof.
  destruct (return_code_is_first_integer (str " " ++ crlf)
              (str " " ++ crlf ++ str "7") 3 eq_refl) as [H1 _].
  destruct (return_code_is_first_integer crlf (str "ERRORLEVEL 3") 0 eq_refl)
    as [_ H2].
  split.
  - rewrite <- app_assoc in H1. apply H1. reflexivity.
  - apply H2. reflexivity.
Defined.


(* ===================================================================== *)
(** ** Facts about the host client *)
(* ===================================================================== *)

Module HostFacts.
Import Chars Spec Host HostLogic.

Lemma hbind_ok {A B} (m : HM A) (f : A -> HM B) t a t1 tr1 r2 :
  m t = Some (mkRes (inr a) t1 tr1) ->
  f a t1 = Some r2 ->
  hbind m f t = Some (mkRes (outcome r2) (now_after r2) (tr1 ++ trace r2)).
Proof. intros H1 H2. unfold hbind. rewrite H1. simpl. rewrite H2. reflexivity. Qed.

Lemma hbind_throw {A B} (m : HM A) (f : A -> HM B) t e t1 tr1 :
  m t = Some (mkRes (inl e) t1 tr1) ->
  hbind m f t = Some (mkRes (inl e) t1 tr1).
Proof. intros H1. unfold hbind. rewrite H1. reflexivity. Qed.

Lemma hbind_inv {A B} (m : HM A) (f : A -> HM B) t r :
  hbind m f t = Some r ->
  exists r1, m t = Some r1
    /\ ((exists e, outcome r1 = inl e
                   /\ r = mkRes (inl e) (now_after r1) (trace r1))
        \/ (exists a r2, outcome r1 = inr a
                         /\ f a (now_after r1) = Some r2
                         /\ r = mkRes (outcome r2) (now_after r2)
                                  (trace r1 ++ trace r2))).
Proof.
  unfold hbind. destruct (m t) as [r1|]; [| discriminate].
  intros H. exists r1. split; [reflexivity|].
  destruct (outcome r1) as [e|a] eqn:E.
  - left. exists e. injection H as <-. split; reflexivity.
  - right. destruct (f a (now_after r1)) as [r2|] eqn:E2; [| discriminate].
    exists a, r2. injection H as <-.
    split; [reflexivity | split; [exact E2 | reflexivity]].
Qed.

Lemma calls_hbind P {A B} (m : HM A) (f : A -> HM B) :
  calls P m -> (forall a, calls P (f a)) -> calls P (hbind m f).
Proof.
  intros Hm Hf t r H.
  destruct (hbind_inv m f t r H) as (r1 & H1 & [(e & _ & ->)|(a & r2 & _ & H2 & ->)]).
  - simpl. apply (Hm t r1 H1).
  - simpl. rewrite forallb_app, (Hm t r1 H1), (Hf a _ r2 H2). reflexivity.
Qed.

Lemma calls_hret P {A} (a : A) : calls P (hret a).
Proof. intros t r [= <-]. reflexivity. Qed.

Lemma calls_throw P {A} e : calls P (@throw A e).
Proof. intros t r [= <-]. reflexivity. Qed.

Lemma calls_spent P {A} : calls P (@spent A).
Proof. intros t r [=]. Qed.

Lemma calls_clock_now P : calls P clock_now.
Proof. intros t r [= <-]. reflexivity. Qed.

Lemma calls_say P e : P e = true -> calls P (say e).
Proof. intros H t r [= <-]. simpl. rewrite H. reflexivity. Qed.

Lemma calls_sleep_for P d : P (HSleep d) = true -> calls P (sleep_for d).
Proof. intros H t r [= <-]. simpl. rewrite H. reflexivity. Qed.

Ltac calls_with HP :=
  repeat
    lazymatch goal with
    | |- calls _ (hret _) => apply calls_hret
    | |- calls _ (throw _) => apply calls_throw
    | |- calls _ spent => apply calls_spent
    | |- calls _ clock_now => apply calls_clock_now
    | |- calls _ (hbind _ _) => apply calls_hbind; [| intros ?]
    | |- calls _ (say _) => apply calls_say; apply HP; reflexivity
    | |- calls _ (sleep_for _) => apply calls_sleep_for; apply HP; reflexivity
    | |- calls _ (match ?x with _ => _ end) => destruct x
    end.

Section Client.

Variable env : Env.
Variable P : HEvent -> bool.
Hypothesis P_passive : forall e, passive e = true -> P e = true.

Lemma calls_mtimeIfExists p : calls P (mtimeIfExists env p).
Proof. unfold mtimeIfExists. calls_with P_passive. Qed.

Lemma calls_readFileText p : calls P (readFileText env p).
Proof. unfold readFileText. calls_with P_passive. Qed.

Lemma calls_grace_loop fuel rc_before grace_end :
  calls P (grace_loop env fuel rc_before grace_end).
Proof.
  induction fuel as [|fuel IH]; simpl; [apply calls_spent|].
  calls_with P_passive.
  all: first [apply calls_mtimeIfExists | apply calls_readFileText | apply IH].
Qed.

Lemma calls_wait_loop fuel out_before rc_before start timeout poll :
  calls P (wait_loop env fuel out_before rc_before start timeout poll).
Proof.
  induction fuel as [|fuel IH]; simpl; [apply calls_spent|].
  calls_with P_passive.
  all: first [apply calls_mtimeIfExists | apply calls_readFileText
             | apply calls_grace_loop | apply IH].
Qed.

End Client.

(** *** The wait and the grace window *)

Section Wait.

Variable env : Env.
Variables out_before rc_before : option Z.

Lemma seen_out t : seen env out_txt t = out_at env t.
Proof. reflexivity. Qed.

Lemma seen_rc t : seen env rc_txt t = rc_at env t.
Proof. reflexivity. Qed.

Lemma mtimeIfExists_run p t :
  mtimeIfExists env p t
  = Some (mkRes (inr (fst <$> seen env p t)) t [HProbe p t]).
Proof. reflexivity. Qed.

Lemma readFileText_run p t mt c :
  seen env p t = Some (mt, c) ->
  readFileText env p t = Some (mkRes (inr c) t [HRead p t]).
Proof.
  intros H. unfold readFileText, hbind, clock_now, say. simpl. rewrite H.
  reflexivity.
Qed.

Lemma updated_present before (now : option (Z * text)) :
  updated before (fst <$> now) = true -> exists mt c, now = Some (mt, c).
Proof. destruct now as [[mt c]|]; simpl; [eauto | discriminate]. Qed.

(** One turn of the grace loop. *)
Lemma grace_loop_closed fuel grace_end t :
  grace_end <= t ->
  grace_loop env (S fuel) rc_before grace_end t = Some (mkRes (inr None) t []).
Proof.
  intros H. simpl. unfold hbind, clock_now. simpl.
  replace (t <? grace_end) with false by (symmetry; apply Z.ltb_ge; lia).
  reflexivity.
Qed.

Lemma grace_loop_hit fuel grace_end t mt c :
  t < grace_end -> rc_at env t = Some (mt, c) ->
  updated rc_before (fst <$> rc_at env t) = true ->
  grace_loop env (S fuel) rc_before grace_end t
  = Some (mkRes (inr (parseReturnCode c)) t [HProbe rc_txt t; HRead rc_txt t]).
Proof.
  intros H Hrc Hup. simpl. unfold hbind, clock_now. simpl.
  replace (t <? grace_end) with true by (symmetry; apply Z.ltb_lt; lia).
  rewrite seen_rc, Hup.
  rewrite (readFileText_run rc_txt t mt c) by (rewrite seen_rc; exact Hrc).
  reflexivity.
Qed.

Lemma grace_loop_miss fuel grace_end t r :
  t < grace_end ->
  updated rc_before (fst <$> rc_at env t) = false ->
  grace_loop env fuel rc_before grace_end (t + 20) = Some r ->
  grace_loop env (S fuel) rc_before grace_end t
  = Some (mkRes (outcome r) (now_after r)
            (HProbe rc_txt t :: HSleep 20 :: trace r)).
Proof.
  intros H Hup Hr. simpl. unfold hbind at 1, clock_now. simpl.
  replace (t <? grace_end) with true by (symmetry; apply Z.ltb_lt; lia).
  unfold hbind at 1. rewrite mtimeIfExists_run. simpl.
  rewrite seen_rc, Hup. unfold hbind, sleep_for. simpl.
  replace (t + Z.max 0 20) with (t + 20) by lia. rewrite Hr. reflexivity.
Qed.

(** The grace window ends, with a return code or without. *)
Lemma grace_loop_ends k : forall fuel t,
  (k < fuel)%nat ->
  exists v t' tr,
    grace_loop env fuel rc_before (t + 20 * Z.of_nat k) t
    = Some (mkRes (inr v) t' tr)
    /\ t <= t' <= t + 20 * Z.of_nat k.
Proof.
  induction k as [|k IH]; intros fuel t Hf;
    (destruct fuel as [|fuel]; [lia|]).
  - exists None, t, []. split; [apply grace_loop_closed; lia | lia].
  - destruct (updated rc_before (fst <$> rc_at env t)) eqn:Hup.
    + destruct (updated_present _ _ Hup) as (mt & c & Hrc).
      eexists _, _, _. split;
        [eapply grace_loop_hit; [lia | exact Hrc | exact Hup] | lia].
    + destruct (IH fuel (t + 20) ltac:(lia)) as (v & t' & tr & Hr & Ht).
      replace (t + 20 + 20 * Z.of_nat k) with (t + 20 * Z.of_nat (S k)) in Hr
        by lia.
      exists v, t', (HProbe rc_txt t :: HSleep 20 :: tr). split;
        [rewrite (grace_loop_miss fuel (t + 20 * Z.of_nat (S k)) t _
                    ltac:(lia) Hup Hr); reflexivity
        | lia].
Qed.

(** A grace window in which the return code does not change. *)
Lemma grace_loop_idle k : forall fuel t,
  (k < fuel)%nat ->
  (forall j, (j < k)%nat ->
     updated rc_before (fst <$> rc_at env (t + 20 * Z.of_nat j)) = false) ->
  grace_loop env fuel rc_before (t + 20 * Z.of_nat k) t
  = Some (mkRes (inr None) (t + 20 * Z.of_nat k) (grace_polls k t)).
Proof.
  induction k as [|k IH]; intros fuel t Hf Hidle;
    (destruct fuel as [|fuel]; [lia|]).
  - replace (t + 20 * Z.of_nat 0) with t by lia.
    apply grace_loop_closed. lia.
  - assert (H0 : updated rc_before (fst <$> rc_at env t) = false).
    { specialize (Hidle 0%nat ltac:(lia)).
      replace (t + 20 * Z.of_nat 0) with t in Hidle by lia. exact Hidle. }
    assert (Hr : grace_loop env fuel rc_before (t + 20 * Z.of_nat (S k))
                   (t + 20)
                 = Some (mkRes (inr None) (t + 20 * Z.of_nat (S k))
                           (grace_polls k (t + 20)))).
    { replace (t + 20 * Z.of_nat (S k)) with (t + 20 + 20 * Z.of_nat k) by lia.
      apply IH; [lia |]. intros j Hj.
      specialize (Hidle (S j) ltac:(lia)).
      replace (t + 20 + 20 * Z.of_nat j) with (t + 20 * Z.of_nat (S j)) by lia.
      exact Hidle. }
    rewrite (grace_loop_miss fuel (t + 20 * Z.of_nat (S k)) t _
               ltac:(lia) H0 Hr). reflexivity.
Qed.

(** One turn of the wait loop. *)
Section Turn.

Variables start timeout poll : Z.
Variable fuel : nat.
Variable t : Z.

Lemma wait_loop_timeout :
  updated out_before (fst <$> out_at env t) = false ->
  timeout < t - start ->
  wait_loop env (S fuel) out_before rc_before start timeout poll t
  = Some (mkRes (inl TimeoutWaiting) t [HProbe out_txt t; HProbe rc_txt t]).
Proof.
  intros Hout Hlate. cbn [wait_loop].
  unfold hbind at 1. rewrite mtimeIfExists_run. cbn [outcome now_after trace].
  unfold hbind at 1. rewrite mtimeIfExists_run. cbn [outcome now_after trace].
  rewrite seen_out, Hout. unfold hbind, clock_now. simpl.
  replace (t - start >? timeout) with true
    by (symmetry; rewrite Z.gtb_ltb; apply Z.ltb_lt; lia).
  reflexivity.
Qed.

Lemma wait_loop_miss r :
  updated out_before (fst <$> out_at env t) = false ->
  t - start <= timeout ->
  wait_loop env fuel out_before rc_before start timeout poll
    (t + Z.max 0 poll) = Some r ->
  wait_loop env (S fuel) out_before rc_before start timeout poll t
  = Some (mkRes (outcome r) (now_after r)
            (HProbe out_txt t :: HProbe rc_txt t :: HSleep poll :: trace r)).
Proof.
  intros Hout Hin Hr. cbn [wait_loop].
  unfold hbind at 1. rewrite mtimeIfExists_run. cbn [outcome now_after trace].
  unfold hbind at 1. rewrite mtimeIfExists_run. cbn [outcome now_after trace].
  rewrite seen_out, Hout. unfold hbind, clock_now, sleep_for. simpl.
  replace (t - start >? timeout) with false
    by (symmetry; rewrite Z.gtb_ltb; apply Z.ltb_ge; lia).
  rewrite Hr. reflexivity.
Qed.

Lemma wait_loop_hit_rc mt o mr c :
  out_at env t = Some (mt, o) ->
  updated out_before (fst <$> out_at env t) = true ->
  rc_at env t = Some (mr, c) ->
  updated rc_before (fst <$> rc_at env t) = true ->
  wait_loop env (S fuel) out_before rc_before start timeout poll t
  = Some (mkRes (inr (mkReply o (parseReturnCode c))) t
            [HProbe out_txt t; HProbe rc_txt t; HRead out_txt t;
             HRead rc_txt t]).
Proof.
  intros Ho Hout Hc Hrc. cbn [wait_loop].
  unfold hbind at 1. rewrite mtimeIfExists_run. cbn [outcome now_after trace].
  unfold hbind at 1. rewrite mtimeIfExists_run. cbn [outcome now_after trace].
  rewrite seen_out, Hout, seen_rc, Hrc.
  unfold hbind at 1.
  rewrite (readFileText_run out_txt t mt o) by (rewrite seen_out; exact Ho).
  cbn [outcome now_after trace].
  unfold hbind at 1.
  rewrite (readFileText_run rc_txt t mr c) by (rewrite seen_rc; exact Hc).
  reflexivity.
Qed.

Lemma wait_loop_hit_grace mt o v t' tr :
  out_at env t = Some (mt, o) ->
  updated out_before (fst <$> out_at env t) = true ->
  updated rc_before (fst <$> rc_at env t) = false ->
  grace_loop env grace_fuel rc_before (t + 200) t
  = Some (mkRes (inr v) t' tr) ->
  wait_loop env (S fuel) out_before rc_before start timeout poll t
  = Some (mkRes (inr (mkReply o v)) t'
            (HProbe out_txt t :: HProbe rc_txt t :: HRead out_txt t :: tr)).
Proof.
  intros Ho Hout Hrc Hg. cbn [wait_loop].
  unfold hbind at 1. rewrite mtimeIfExists_run. cbn [outcome now_after trace].
  unfold hbind at 1. rewrite mtimeIfExists_run. cbn [outcome now_after trace].
  rewrite seen_out, Hout, seen_rc, Hrc.
  unfold hbind at 1.
  rewrite (readFileText_run out_txt t mt o) by (rewrite seen_out; exact Ho).
  cbn [outcome now_after trace].
  unfold hbind at 1. unfold clock_now at 1. cbn [outcome now_after trace].
  unfold hbind at 1. rewrite Hg. cbn [outcome now_after trace].
  unfold hret. rewrite app_nil_r. reflexivity.
Qed.

End Turn.

(** Turns without a change of the output, within the timeout. *)
Lemma wait_loop_misses start timeout poll i : forall fuel t r,
  (forall j, (j < i)%nat ->
     updated out_before
       (fst <$> out_at env (t + Z.of_nat j * Z.max 0 poll)) = false
     /\ t + Z.of_nat j * Z.max 0 poll - start <= timeout) ->
  wait_loop env fuel out_before rc_before start timeout poll
    (t + Z.of_nat i * Z.max 0 poll) = Some r ->
  wait_loop env (i + fuel) out_before rc_before start timeout poll t
  = Some (mkRes (outcome r) (now_after r) (idle_turns i t poll ++ trace r)).
Proof.
  induction i as [|i IH]; intros fuel t r Hidle Hr.
  - replace (t + Z.of_nat 0 * Z.max 0 poll) with t in Hr by lia.
    simpl. rewrite Hr. destruct r. reflexivity.
  - destruct (Hidle 0%nat ltac:(lia)) as [H0 H0'].
    replace (t + Z.of_nat 0 * Z.max 0 poll) with t in H0, H0' by lia.
    assert (Hrest : wait_loop env (i + fuel) out_before rc_before start
                      timeout poll (t + Z.max 0 poll)
                    = Some (mkRes (outcome r) (now_after r)
                              (idle_turns i (t + Z.max 0 poll) poll
                               ++ trace r))).
    { apply IH.
      - intros j Hj. destruct (Hidle (S j) ltac:(lia)) as [H1 H2].
        replace (t + Z.max 0 poll + Z.of_nat j * Z.max 0 poll)
          with (t + Z.of_nat (S j) * Z.max 0 poll) by lia.
        auto.
      - replace (t + Z.max 0 poll + Z.of_nat i * Z.max 0 poll)
          with (t + Z.of_nat (S i) * Z.max 0 poll) by lia.
        exact Hr. }
    change (S i + fuel)%nat with (S (i + fuel)).
    rewrite (wait_loop_miss start timeout poll (i + fuel) t _ H0 H0' Hrest).
    reflexivity.
Qed.

Lemma wait_loop_ends start timeout poll :
  0 < poll ->
  forall fuel t,
    start <= t ->
    (turns_left poll (timeout - (t - start)) <= fuel)%nat ->
    exists r,
      wait_loop env fuel out_before rc_before start timeout poll t = Some r
      /\ t <= now_after r <= Z.max t (start + timeout + poll) + 200
      /\ wait_outcome start timeout r.
Proof.
  intros Hpoll. induction fuel as [|fuel IH]; intros t Hst Hfuel.
  - unfold turns_left in Hfuel. destruct (_ <? 0); lia.
  - destruct (updated out_before (fst <$> out_at env t)) eqn:Hout.
    + destruct (updated_present _ _ Hout) as (mt & o & Ho).
      destruct (updated rc_before (fst <$> rc_at env t)) eqn:Hrc.
      * destruct (updated_present _ _ Hrc) as (mr & c & Hc).
        eexists. split;
          [eapply wait_loop_hit_rc; eassumption |].
        simpl. split; [lia | exact I].
      * destruct (grace_loop_ends 10 grace_fuel t ltac:(unfold grace_fuel; lia))
          as (v & t' & tr & Hg & Ht).
        replace (t + 20 * Z.of_nat 10) with (t + 200) in * by lia.
        eexists. split;
          [eapply wait_loop_hit_grace; eassumption |].
        simpl. split; [lia | exact I].
    + destruct (Z.ltb_spec timeout (t - start)) as [Hlate|Hin].
      * eexists. split; [apply wait_loop_timeout; assumption |].
        unfold wait_outcome. simpl. split; lia.
      * destruct (IH (t + Z.max 0 poll)) as (r & Hr & Ht & Hw).
        -- lia.
        -- unfold turns_left in *.
           replace (timeout - (t + Z.max 0 poll - start))
             with (timeout - (t - start) + (-1) * poll) by lia.
           destruct (timeout - (t - start) <? 0) eqn:E1;
             [apply Z.ltb_lt in E1; lia |].
           rewrite Z.div_add by lia.
           destruct (timeout - (t - start) + -1 * poll <? 0) eqn:E2.
           ++ assert (0 <= (timeout - (t - start)) / poll)
                by (apply Z.div_pos; lia).
              lia.
           ++ apply Z.ltb_ge in E2.
              assert (1 <= (timeout - (t - start)) / poll)
                by (apply Z.div_le_lower_bound; lia).
              lia.
        -- eexists. split;
             [apply (wait_loop_miss start timeout poll fuel t r Hout Hin Hr) |].
           unfold wait_outcome in *. simpl. split; [lia | exact Hw].
Qed.

End Wait.

(** *** [sendCommandAndWait] *)

Section Send.

Variable env : Env.
Variable fuel : nat.
Variable command : text.
Variables timeout poll t : Z.

Lemma send_write_fails :
  write_ok env t = false ->
  sendCommandAndWait env fuel command timeout poll t
  = Some (mkRes (inl (FailedToWrite cmd_new)) t
            [HProbe out_txt t; HProbe rc_txt t; HRemove cmd_new;
             HWrite cmd_new (command ++ crlf)]).
Proof.
  intros Hw. unfold sendCommandAndWait, safeRemove, writeFileText,
    mtimeIfExists, hbind, clock_now, say, hret, throw.
  simpl. rewrite Hw. reflexivity.
Qed.

Lemma send_move_fails :
  write_ok env t = true -> rename_ok env t = false ->
  copy_ok env t = false ->
  sendCommandAndWait env fuel command timeout poll t
  = Some (mkRes (inl (FailedToMove cmd_new cmd_txt)) t
            [HProbe out_txt t; HProbe rc_txt t; HRemove cmd_new;
             HWrite cmd_new (command ++ crlf); HRemove cmd_txt;
             HRename cmd_new cmd_txt; HCopy cmd_new cmd_txt]).
Proof.
  intros Hw Hr Hc. unfold sendCommandAndWait, safeRemove, writeFileText,
    safeRename, mtimeIfExists, hbind, clock_now, say, hret, throw.
  simpl. rewrite Hw. simpl. rewrite Hr. simpl. rewrite Hc. reflexivity.
Qed.

Lemma send_published :
  write_ok env t = true ->
  rename_ok env t || copy_ok env t = true ->
  sendCommandAndWait env fuel command timeout poll t
  = match the_wait env fuel timeout poll t with
    | Some r =>
        Some (mkRes (outcome r) (now_after r)
                (publish_calls env command t ++ trace r))
    | None => None
    end.
Proof.
  intros Hw Hm. unfold the_wait, publish_calls.
  unfold sendCommandAndWait, safeRemove, writeFileText,
    safeRename, mtimeIfExists, hbind, clock_now, say, hret, throw.
  simpl. rewrite Hw. simpl.
  destruct (rename_ok env t); simpl.
  - rewrite !seen_out, !seen_rc. destruct (wait_loop _ _ _ _ _ _ _ _); reflexivity.
  - simpl in Hm. rewrite Hm. simpl.
    rewrite !seen_out, !seen_rc. destruct (wait_loop _ _ _ _ _ _ _ _); reflexivity.
Qed.

End Send.

End HostFacts.

(* ===================================================================== *)
(** ** The wait under the steady clock *)
(* ===================================================================== *)

Module SteadyFacts.
Import Chars Spec Host HostLogic HostFacts SteadyLogic.

Lemma after_bounds lag lo hi t :
  bounded lag lo hi -> 0 <= lo -> t + lo <= after lag t <= t + hi.
Proof. intros H Hlo. unfold after. specialize (H t). lia. Qed.

Lemma after_later lag t : t <= after lag t.
Proof. unfold after. lia. Qed.

Section Clock.

Variable env : Env.
Variable ms : Z.
Variable lag : Z -> Z.
Hypothesis ms_pos : 0 < ms.

Lemma mtimeIfExists_run_steady p t :
  Steady.mtimeIfExists env lag p t
  = Some (mkRes (inr (fst <$> seen env p t)) (after lag t) [HProbe p t]).
Proof. reflexivity. Qed.

Lemma readFileText_run_steady p t mt c :
  seen env p t = Some (mt, c) ->
  Steady.readFileText env lag p t
  = Some (mkRes (inr c) (after lag t) [HRead p t]).
Proof.
  intros H. unfold Steady.readFileText. unfold hbind at 1.
  rewrite (HostFacts.readFileText_run env p t mt c H). reflexivity.
Qed.

Lemma readFileText_gone p t :
  seen env p t = None ->
  Steady.readFileText env lag p t
  = Some (mkRes (inl (FailedToOpen p)) t [HRead p t]).
Proof.
  intros H. unfold Steady.readFileText, Host.readFileText, hbind, clock_now,
    say, throw.
  cbn [outcome now_after trace]. rewrite H. reflexivity.
Qed.

Lemma sleep_for_run d t :
  Steady.sleep_for ms lag d t
  = Some (mkRes (inr tt) (after lag (t + Z.max 0 (d * ms))) [HSleep d]).
Proof. reflexivity. Qed.

(** A read ends, with the content or with the failure to open. *)
Lemma readFileText_ends p t :
  (exists c, Steady.readFileText env lag p t
             = Some (mkRes (inr c) (after lag t) [HRead p t]))
  \/ Steady.readFileText env lag p t
     = Some (mkRes (inl (FailedToOpen p)) t [HRead p t]).
Proof.
  destruct (seen env p t) as [[mt c]|] eqn:E.
  - left. exists c. apply (readFileText_run_steady p t mt c E).
  - right. apply readFileText_gone, E.
Qed.

Section Wait.

Variables out_before rc_before : option Z.

(** *** One turn of the grace loop *)

Lemma grace_loop_closed_steady fuel grace_end t :
  grace_end <= t ->
  Steady.grace_loop env ms lag (S fuel) rc_before grace_end t
  = Some (mkRes (inr None) t []).
Proof.
  intros H. cbn [Steady.grace_loop]. unfold hbind, clock_now.
  cbn [outcome now_after trace].
  replace (t <? grace_end) with false by (symmetry; apply Z.ltb_ge; lia).
  reflexivity.
Qed.

Lemma grace_loop_open fuel grace_end t :
  t < grace_end ->
  Steady.grace_loop env ms lag (S fuel) rc_before grace_end t
  = (if updated rc_before (fst <$> rc_at env t) then
       let* rc_text := Steady.readFileText env lag rc_txt in
       hret (parseReturnCode rc_text)
     else
       Steady.sleep_for ms lag 20 >>
       Steady.grace_loop env ms lag fuel rc_before grace_end)%host
      (after lag t)
    ≫= (fun r => Some (mkRes (outcome r) (now_after r)
                          (HProbe rc_txt t :: trace r))).
Proof.
  intros H. cbn [Steady.grace_loop]. unfold hbind at 1, clock_now.
  cbn [outcome now_after trace].
  replace (t <? grace_end) with true by (symmetry; apply Z.ltb_lt; lia).
  unfold hbind at 1. rewrite mtimeIfExists_run_steady.
  cbn [outcome now_after trace]. rewrite HostFacts.seen_rc.
  destruct (_ (after lag t)) as [r|]; reflexivity.
Qed.

(** The grace window ends: with a return code or without, or with the
    failure to open a return-code file that was there when probed. *)
Lemma grace_loop_ends_steady lo hi grace_end k :
  bounded lag lo hi -> 0 <= lo ->
  forall fuel t,
    (k < fuel)%nat ->
    grace_end <= t + 20 * ms * Z.of_nat k ->
    exists r,
      Steady.grace_loop env ms lag fuel rc_before grace_end t = Some r
      /\ t <= now_after r <= Z.max t (grace_end + 20 * ms + 2 * hi)
      /\ (match outcome r with
          | inr _ => True
          | inl e => e = FailedToOpen rc_txt
          end).
Proof.
  intros Hlag Hlo. induction k as [|k IH]; intros fuel t Hf Hend;
    (destruct fuel as [|fuel]; [lia|]).
  - eexists. split; [apply grace_loop_closed_steady; lia |].
    cbn [now_after outcome]. split; [lia | exact I].
  - destruct (Z.le_gt_cases grace_end t) as [Hclosed|Hopen].
    + eexists. split; [apply grace_loop_closed_steady; lia |].
      cbn [now_after outcome]. split; [lia | exact I].
    + rewrite (grace_loop_open fuel grace_end t Hopen).
      pose proof (after_bounds lag lo hi t Hlag Hlo) as Ht1.
      set (t1 := after lag t) in *.
      destruct (updated rc_before (fst <$> rc_at env t)).
      * pose proof (after_bounds lag lo hi t1 Hlag Hlo) as Ht2.
        unfold hbind at 1.
        destruct (readFileText_ends rc_txt t1) as [[c Hc]|Hc]; rewrite Hc;
          cbn [outcome now_after trace hret mbind option_bind];
          eexists; (split; [reflexivity |]);
          cbn [now_after outcome]; (split; [lia | auto]).
      * replace (Z.max 0 (20 * ms)) with (20 * ms)
          in * by lia.
        pose proof (after_bounds lag lo hi (t1 + 20 * ms) Hlag Hlo) as Ht2.
        destruct (IH fuel (after lag (t1 + 20 * ms)) ltac:(lia) ltac:(lia))
          as (r & Hr & Hb & Ho).
        unfold hbind at 1. rewrite sleep_for_run.
        cbn [outcome now_after trace].
        replace (Z.max 0 (20 * ms)) with (20 * ms) by lia.
        rewrite Hr. cbn [mbind option_bind].
        destruct (outcome r) as [e|v] eqn:E;
          eexists; (split; [reflexivity |]);
          cbn [now_after outcome]; (split; [lia | auto]).
Qed.

(** *** One turn of the wait loop *)

Section Turn.

Variables start timeout poll : Z.
Variable fuel : nat.
Variable t : Z.

Lemma wait_loop_timeout_steady :
  updated out_before (fst <$> out_at env t) = false ->
  timeout * ms < start_of lag t - start ->
  Steady.wait_loop env ms lag (S fuel) out_before rc_before start timeout poll t
  = Some (mkRes (inl TimeoutWaiting) (start_of lag t)
            [HProbe out_txt t; HProbe rc_txt (after lag t)]).
Proof.
  intros Hout Hlate. cbn [Steady.wait_loop]. unfold start_of in *.
  unfold hbind at 1. rewrite mtimeIfExists_run_steady. cbn [outcome now_after trace].
  unfold hbind at 1. rewrite mtimeIfExists_run_steady. cbn [outcome now_after trace].
  rewrite HostFacts.seen_out, Hout. unfold hbind, clock_now, throw.
  cbn [outcome now_after trace].
  replace (after lag (after lag t) - start >? timeout * ms) with true
    by (symmetry; rewrite Z.gtb_ltb; apply Z.ltb_lt; lia).
  reflexivity.
Qed.

Lemma wait_loop_miss_steady r :
  updated out_before (fst <$> out_at env t) = false ->
  start_of lag t - start <= timeout * ms ->
  Steady.wait_loop env ms lag fuel out_before rc_before start timeout poll
    (after lag (start_of lag t + Z.max 0 (poll * ms))) = Some r ->
  Steady.wait_loop env ms lag (S fuel) out_before rc_before start timeout poll t
  = Some (mkRes (outcome r) (now_after r)
            (HProbe out_txt t :: HProbe rc_txt (after lag t) :: HSleep poll
             :: trace r)).
Proof.
  intros Hout Hin Hr. cbn [Steady.wait_loop]. unfold start_of in *.
  unfold hbind at 1. rewrite mtimeIfExists_run_steady. cbn [outcome now_after trace].
  unfold hbind at 1. rewrite mtimeIfExists_run_steady. cbn [outcome now_after trace].
  rewrite HostFacts.seen_out, Hout. unfold hbind at 1, clock_now.
  cbn [outcome now_after trace].
  replace (after lag (after lag t) - start >? timeout * ms) with false
    by (symmetry; rewrite Z.gtb_ltb; apply Z.ltb_ge; lia).
  unfold hbind at 1. rewrite sleep_for_run. cbn [outcome now_after trace].
  rewrite Hr. reflexivity.
Qed.

(** The turn that sees the output changed ends the wait. *)
Lemma wait_loop_hit lo hi :
  bounded lag lo hi -> 0 <= lo ->
  updated out_before (fst <$> out_at env t) = true ->
  exists r,
    Steady.wait_loop env ms lag (S fuel) out_before rc_before start timeout poll t
    = Some r
    /\ t <= now_after r <= t + 220 * ms + 5 * hi
    /\ (match outcome r with
        | inr _ => True
        | inl e => e = FailedToOpen out_txt \/ e = FailedToOpen rc_txt
        end).
Proof.
  intros Hlag Hlo Hout. cbn [Steady.wait_loop].
  pose proof (after_bounds lag lo hi t Hlag Hlo) as Ht1.
  set (t1 := after lag t) in *.
  pose proof (after_bounds lag lo hi t1 Hlag Hlo) as Ht2.
  set (t2 := after lag t1) in *.
  pose proof (after_bounds lag lo hi t2 Hlag Hlo) as Ht3.
  unfold hbind at 1. rewrite mtimeIfExists_run_steady. cbn [outcome now_after trace].
  unfold hbind at 1. rewrite mtimeIfExists_run_steady. cbn [outcome now_after trace].
  fold t1. fold t2.
  rewrite HostFacts.seen_out, Hout.
  unfold hbind at 1.
  destruct (readFileText_ends out_txt t2) as [[o Ho]|Ho]; rewrite Ho;
    cbn [outcome now_after trace].
  2:{ eexists. split; [reflexivity |]. cbn [now_after outcome].
      split; [lia | auto]. }
  set (t3 := after lag t2) in *.
  pose proof (after_bounds lag lo hi t3 Hlag Hlo) as Ht4.
  destruct (updated rc_before (fst <$> seen env rc_txt t1)).
  - unfold hbind at 1.
    destruct (readFileText_ends rc_txt t3) as [[c Hc]|Hc]; rewrite Hc;
      cbn [outcome now_after trace hret];
      eexists; (split; [reflexivity |]);
      cbn [now_after outcome]; (split; [lia | auto]).
  - unfold hbind at 1, clock_now. cbn [outcome now_after trace].
    destruct (grace_loop_ends_steady lo hi (t3 + 200 * ms) 10 Hlag Hlo grace_fuel t3
                ltac:(unfold grace_fuel; lia) ltac:(lia))
      as (r & Hr & Hb & Hg).
    unfold hbind at 1. rewrite Hr.
    destruct (outcome r) as [e|v] eqn:E; cbn [outcome now_after trace hret];
      eexists; (split; [reflexivity |]);
      cbn [now_after outcome]; (split; [lia | auto]).
Qed.

End Turn.

(** *** The wait ends *)

Lemma turns_left_next step a a' fuel :
  0 < step -> 0 <= a -> a' <= a - step ->
  (turns_left step a <= S fuel)%nat ->
  (turns_left step a' <= fuel)%nat.
Proof.
  intros Hstep Ha Ha' Hf. unfold turns_left in *.
  destruct (a <? 0) eqn:E1; [apply Z.ltb_lt in E1; lia |].
  assert (0 <= a / step) by (apply Z.div_pos; lia).
  destruct (a' <? 0) eqn:E2; [lia |]. apply Z.ltb_ge in E2.
  assert (a' / step <= (a - step) / step) by (apply Z.div_le_mono; lia).
  replace (a - step) with (a + (-1) * step) in * by lia.
  rewrite Z.div_add in * by lia.
  assert (0 <= a' / step) by (apply Z.div_pos; lia).
  lia.
Qed.

Lemma wait_loop_ends_steady start timeout poll lo hi :
  bounded lag lo hi -> 0 <= lo -> 0 < turn ms poll lo ->
  forall fuel t,
    start <= t ->
    (turns_left (turn ms poll lo) (timeout * ms - (t - start)) <= fuel)%nat ->
    exists r,
      Steady.wait_loop env ms lag fuel out_before rc_before start timeout poll t
      = Some r
      /\ t <= now_after r
         <= Z.max t (start + timeout * ms + Z.max 0 (poll * ms) + hi)
            + 220 * ms + 5 * hi
      /\ wait_outcome start (timeout * ms) r.
Proof.
  intros Hlag Hlo Hstep. induction fuel as [|fuel IH]; intros t Hst Hfuel.
  - unfold turns_left in Hfuel. destruct (_ <? 0); lia.
  - pose proof (after_bounds lag lo hi t Hlag Hlo) as Ht1.
    pose proof (after_bounds lag lo hi (after lag t) Hlag Hlo) as Ht2.
    pose proof (after_bounds lag lo hi (start_of lag t + Z.max 0 (poll * ms))
                  Hlag Hlo) as Ht3.
    fold (start_of lag t) in Ht2.
    destruct (updated out_before (fst <$> out_at env t)) eqn:Hout.
    + destruct (wait_loop_hit start timeout poll fuel t lo hi Hlag Hlo Hout)
        as (r & Hr & Hb & Ho).
      exists r. split; [exact Hr |]. split; [lia |].
      unfold wait_outcome. destruct (outcome r) as [e|v]; [| exact I].
      destruct Ho as [-> | ->]; auto.
    + destruct (Z.ltb_spec (timeout * ms) (start_of lag t - start))
        as [Hlate|Hin].
      * eexists. split; [apply wait_loop_timeout_steady; assumption |].
        unfold wait_outcome. cbn [now_after outcome]. split; lia.
      * destruct (IH (after lag (start_of lag t + Z.max 0 (poll * ms))))
          as (r & Hr & Ht & Hw).
        -- lia.
        -- apply (turns_left_next (turn ms poll lo)
                    (timeout * ms - (t - start)));
             [exact Hstep | lia | unfold turn; lia | exact Hfuel].
        -- eexists. split;
             [apply (wait_loop_miss_steady start timeout poll fuel t r Hout Hin Hr) |].
           unfold wait_outcome in *. cbn [now_after outcome].
           split; [lia | exact Hw].
Qed.

(** A wait in which the output is never seen to change ends with the
    timeout, after probes and sleeps only. *)
Lemma wait_loop_silent start timeout poll lo hi :
  bounded lag lo hi -> 0 <= lo -> 0 < turn ms poll lo ->
  (forall u, start <= u ->
     updated out_before (fst <$> out_at env u) = false) ->
  forall fuel t,
    start <= t ->
    (turns_left (turn ms poll lo) (timeout * ms - (t - start)) <= fuel)%nat ->
    exists r,
      Steady.wait_loop env ms lag fuel out_before rc_before start timeout poll t
      = Some r
      /\ outcome r = inl TimeoutWaiting
      /\ timeout * ms < now_after r - start
      /\ t <= now_after r
         <= Z.max t (start + timeout * ms + Z.max 0 (poll * ms) + hi)
            + 2 * hi
      /\ forallb waiting (trace r) = true.
Proof.
  intros Hlag Hlo Hstep Hsilent.
  induction fuel as [|fuel IH]; intros t Hst Hfuel.
  - unfold turns_left in Hfuel. destruct (_ <? 0); lia.
  - pose proof (after_bounds lag lo hi t Hlag Hlo) as Ht1.
    pose proof (after_bounds lag lo hi (after lag t) Hlag Hlo) as Ht2.
    pose proof (after_bounds lag lo hi (start_of lag t + Z.max 0 (poll * ms))
                  Hlag Hlo) as Ht3.
    fold (start_of lag t) in Ht2.
    pose proof (Hsilent t Hst) as Hout.
    destruct (Z.ltb_spec (timeout * ms) (start_of lag t - start))
      as [Hlate|Hin].
    + eexists. split; [apply wait_loop_timeout_steady; assumption |].
      cbn [now_after outcome trace]. split; [reflexivity |].
      split; [lia |]. split; [lia | reflexivity].
    + destruct (IH (after lag (start_of lag t + Z.max 0 (poll * ms))))
        as (r & Hr & Ho & Hpast & Ht & Htr).
      * lia.
      * apply (turns_left_next (turn ms poll lo)
                 (timeout * ms - (t - start)));
          [exact Hstep | lia | unfold turn; lia | exact Hfuel].
      * eexists. split;
          [apply (wait_loop_miss_steady start timeout poll fuel t r Hout Hin Hr) |].
        cbn [now_after outcome trace]. split; [exact Ho |].
        split; [exact Hpast |]. split; [lia |].
        cbn [forallb waiting]. exact Htr.
Qed.

End Wait.

(** *** [sendCommandAndWait] *)

Section Send.

Variable fuel : nat.
Variable command : text.
Variables timeout poll t : Z.

Lemma send_write_fails_steady :
  write_ok env (start_of lag t) = false ->
  Steady.sendCommandAndWait env ms lag fuel command timeout poll t
  = Some (mkRes (inl (FailedToWrite cmd_new)) (start_of lag t)
            [HProbe out_txt t; HProbe rc_txt (after lag t); HRemove cmd_new;
             HWrite cmd_new (command ++ crlf)]).
Proof.
  intros Hw. unfold Steady.sendCommandAndWait, start_of in *.
  unfold hbind at 1. rewrite mtimeIfExists_run_steady. cbn [outcome now_after trace].
  unfold hbind at 1. rewrite mtimeIfExists_run_steady. cbn [outcome now_after trace].
  unfold safeRemove, writeFileText, hbind, clock_now, say, hret, throw.
  cbn [outcome now_after trace]. rewrite Hw. reflexivity.
Qed.

Lemma send_move_fails_steady :
  write_ok env (start_of lag t) = true ->
  rename_ok env (start_of lag t) = false ->
  copy_ok env (start_of lag t) = false ->
  Steady.sendCommandAndWait env ms lag fuel command timeout poll t
  = Some (mkRes (inl (FailedToMove cmd_new cmd_txt)) (start_of lag t)
            [HProbe out_txt t; HProbe rc_txt (after lag t); HRemove cmd_new;
             HWrite cmd_new (command ++ crlf); HRemove cmd_txt;
             HRename cmd_new cmd_txt; HCopy cmd_new cmd_txt]).
Proof.
  intros Hw Hr Hc. unfold Steady.sendCommandAndWait, start_of in *.
  unfold hbind at 1. rewrite mtimeIfExists_run_steady. cbn [outcome now_after trace].
  unfold hbind at 1. rewrite mtimeIfExists_run_steady. cbn [outcome now_after trace].
  unfold safeRemove, writeFileText, safeRename, hbind, clock_now, say, hret,
    throw.
  cbn [outcome now_after trace]. rewrite Hw. cbn [outcome now_after trace].
  rewrite Hr. cbn [outcome now_after trace]. rewrite Hc. reflexivity.
Qed.

Lemma send_published_steady :
  write_ok env (start_of lag t) = true ->
  rename_ok env (start_of lag t) || copy_ok env (start_of lag t) = true ->
  Steady.sendCommandAndWait env ms lag fuel command timeout poll t
  = match Steady.wait_loop env ms lag fuel (fst <$> out_at env t)
            (fst <$> rc_at env (after lag t)) (start_of lag t) timeout poll
            (start_of lag t) with
    | Some r =>
        Some (mkRes (outcome r) (now_after r)
                (publish_calls env lag command t ++ trace r))
    | None => None
    end.
Proof.
  intros Hw Hm. unfold publish_calls.
  unfold Steady.sendCommandAndWait, start_of in *.
  unfold hbind at 1. rewrite mtimeIfExists_run_steady. cbn [outcome now_after trace].
  unfold hbind at 1. rewrite mtimeIfExists_run_steady. cbn [outcome now_after trace].
  rewrite HostFacts.seen_out, HostFacts.seen_rc.
  unfold safeRemove, writeFileText, safeRename, hbind, clock_now, say, hret,
    throw.
  cbn [outcome now_after trace]. rewrite Hw. cbn [outcome now_after trace].
  destruct (rename_ok env (after lag (after lag t))); cbn [outcome now_after trace].
  - destruct (Steady.wait_loop _ _ _ _ _ _ _ _ _); reflexivity.
  - cbn [orb] in Hm. rewrite Hm. cbn [outcome now_after trace].
    destruct (Steady.wait_loop _ _ _ _ _ _ _ _ _); reflexivity.
Qed.

End Send.

End Clock.

(** *** With a tick in a millisecond and no lag the functions are those
    of [Host] *)

Section NoLag.

Variable env : Env.

Lemma hbind_cong {A B} (m m' : HM A) (f g : A -> HM B) t :
  m t = m' t -> (forall a u, f a u = g a u) -> hbind m f t = hbind m' g t.
Proof.
  intros Hm Hf. unfold hbind. rewrite Hm.
  destruct (m' t) as [r1|]; [| reflexivity].
  destruct (outcome r1); [reflexivity |]. rewrite Hf. reflexivity.
Qed.

Lemma elapse_none {A} (m : HM A) t :
  hbind m (fun a => hbind (Steady.elapse Steady.none) (fun _ => hret a)) t
  = m t.
Proof.
  unfold hbind, Steady.elapse, Steady.none, hret.
  destruct (m t) as [[[e|a] n tr]|]; cbn [outcome now_after trace];
    try reflexivity.
  rewrite app_nil_r. change (Z.max 0 0) with 0. rewrite Z.add_0_r.
  reflexivity.
Qed.

Lemma mtimeIfExists_none p t :
  Steady.mtimeIfExists env Steady.none p t = mtimeIfExists env p t.
Proof. apply elapse_none. Qed.

Lemma readFileText_none p t :
  Steady.readFileText env Steady.none p t = readFileText env p t.
Proof. apply elapse_none. Qed.

Lemma sleep_for_none d t :
  Steady.sleep_for 1 Steady.none d t = sleep_for d t.
Proof.
  unfold Steady.sleep_for, hbind, Steady.elapse, Steady.none, sleep_for.
  cbn [outcome now_after trace]. change (Z.max 0 0) with 0.
  rewrite Z.add_0_r, Z.mul_1_r. reflexivity.
Qed.

Lemma grace_loop_none fuel rc_before grace_end : forall t,
  Steady.grace_loop env 1 Steady.none fuel rc_before grace_end t
  = grace_loop env fuel rc_before grace_end t.
Proof.
  induction fuel as [|fuel IH]; intros t; [reflexivity |].
  cbn [Steady.grace_loop grace_loop].
  apply hbind_cong; [reflexivity | intros u t1].
  destruct (u <? grace_end); [| reflexivity].
  apply hbind_cong; [apply mtimeIfExists_none | intros rc2 t2].
  destruct (updated rc_before rc2).
  - apply hbind_cong; [apply readFileText_none | reflexivity].
  - apply hbind_cong; [apply sleep_for_none | intros _ t3; apply IH].
Qed.

Lemma wait_loop_none fuel out_before rc_before start timeout poll : forall t,
  Steady.wait_loop env 1 Steady.none fuel out_before rc_before start
    timeout poll t
  = wait_loop env fuel out_before rc_before start timeout poll t.
Proof.
  induction fuel as [|fuel IH]; intros t; [reflexivity |].
  cbn [Steady.wait_loop wait_loop].
  apply hbind_cong; [apply mtimeIfExists_none | intros out_now t1].
  apply hbind_cong; [apply mtimeIfExists_none | intros rc_now t2].
  destruct (updated out_before out_now).
  - apply hbind_cong; [apply readFileText_none | intros o t3].
    destruct (updated rc_before rc_now).
    + apply hbind_cong; [apply readFileText_none | reflexivity].
    + apply hbind_cong; [reflexivity | intros g t4].
      change (200 * 1) with 200.
      apply hbind_cong; [apply grace_loop_none | reflexivity].
  - apply hbind_cong; [reflexivity | intros u t3].
    rewrite Z.mul_1_r.
    destruct (u - start >? timeout); [reflexivity |].
    apply hbind_cong; [apply sleep_for_none | intros _ t4; apply IH].
Qed.

Lemma sendCommandAndWait_none fuel command timeout poll t :
  Steady.sendCommandAndWait env 1 Steady.none fuel command timeout poll t
  = sendCommandAndWait env fuel command timeout poll t.
Proof.
  unfold Steady.sendCommandAndWait, sendCommandAndWait.
  apply hbind_cong; [apply mtimeIfExists_none | intros out_before t1].
  apply hbind_cong; [apply mtimeIfExists_none | intros rc_before t2].
  apply hbind_cong; [reflexivity | intros _ t3].
  apply hbind_cong; [reflexivity | intros _ t4].
  apply hbind_cong; [reflexivity | intros _ t5].
  apply hbind_cong; [reflexivity | intros start t6].
  apply wait_loop_none.
Qed.

End NoLag.

End SteadyFacts.

(** C3, as the specification has it, fails: with a timeout of 100ms and
    a poll interval of 50ms, for an output that shows up 30ms after the
    call and no return code, the reply is returned more than 200ms after
    the wait started, past the timeout: the output is seen at the second
    turn and the grace window follows.  This is so under a clock that
    counts microseconds with calls that take 10 of them each, and under
    the clock of [Host], where calls take no time at all. *)
Lemma reply_comes_past_the_timeout :
  (exists r reply,
     Steady.sendCommandAndWait (early_out_env us) us ten_us 10 (str "dir")
       100 50 0 = Some r
     /\ Host.outcome r = inr reply
     /\ (100 + 100) * us < Host.now_after r - SteadyLogic.start_of ten_us 0)
  /\ (exists r reply,
        Host.sendCommandAndWait (early_out_env 1) 10 (str "dir") 100 50 0
        = Some r
        /\ Host.outcome r = inr reply
        /\ 100 + 100 < Host.now_after r - 0).
Proof.
  split.
  - eexists _, _. split; [vm_compute; reflexivity |].
    split; [reflexivity | vm_compute; reflexivity].
  - eexists _, _. split; [vm_compute; reflexivity |].
    split; [reflexivity | vm_compute; reflexivity].
Qed.

(** C3, amended. Provided time passes at each turn of the wait (the poll
    interval is positive, or a call takes some time), [sendCommandAndWait]
    ends: at most [timeout / turn + 2] turns of its loop are needed, where
    [turn] is the least time a turn takes.  It ends no later than
    [timeout + poll + 220] milliseconds after it was called, plus the time
    of eight calls (the timeout is tested after the probes of each turn,
    and a reply may wait for the grace window), and it ends with a reply,
    with the timeout error once the timeout has passed since the wait
    started, with the failure to write or move the command file, or with
    the failure to open a result file that has gone since it was
    probed. *)
Theorem submit_ends (env : Host.Env) (ms : Z) (lag : Z -> Z) (fuel : nat)
  (command : text) (timeout poll t lo hi : Z) :
  0 < ms ->
  SteadyLogic.bounded lag lo hi -> 0 <= lo ->
  0 < SteadyLogic.turn ms poll lo ->
  (Z.to_nat (timeout * ms / SteadyLogic.turn ms poll lo) + 2 <= fuel)%nat ->
  let start := SteadyLogic.start_of lag t in
  exists r,
    Steady.sendCommandAndWait env ms lag fuel command timeout poll t = Some r
    /\ t <= Host.now_after r
       <= t + Z.max 0 (timeout * ms) + Z.max 0 (poll * ms) + 220 * ms + 8 * hi
    /\ match Host.outcome r with
       | inr _ => True
       | inl Host.TimeoutWaiting => timeout * ms < Host.now_after r - start
       | inl (Host.FailedToWrite p) =>
           p = Host.cmd_new /\ Host.write_ok env start = false
       | inl (Host.FailedToMove a b) =>
           Host.rename_ok env start = false /\ Host.copy_ok env start = false
       | inl (Host.FailedToOpen p) => p = Host.out_txt \/ p = Host.rc_txt
       | inl Host.StoiFailed => False
       end.
Proof.
  intros Hms Hlag Hlo Hturn Hfuel start.
  pose proof (SteadyFacts.after_bounds lag lo hi t Hlag Hlo) as Ht1.
  pose proof (SteadyFacts.after_bounds lag lo hi (SteadyLogic.after lag t)
                Hlag Hlo) as Ht2.
  fold (SteadyLogic.start_of lag t) in Ht2. fold start in Ht2.
  destruct (Host.write_ok env start) eqn:Hw.
  - destruct (Host.rename_ok env start || Host.copy_ok env start) eqn:Hm.
    + rewrite SteadyFacts.send_published_steady by assumption. fold start.
      destruct (SteadyFacts.wait_loop_ends_steady env ms lag Hms
                  (fst <$> Host.out_at env t)
                  (fst <$> Host.rc_at env (SteadyLogic.after lag t))
                  start timeout poll lo hi Hlag Hlo Hturn fuel start)
        as (r & Hr & Ht & Ho).
      * lia.
      * unfold HostLogic.turns_left.
        replace (timeout * ms - (start - start)) with (timeout * ms) by lia.
        destruct (timeout * ms <? 0); lia.
      * rewrite Hr. eexists. split; [reflexivity |].
        cbn [Host.now_after Host.outcome]. split; [lia |].
        unfold SteadyLogic.wait_outcome in Ho.
        destruct (Host.outcome r) as [[]|];
          first [exact I | exact Ho | contradiction].
    + apply orb_false_iff in Hm as [Hr Hc].
      rewrite SteadyFacts.send_move_fails_steady by assumption.
      eexists. split; [reflexivity |].
      cbn [Host.now_after Host.outcome]. fold start. split; [lia | auto].
  - rewrite SteadyFacts.send_write_fails_steady by assumption.
    eexists. split; [reflexivity |].
    cbn [Host.now_after Host.outcome]. fold start. split; [lia | auto].
Qed.

Lemma submit_ends_witness :
  exists r,
    Steady.sendCommandAndWait (early_out_env us) us ten_us 3 (str "dir")
      100 50 0 = Some r
    /\ 0 <= Host.now_after r
       <= 0 + Z.max 0 (100 * us) + Z.max 0 (50 * us) + 220 * us + 8 * 10
    /\ match Host.outcome r with
       | inr _ => True
       | inl Host.TimeoutWaiting =>
           100 * us < Host.now_after r - SteadyLogic.start_of ten_us 0
       | inl (Host.FailedToWrite p) =>
           p = Host.cmd_new
           /\ Host.write_ok (early_out_env us) (SteadyLogic.start_of ten_us 0)
              = false
       | inl (Host.FailedToMove a b) =>
           Host.rename_ok (early_out_env us) (SteadyLogic.start_of ten_us 0)
           = false
           /\ Host.copy_ok (early_out_env us) (SteadyLogic.start_of ten_us 0)
              = false
       | inl (Host.FailedToOpen p) => p = Host.out_txt \/ p = Host.rc_txt
       | inl Host.StoiFailed => False
       end.
Proof.
  apply (submit_ends (early_out_env us) us ten_us 3 (str "dir") 100 50 0
           10 10).
  - reflexivity.
  - intros u. unfold ten_us. lia.
  - lia.
  - vm_compute. reflexivity.
  - vm_compute. lia.
Defined.

(** C7. When the command is published and, after [i] polls without a
    change, the output has changed while the return code has not, the
    client reads the output and then, for 200ms, only probes the
    return-code slot, every 20ms, ten times; when the return code has
    still not changed, [sendCommandAndWait] returns, 200ms after it saw
    the output, a reply (not an exception) that holds the output and no
    return code. *)
Theorem missing_return_code_is_a_reply (env : Host.Env) (fuel : nat)
  (command : text) (timeout poll t0 : Z) (i : nat) (mt : Z) (o : text) :
  0 <= poll ->
  Host.write_ok env t0 = true ->
  Host.rename_ok env t0 || Host.copy_ok env t0 = true ->
  (forall j, (j < i)%nat ->
     Host.updated (fst <$> Host.out_at env t0)
       (fst <$> Host.out_at env (t0 + Z.of_nat j * poll)) = false
     /\ Z.of_nat j * poll <= timeout) ->
  Host.out_at env (t0 + Z.of_nat i * poll) = Some (mt, o) ->
  Host.updated (fst <$> Host.out_at env t0) (Some mt) = true ->
  (forall j, (j < 10)%nat ->
     Host.updated (fst <$> Host.rc_at env t0)
       (fst <$> Host.rc_at env (t0 + Z.of_nat i * poll + 20 * Z.of_nat j))
     = false) ->
  Host.sendCommandAndWait env (i + S fuel) command timeout poll t0
  = Some (Host.mkRes (inr (Host.mkReply o None))
            (t0 + Z.of_nat i * poll + 200)
            (HostLogic.publish_calls env command t0
             ++ HostLogic.idle_turns i t0 poll
             ++ Host.HProbe Host.out_txt (t0 + Z.of_nat i * poll)
                :: Host.HProbe Host.rc_txt (t0 + Z.of_nat i * poll)
                :: Host.HRead Host.out_txt (t0 + Z.of_nat i * poll)
                :: HostLogic.grace_polls 10 (t0 + Z.of_nat i * poll))).
Proof.
  intros Hpoll Hw Hm Hidle Ho Hout Hrc.
  set (td := t0 + Z.of_nat i * poll) in *.
  assert (Hmax : Z.max 0 poll = poll) by lia.
  assert (H0 : Host.updated (fst <$> Host.rc_at env t0)
                 (fst <$> Host.rc_at env td) = false).
  { specialize (Hrc 0%nat ltac:(lia)).
    replace (td + 20 * Z.of_nat 0) with td in Hrc by lia. exact Hrc. }
  pose proof (HostFacts.grace_loop_idle env (fst <$> Host.rc_at env t0) 10
                Host.grace_fuel td
                ltac:(unfold Host.grace_fuel; lia) Hrc) as Hg.
  replace (td + 20 * Z.of_nat 10) with (td + 200) in Hg by lia.
  assert (Hhit := HostFacts.wait_loop_hit_grace env
                    (fst <$> Host.out_at env t0) (fst <$> Host.rc_at env t0)
                    t0 timeout poll fuel td mt o None (td + 200) _ Ho
                    ltac:(rewrite Ho; exact Hout) H0 Hg).
  assert (Hidle' : forall j, (j < i)%nat ->
            Host.updated (fst <$> Host.out_at env t0)
              (fst <$> Host.out_at env (t0 + Z.of_nat j * Z.max 0 poll))
            = false
            /\ t0 + Z.of_nat j * Z.max 0 poll - t0 <= timeout).
  { intros j Hj. rewrite Hmax. destruct (Hidle j Hj) as [H1 H2].
    split; [exact H1 | lia]. }
  rewrite HostFacts.send_published by assumption.
  unfold HostLogic.the_wait.
  rewrite (HostFacts.wait_loop_misses env _ _ t0 timeout poll i (S fuel) t0 _
             Hidle' ltac:(rewrite Hmax; exact Hhit)).
  reflexivity.
Qed.

Lemma missing_return_code_is_a_reply_witness :
  Host.sendCommandAndWait silent_rc_env (1 + 1) (str "dir") 5000 50 0
  = Some (Host.mkRes (inr (Host.mkReply (str "ok" ++ crlf) None))
            (0 + Z.of_nat 1 * 50 + 200)
            (HostLogic.publish_calls silent_rc_env (str "dir") 0
             ++ HostLogic.idle_turns 1 0 50
             ++ Host.HProbe Host.out_txt (0 + Z.of_nat 1 * 50)
                :: Host.HProbe Host.rc_txt (0 + Z.of_nat 1 * 50)
                :: Host.HRead Host.out_txt (0 + Z.of_nat 1 * 50)
                :: HostLogic.grace_polls 10 (0 + Z.of_nat 1 * 50))).
Proof.
  apply (missing_return_code_is_a_reply silent_rc_env 0 (str "dir") 5000 50
           0 1 1 (str "ok" ++ crlf)).
  - lia.
  - reflexivity.
  - reflexivity.
  - intros j Hj. assert (j = 0%nat) by lia. subst j. split; [reflexivity | lia].
  - reflexivity.
  - reflexivity.
  - intros j Hj. reflexivity.
Defined.

(* ===================================================================== *)
(** ** The exit status of the host *)
(* ===================================================================== *)

Module ExitFacts.
Import Chars Spec Host HostFacts HostLogic.

Section Exit.

Variable env : Env.
Variable fuel : nat.

Lemma main_status argv lines t :
  main env fuel argv lines t
  = match main_body env fuel argv lines t with
    | Some r =>
        Some (status_of r, now_after r,
              match outcome r with
              | inr _ => trace r
              | inl e =>
                  trace r ++ [HErr (str "mbxhost error: " ++ what e ++ [LF])]
              end)
    | None => None
    end.
Proof.
  unfold main, status_of. destruct (main_body env fuel argv lines t) as [r|];
    [| reflexivity].
  destruct (outcome r); reflexivity.
Qed.

(** The one-shot mode: with a reply, the status is its return code, or 0
    when it has none. *)
Lemma one_shot_status prog dir opts lines cmd timeout t t1 tr1 r reply :
  dir_exists env = true ->
  parse_args opts None 5000 t
  = Some (mkRes (inr (inr (Some cmd, timeout))) t1 tr1) ->
  sendCommandAndWait env fuel cmd timeout 50 t1 = Some r ->
  outcome r = inr reply ->
  exists rb,
    main_body env fuel (prog :: dir :: opts) lines t = Some rb
    /\ outcome rb = inr (default 0 (rc reply)).
Proof.
  intros Hdir Hargs Hsend Hreply. unfold main_body. rewrite Hdir.
  unfold hbind at 1. rewrite Hargs. cbn [outcome now_after trace].
  unfold hbind at 1. rewrite Hsend, Hreply. cbn [outcome now_after trace].
  destruct (rc reply) as [v|]; eexists; split; reflexivity.
Qed.

(** The interactive mode: the status is 0 unless an exception ends the
    session. *)
Lemma interactive_status prog dir opts lines timeout t t1 tr1 rb :
  dir_exists env = true ->
  parse_args opts None 5000 t
  = Some (mkRes (inr (inr (None, timeout))) t1 tr1) ->
  main_body env fuel (prog :: dir :: opts) lines t = Some rb ->
  status_of rb = 0 \/ (exists e, outcome rb = inl e) /\ status_of rb = 1.
Proof.
  intros Hdir Hargs. unfold main_body. rewrite Hdir.
  unfold hbind at 1. rewrite Hargs. cbn [outcome now_after trace].
  intros H. unfold status_of.
  match type of H with
  | match ?x with _ => _ end = _ => destruct x as [r|] eqn:E
  end; [| discriminate H].
  injection H as <-. cbn [outcome].
  apply hbind_inv in E
    as (r1 & _ & [(e & _ & ->)|(a & r2 & _ & E2 & ->)]);
    cbn [outcome]; [right; eauto |].
  apply hbind_inv in E2
    as (r3 & _ & [(e & _ & ->)|(a3 & r4 & _ & E4 & ->)]);
    cbn [outcome]; [right; eauto |].
  injection E4 as <-. left. reflexivity.
Qed.

End Exit.

End ExitFacts.

(** C9, as stated, fails in interactive mode: a session in which the one
    command sent came back with return code 3 ends with status 0. *)
Lemma interactive_exit_status_ignores_return_code :
  exists r reply t tr,
    Host.sendCommandAndWait rc3_env 200 (str "dir") 5000 50 0 = Some r
    /\ Host.outcome r = inr reply
    /\ Host.rc reply = Some 3
    /\ Host.main rc3_env 200 [str "mbxhost"; str "shared"] [str "dir"] 0
       = Some (0, t, tr).
Proof.
  eexists _, _, _, _. split; [vm_compute; reflexivity |].
  split; [reflexivity |]. split; [reflexivity |].
  vm_compute. reflexivity.
Qed.

(** C9, amended. In one-shot mode the exit status is the return code of
    the reply, and 0 when the reply has none.  In interactive mode the
    exit status does not depend on the return codes observed: it is 0,
    unless an exception ended the session, in which case (as in one-shot
    mode) it is 1. *)
Theorem exit_status_of_each_mode (env : Host.Env) (fuel : nat)
  (prog dir : text) (opts lines : list text) (t : Z) :
  Host.dir_exists env = true ->
  (forall cmd timeout t1 tr1 r reply,
      Host.parse_args opts None 5000 t
      = Some (Host.mkRes (inr (inr (Some cmd, timeout))) t1 tr1) ->
      Host.sendCommandAndWait env fuel cmd timeout 50 t1 = Some r ->
      Host.outcome r = inr reply ->
      exists t' tr',
        Host.main env fuel (prog :: dir :: opts) lines t
        = Some (default 0 (Host.rc reply), t', tr'))
  /\ (forall timeout t1 tr1 status t' tr',
        Host.parse_args opts None 5000 t
        = Some (Host.mkRes (inr (inr (None, timeout))) t1 tr1) ->
        Host.main env fuel (prog :: dir :: opts) lines t
        = Some (status, t', tr') ->
        status = 0
        \/ (status = 1
            /\ exists e calls,
                 tr' = calls ++ [Host.HErr (str "mbxhost error: "
                                            ++ Host.what e ++ [LF])])).
Proof.
  intros Hdir. split.
  - intros cmd timeout t1 tr1 r reply Hargs Hsend Hreply.
    destruct (ExitFacts.one_shot_status env fuel prog dir opts lines cmd
                timeout t t1 tr1 r reply Hdir Hargs Hsend Hreply)
      as (rb & Hb & Ho).
    rewrite ExitFacts.main_status, Hb. unfold HostLogic.status_of.
    rewrite Ho. eauto.
  - intros timeout t1 tr1 status t' tr' Hargs Hmain.
    rewrite ExitFacts.main_status in Hmain.
    destruct (Host.main_body env fuel (prog :: dir :: opts) lines t)
      as [rb|] eqn:Hb; [| discriminate Hmain].
    injection Hmain as <- _ <-.
    destruct (ExitFacts.interactive_status env fuel prog dir opts lines
                timeout t t1 tr1 rb Hdir Hargs Hb) as [H|[[e He] H]];
      [left; exact H | right].
    split; [exact H |]. rewrite He. eauto.
Qed.

Lemma exit_status_of_each_mode_witness :
  (exists t' tr',
     Host.main rc3_env 200
       [str "mbxhost"; str "shared"; str "--cmd"; str "dir"] [] 0
     = Some (3, t', tr'))
  /\ (forall status t' tr',
        Host.main rc3_env 200 [str "mbxhost"; str "shared"] [str "dir"] 0
        = Some (status, t', tr') ->
        status = 0
        \/ (status = 1
            /\ exists e calls,
                 tr' = calls ++ [Host.HErr (str "mbxhost error: "
                                            ++ Host.what e ++ [LF])])).
Proof.
  split.
  - destruct (exit_status_of_each_mode rc3_env 200 (str "mbxhost")
                (str "shared") [str "--cmd"; str "dir"] [] 0 eq_refl)
      as [Hone _].
    refine (Hone (str "dir") 5000 0 [] _ (Host.mkReply (str "ok" ++ crlf) (Some 3))
              _ _ _).
    + vm_compute. reflexivity.
    + vm_compute. reflexivity.
    + reflexivity.
  - destruct (exit_status_of_each_mode rc3_env 200 (str "mbxhost")
                (str "shared") [] [str "dir"] 0 eq_refl) as [_ Hrepl].
    intros status t' tr'. apply (Hrepl 5000 0 []). reflexivity.
Defined.

(* ===================================================================== *)
(** ** Writes to published names *)
(* ===================================================================== *)

Module StagingFacts.
Import Chars Spec Guest GuestFacts GuestPaths PayloadFacts PublishFacts
  GuestLogic HostLogic.

Lemma basic_staged_or_rc_fallback e :
  basic e = true -> staged_or_rc_fallback e = true.
Proof.
  unfold basic. intros H. apply andb_true_iff in H as [_ H].
  destruct e; simpl in *; try reflexivity; rewrite H; reflexivity.
Qed.

Lemma basic_staged e :
  basic e = true -> negb (guest_writes_published e) = true.
Proof. unfold basic. intros H. apply andb_true_iff in H. tauto. Qed.

Section Staging.

Variable system : text -> gmap string text -> gmap string text * Z.
Variable idle : Z.

Section AnyCalls.

Variable P : Event -> bool.
Hypothesis P_basic : forall e, basic e = true -> P e = true.
Hypothesis P_exec : forall c, P (EvExec c) = true.
Hypothesis P_rc : P (EvOpenW RC_TXT) = true.

Lemma quiet_process_cmd_run : quiet P (process_cmd_run system idle).
Proof.
  unfold process_cmd_run. quiet_calls P_basic.
  all: first [ apply quiet_exec_job_to_out; assumption
             | apply quiet_publish_results; assumption ].
Qed.

Lemma quiet_tick : quiet P (tick system idle).
Proof.
  unfold tick. quiet_calls P_basic. apply quiet_process_cmd_run.
Qed.

End AnyCalls.

Lemma quiet_publish_out P sys_rc :
  (forall e, basic e = true -> P e = true) -> quiet P (publish_out sys_rc).
Proof.
  intros HP. unfold publish_out.
  repeat
    lazymatch goal with
    | |- quiet _ (ret _) => apply quiet_ret
    | |- quiet _ (bind _ _) => apply quiet_bind; [| intros ?]
    | |- quiet _ (file_exists _) => apply quiet_file_exists
    | |- quiet _ (remove _) => apply quiet_remove; exact HP
    | |- quiet _ (rename _ _) => apply quiet_rename; exact HP
    | |- quiet _ (fopen_wt _) => apply quiet_fopen_wt; [exact HP | reflexivity]
    | |- quiet _ (fprint _ _) => apply quiet_fprint
    | |- quiet _ (log_line _) => apply quiet_log_line; exact HP
    | |- quiet _ (ask _) => apply quiet_ask
    | |- quiet _ (match ?x with _ => _ end) => destruct x
    end.
Qed.

(** With a staged return code, [publish_results] writes through the
    staging names only. *)
Lemma publish_results_staged_only sys_rc w r :
  files w !! RC_NEW = Some r ->
  guest_staged_only (evs (publish_results sys_rc w)) = true.
Proof.
  intros H. rewrite publish_results_halves, evs_bind.
  unfold guest_staged_only. rewrite forallb_app.
  rewrite (quiet_publish_out _ sys_rc basic_staged w).
  pose proof (publish_out_keeps sys_rc RC_NEW ltac:(discriminate)
                ltac:(discriminate) ltac:(discriminate) w) as Hk.
  unfold same_file in Hk. rewrite <- Hk in H.
  destruct (publish_rc_staged _ r H) as [_ ->]. reflexivity.
Qed.

End Staging.

(** *** The host *)

Import Host HostFacts.

Lemma passive_staged e :
  passive e = true -> negb (host_writes_published e) = true.
Proof. destruct e; simpl; intros H; try discriminate H; reflexivity. Qed.

Lemma send_staged_only env fuel command timeout poll t r :
  sendCommandAndWait env fuel command timeout poll t = Some r ->
  rename_ok env t = true ->
  host_staged_only (trace r) = true.
Proof.
  intros Hs Hr.
  destruct (write_ok env t) eqn:Hw.
  - rewrite send_published in Hs by (try assumption; rewrite Hr; reflexivity).
    unfold the_wait in Hs.
    destruct (wait_loop _ _ _ _ _ _ _ _) as [rw|] eqn:Ew; [| discriminate Hs].
    injection Hs as <-. cbn [trace]. unfold host_staged_only.
    pose proof (calls_wait_loop env
                  (fun e => negb (host_writes_published e)) passive_staged
                  _ _ _ _ _ _ _ _ Ew) as Hwl.
    rewrite Hr. cbn [app forallb]. rewrite Hwl. reflexivity.
  - rewrite send_write_fails in Hs by assumption.
    injection Hs as <-. reflexivity.
Qed.

End StagingFacts.

(** C4, as the specification has it, fails: when the job leaves no
    RC.NEW, the guest opens the published name RC.TXT for writing. *)
Lemma guest_writes_rc_txt_directly :
  guest_staged_only
    (Guest.evs (Guest.tick failing_shell 100 failed_job_world)) = false
  /\ In (Guest.EvOpenW Guest.RC_TXT)
       (Guest.evs (Guest.tick failing_shell 100 failed_job_world)).
Proof. split; [vm_compute; reflexivity | vm_compute; tauto]. Qed.

(** C4, amended. The guest opens no published name for writing, with one
    exception: the fallback of [publish_results], which writes RC.TXT
    directly and is only taken when the job staged no return code (with
    RC.NEW present the results are published through the staging names
    alone).  The host writes the command to the staging name and renames
    it: as long as the rename goes through, no write and no copy lands
    on a published name. *)
Theorem published_names_are_staged_but_rc_fallback
  (system : text -> gmap string text -> gmap string text * Z)
  (idle sys_rc : Z) (w : Guest.World) (r : text)
  (env : Host.Env) (fuel : nat) (command : text) (timeout poll t : Z)
  (res : Host.Res Host.Reply) :
  forallb GuestLogic.staged_or_rc_fallback
          (Guest.evs (Guest.tick system idle w)) = true
  /\ guest_staged_only (Guest.evs (Guest.startup w)) = true
  /\ (Guest.files w !! Guest.RC_NEW = Some r ->
      guest_staged_only (Guest.evs (Guest.publish_results sys_rc w)) = true)
  /\ (Host.sendCommandAndWait env fuel command timeout poll t = Some res ->
      Host.rename_ok env t = true ->
      host_staged_only (Host.trace res) = true).
Proof.
  split; [| split; [| split]].
  - apply StagingFacts.quiet_tick.
    + apply StagingFacts.basic_staged_or_rc_fallback.
    + reflexivity.
    + reflexivity.
  - apply (GuestFacts.quiet_startup _ StagingFacts.basic_staged).
  - apply StagingFacts.publish_results_staged_only.
  - apply StagingFacts.send_staged_only.
Qed.

Lemma published_names_are_staged_but_rc_fallback_witness :
  guest_staged_only
    (Guest.evs (Guest.publish_results 0 staged_rc_world)) = true
  /\ (forall res,
        Host.sendCommandAndWait late_env 10 (str "dir") 100 50 0 = Some res ->
        host_staged_only (Host.trace res) = true).
Proof.
  split.
  - destruct (published_names_are_staged_but_rc_fallback idle_shell 100 0
                staged_rc_world (str "0 " ++ crlf) late_env 10 (str "dir")
                100 50 0 (Host.mkRes (inl Host.TimeoutWaiting) 0 []))
      as (_ & _ & Hg & _).
    apply Hg. reflexivity.
  - intros res Hres.
    destruct (published_names_are_staged_but_rc_fallback idle_shell 100 0
                staged_rc_world (str "0 " ++ crlf) late_env 10 (str "dir")
                100 50 0 res) as (_ & _ & _ & Hh).
    apply Hh; [exact Hres | reflexivity].
Defined.

(* ===================================================================== *)
(** ** Further properties of the guest: texts *)
(* ===================================================================== *)

Module TextFacts.
Import Chars Spec CharsFacts Guest GuestLogic DirectiveFacts.

#[local] Arguments Ascii.eqb : simpl never.

Lemma skip_while_head (p : ascii -> bool) (s : text) c r :
  skip_while p s = c :: r -> p c = false.
Proof.
  induction s as [|x s IH]; simpl; [discriminate|].
  destruct (p x) eqn:E; [exact IH|]. intros [= <- _]. exact E.
Qed.

Lemma chop_while_last (p : ascii -> bool) (s : text) c r :
  chop_while p s = r ++ [c] -> p c = false.
Proof.
  unfold chop_while. intros H.
  apply (f_equal (@rev ascii)) in H.
  rewrite rev_involutive, rev_app_distr in H. simpl in H.
  eapply skip_while_head, H.
Qed.

Lemma chop_while_keeps_head (p : ascii -> bool) c (s : text) :
  p c = false -> exists r, chop_while p (c :: s) = c :: r.
Proof.
  intros Hc. destruct (chop_while_split p (c :: s)) as (suf & E & Hs).
  destruct (chop_while p (c :: s)) as [|x r].
  - simpl in E. subst suf. simpl in Hs. rewrite Hc in Hs. discriminate.
  - injection E as <- _. eauto.
Qed.

Lemma trim_head s c r : trim s = c :: r -> isspace c = false.
Proof.
  unfold trim. intros H.
  destruct (chop_while_split isspace (skip_while isspace s)) as (suf & E & _).
  rewrite H in E. eapply skip_while_head. exact E.
Qed.

Lemma trim_last s c r : trim s = r ++ [c] -> isspace c = false.
Proof. unfold trim. apply chop_while_last. Qed.

Lemma trim_clean s c r1 c' r2 :
  s = c :: r1 -> s = r2 ++ [c'] -> isspace c = false -> isspace c' = false ->
  trim s = s.
Proof.
  intros E1 E2 H1 H2. unfold trim.
  rewrite E1, (skip_while_stop _ _ _ H1), <- E1, E2.
  apply chop_while_stop, H2.
Qed.

Lemma trim_trim s : trim (trim s) = trim s.
Proof.
  destruct (trim s) as [|c r] eqn:E; [reflexivity|].
  destruct (exists_last (l := c :: r) ltac:(discriminate)) as (r2 & c' & E2).
  eapply trim_clean; [reflexivity | exact E2 | |].
  - eapply trim_head, E.
  - eapply trim_last. rewrite E. exact E2.
Qed.

(** *** [stricmp] *)

Lemma code_inj a b : code a = code b -> a = b.
Proof.
  unfold code. intros H. apply N2Z.inj in H.
  rewrite <- (ascii_N_embedding a), <- (ascii_N_embedding b), H. reflexivity.
Qed.

Lemma tolower_not_nul c :
  negb (Ascii.eqb c NUL) = true -> code (tolower c) <> 0.
Proof.
  intros H. apply negb_true_iff, Ascii.eqb_neq in H.
  unfold tolower. destruct (_ && _) eqn:E.
  - apply andb_true_iff in E as [E1 E2]. apply Z.leb_le in E1, E2.
    unfold code at 1. rewrite N_ascii_embedding.
    + lia.
    + unfold code in *. lia.
  - intros Hc. apply H, code_inj. exact Hc.
Qed.

Lemma stricmp_zero (a b : text) :
  is_text a = true -> is_text b = true ->
  stricmp a b = 0 -> map tolower a = map tolower b.
Proof.
  revert b. induction a as [|x a IH]; intros [|y b] Ha Hb H; simpl in *.
  - reflexivity.
  - apply andb_true_iff in Hb as [Hy _].
    pose proof (tolower_not_nul y Hy). lia.
  - apply andb_true_iff in Ha as [Hx _].
    pose proof (tolower_not_nul x Hx). lia.
  - apply andb_true_iff in Ha as [Hx Ha], Hb as [Hy Hb].
    destruct (code (tolower x) - code (tolower y) =? 0) eqn:E.
    + apply Z.eqb_eq in E. f_equal.
      * apply code_inj. lia.
      * apply IH; assumption.
    + apply Z.eqb_neq in E. contradiction.
Qed.

Lemma is_exit_cmd_words s :
  is_text s = true ->
  is_exit_cmd s = true ->
  spec_same_word s (str "EXIT") \/ spec_same_word s (str "QUIT").
Proof.
  intros Hs H. unfold is_exit_cmd in H. apply orb_true_iff in H.
  destruct H as [H|H]; apply Z.eqb_eq in H; [left | right];
    apply stricmp_zero; auto.
Qed.

(** *** [timestamp] *)

Lemma fmt_0u_2 n : Z.of_nat n < 100 -> length (fmt_0u 2 n) = 2%nat.
Proof.
  intros H.
  assert (Hall : forallb (fun n => Nat.eqb (length (fmt_0u 2 n)) 2)
                   (seq 0 (Z.to_nat 100)) = true) by (vm_compute; reflexivity).
  rewrite forallb_forall in Hall.
  apply Nat.eqb_eq, Hall, in_seq. lia.
Qed.

Lemma fmt_0u_4 n : Z.of_nat n < 10000 -> length (fmt_0u 4 n) = 4%nat.
Proof.
  intros H.
  assert (Hall : forallb (fun n => Nat.eqb (length (fmt_0u 4 n)) 4)
                   (seq 0 (Z.to_nat 10000)) = true) by (vm_compute; reflexivity).
  rewrite forallb_forall in Hall.
  apply Nat.eqb_eq, Hall, in_seq. lia.
Qed.

Lemma timestamp_length d :
  Z.of_nat (year d) < 10000 -> Z.of_nat (month d) < 100 ->
  Z.of_nat (day d) < 100 -> Z.of_nat (hour d) < 100 ->
  Z.of_nat (minute d) < 100 -> Z.of_nat (second d) < 100 ->
  length (timestamp d) = 19%nat.
Proof.
  intros Hy Hm Hd Hh Hi Hs. unfold timestamp.
  rewrite !length_app, fmt_0u_4, !fmt_0u_2 by assumption. reflexivity.
Qed.

(** *** [logf2] *)

Lemma firstn_app_cut {A} (n : nat) (a b : list A) :
  firstn n a ++ firstn (n - length (firstn n a)) b = firstn n (a ++ b).
Proof.
  rewrite firstn_app. f_equal. rewrite length_firstn.
  destruct (Nat.le_gt_cases n (length a)).
  - replace (n - Nat.min n (length a))%nat with 0%nat by lia.
    replace (n - length a)%nat with 0%nat by lia. reflexivity.
  - f_equal. lia.
Qed.

End TextFacts.

(** X1. [trim] removes white space only, from the two ends, and all of
    it: the text is the result between two runs of white space, the
    result neither starts nor ends with white space, and trimming again
    changes nothing. *)
Theorem trim_strips_both_ends (s : text) :
  (exists pre suf, s = pre ++ trim s ++ suf
     /\ forallb isspace pre = true /\ forallb isspace suf = true)
  /\ (forall c r, trim s = c :: r -> isspace c = false)
  /\ (forall c r, trim s = r ++ [c] -> isspace c = false)
  /\ trim (trim s) = trim s.
Proof.
  split; [apply DirectiveFacts.trim_split |].
  split; [apply TextFacts.trim_head |].
  split; [apply TextFacts.trim_last |].
  apply TextFacts.trim_trim.
Qed.

(** X2. [is_exit_cmd] holds of a C string exactly when it reads EXIT or
    QUIT in some letter case: no longer or shorter word stops the
    server. *)
Theorem is_exit_cmd_exactly_exit_or_quit (s : text) :
  is_text s = true ->
  (Guest.is_exit_cmd s = true <->
   spec_same_word s (str "EXIT") \/ spec_same_word s (str "QUIT")).
Proof.
  intros Hs. split.
  - apply TextFacts.is_exit_cmd_words, Hs.
  - apply DirectiveFacts.is_exit_cmd_same_word.
Qed.

Lemma is_exit_cmd_exactly_exit_or_quit_witness :
  Guest.is_exit_cmd (str "Quit") = true <->
  spec_same_word (str "Quit") (str "EXIT")
  \/ spec_same_word (str "Quit") (str "QUIT").
Proof.
  apply (is_exit_cmd_exactly_exit_or_quit (str "Quit")). reflexivity.
Defined.

(** X3. [timestamp] writes exactly 19 characters for a date whose year has
    at most four digits and whose other fields have at most two. *)
Theorem timestamp_has_19_characters (d : Guest.DosStamp) :
  Z.of_nat (Guest.year d) < 10000 -> Z.of_nat (Guest.month d) < 100 ->
  Z.of_nat (Guest.day d) < 100 -> Z.of_nat (Guest.hour d) < 100 ->
  Z.of_nat (Guest.minute d) < 100 -> Z.of_nat (Guest.second d) < 100 ->
  length (Guest.timestamp d) = 19%nat.
Proof. apply TextFacts.timestamp_length. Qed.

Lemma timestamp_has_19_characters_witness :
  length (Guest.timestamp (Guest.mkStamp 2024 1 2 3 4 5)) = 19%nat.
Proof.
  apply (timestamp_has_19_characters (Guest.mkStamp 2024 1 2 3 4 5));
    simpl; lia.
Defined.

(** X4. [logf2] logs its two arguments joined and cut to 255
    characters. *)
Theorem logf2_cuts_at_255 (a b : text) (w : Guest.World) :
  Guest.logf2 a b w = Guest.log_line (firstn 255 (c_str a ++ c_str b)) w.
Proof.
  unfold Guest.logf2. cbv zeta. rewrite TextFacts.firstn_app_cut. reflexivity.
Qed.

(* ===================================================================== *)
(** ** Further properties of the guest: the directive *)
(* ===================================================================== *)

Module LineFacts.
Import Chars Spec CharsFacts Guest GuestLogic GuestFacts DirectiveFacts
  PayloadFacts.

#[local] Arguments Ascii.eqb : simpl never.

Lemma fgets_all_nil cap : fgets_all cap [] = [].
Proof. reflexivity. Qed.

(** The buffers of the successive [fgets] calls make up the stream. *)
Lemma fgets_all_concat cap : (2 <= cap)%nat ->
  forall s, concat (fgets_all cap s) = s.
Proof.
  intros Hcap s.
  remember (length s) as k eqn:Hk. revert s Hk.
  induction k as [k IH] using lt_wf_ind. intros s Hk.
  destruct s as [|c s]; [reflexivity|].
  rewrite fgets_all_step by (auto; discriminate).
  simpl concat.
  pose proof (fgets_aux_shorter (cap - 2) c s) as Hlt.
  replace (S (cap - 2)) with (cap - 1)%nat in Hlt by lia.
  rewrite (IH (length (snd (fgets_aux (cap - 1) (c :: s))))) by lia.
  apply fgets_aux_app.
Qed.

Lemma fgets_aux_length n : forall s, (length (fst (fgets_aux n s)) <= n)%nat.
Proof.
  induction n as [|n IH]; intros s; [simpl; lia|].
  destruct s as [|c s]; [simpl; lia|].
  rewrite fgets_aux_cons. destruct (Ascii.eqb c LF); simpl; [lia|].
  specialize (IH s). lia.
Qed.

Lemma fgets_all_in cap : (2 <= cap)%nat ->
  forall s buf, In buf (fgets_all cap s) ->
    (length buf <= cap - 1)%nat
    /\ (is_text s = true -> is_text buf = true)
    /\ (spec_blank s = true -> spec_blank buf = true).
Proof.
  intros Hcap s.
  remember (length s) as k eqn:Hk. revert s Hk.
  induction k as [k IH] using lt_wf_ind. intros s Hk buf Hin.
  destruct s as [|c s]; [destruct Hin|].
  rewrite fgets_all_step in Hin by (auto; discriminate).
  pose proof (fgets_aux_shorter (cap - 2) c s) as Hlt.
  replace (S (cap - 2)) with (cap - 1)%nat in Hlt by lia.
  pose proof (fgets_aux_app (cap - 1) (c :: s)) as Happ.
  destruct Hin as [<- | Hin].
  - split; [apply fgets_aux_length |].
    split; intros H; rewrite <- Happ in H; unfold is_text, spec_blank in *;
      rewrite forallb_app in H; apply andb_true_iff in H; tauto.
  - destruct (IH (length (snd (fgets_aux (cap - 1) (c :: s))))
                ltac:(lia) _ eq_refl _ Hin) as (H1 & H2 & H3).
    split; [exact H1 |].
    split; intros H; [apply H2 | apply H3]; rewrite <- Happ in H;
      unfold is_text, spec_blank in *;
      rewrite forallb_app in H; apply andb_true_iff in H; tauto.
Qed.

Lemma blank_concat (ls : list text) :
  (forall l, In l ls -> spec_blank l = true) -> spec_blank (concat ls) = true.
Proof.
  induction ls as [|l ls IH]; intros H; [reflexivity|].
  simpl. unfold spec_blank in *. rewrite forallb_app.
  rewrite (H l (or_introl eq_refl)), IH; [reflexivity|].
  intros x Hx. apply H. right. exact Hx.
Qed.

Lemma first_nonempty_some bufs l :
  first_nonempty bufs = Some l ->
  exists buf, In buf bufs /\ clean_line buf = l /\ l <> [].
Proof.
  induction bufs as [|b bufs IH]; simpl; [discriminate|].
  destruct (clean_line b) as [|x r] eqn:E.
  - intros H. destruct (IH H) as (buf & Hin & Hc & Hn). eauto.
  - intros [= <-]. exists b. split; [auto | split; [exact E | discriminate]].
Qed.

Lemma first_nonempty_none bufs :
  first_nonempty bufs = None <->
  (forall buf, In buf bufs -> clean_line buf = []).
Proof.
  induction bufs as [|b bufs IH]; simpl.
  - split; [intros _ buf [] | reflexivity].
  - destruct (clean_line b) as [|x r] eqn:E.
    + rewrite IH. split.
      * intros H buf [<- | Hin]; auto.
      * intros H buf Hin. apply H. auto.
    + split; [discriminate|]. intros H.
      specialize (H b (or_introl eq_refl)). congruence.
Qed.

Lemma c_str_length buf : (length (c_str buf) <= length buf)%nat.
Proof.
  induction buf as [|c buf IH]; simpl; [lia|].
  destruct (Ascii.eqb c NUL); simpl; lia.
Qed.

Lemma c_str_is_text buf : is_text (c_str buf) = true.
Proof.
  induction buf as [|c buf IH]; simpl; [reflexivity|].
  destruct (Ascii.eqb c NUL) eqn:E; simpl; [reflexivity|].
  rewrite E. exact IH.
Qed.

Lemma chop_while_length (p : ascii -> bool) s :
  (length (chop_while p s) <= length s)%nat.
Proof.
  destruct (chop_while_split p s) as (suf & E & _).
  rewrite E at 2. rewrite length_app. lia.
Qed.

Lemma trim_length s : (length (trim s) <= length s)%nat.
Proof.
  destruct (trim_split s) as (pre & suf & E & _).
  rewrite E at 2. rewrite !length_app. lia.
Qed.

Lemma trim_is_text s : is_text s = true -> is_text (trim s) = true.
Proof.
  intros H. destruct (trim_split s) as (pre & suf & E & _).
  rewrite E in H. unfold is_text in *.
  rewrite !forallb_app in H.
  apply andb_true_iff in H as [_ H]. apply andb_true_iff in H as [H _].
  exact H.
Qed.

Lemma clean_line_length buf : (length (clean_line buf) <= length buf)%nat.
Proof.
  unfold clean_line.
  pose proof (trim_length (chop_while is_eol (c_str buf))).
  pose proof (chop_while_length is_eol (c_str buf)).
  pose proof (c_str_length buf). lia.
Qed.

Lemma clean_line_is_text buf : is_text (clean_line buf) = true.
Proof.
  unfold clean_line. apply trim_is_text.
  apply forallb_chop_while, c_str_is_text.
Qed.

Lemma clean_line_nil buf :
  is_text buf = true -> (clean_line buf = [] <-> spec_blank buf = true).
Proof.
  intros Ht. unfold clean_line. rewrite (c_str_text _ Ht), trim_chop_eol.
  split.
  - intros H. destruct (spec_blank buf) eqn:E; [reflexivity|].
    destruct (trim_nonblank _ E H).
  - apply trim_blank.
Qed.

(** On a text, no directive is found exactly when every character is
    white space. *)
Lemma first_nonempty_blank cap c :
  (2 <= cap)%nat -> is_text c = true ->
  (first_nonempty (fgets_all cap c) = None <-> spec_blank c = true).
Proof.
  intros Hcap Ht. rewrite first_nonempty_none. split.
  - intros H. rewrite <- (fgets_all_concat cap Hcap c).
    apply blank_concat. intros l Hl.
    destruct (fgets_all_in cap Hcap c l Hl) as (_ & H2 & _).
    apply clean_line_nil; auto.
  - intros Hb buf Hin.
    destruct (fgets_all_in cap Hcap c buf Hin) as (_ & H2 & H3).
    apply clean_line_nil; auto.
Qed.

(** A file that is not there. *)
Lemma read_first_nonempty_line_missing w fs p n :
  fs !! p = None ->
  read_first_nonempty_line p n (with_files fs w)
  = mkOut None (with_files fs w) [EvOpenR p].
Proof.
  intros H. unfold read_first_nonempty_line.
  erewrite run_bind;
    [| apply fopen_rt_run | rewrite H; cbv beta iota; apply run_ret].
  reflexivity.
Qed.

End LineFacts.

(** X5. [read_first_nonempty_line] finds no line when the file is
    missing, and on a text file it finds none exactly when the file holds
    white space only. *)
Theorem no_directive_iff_blank (w : Guest.World) (p : string) (n : nat) :
  (2 <= n)%nat ->
  match Guest.files w !! p with
  | None => Guest.val (Guest.read_first_nonempty_line p n w) = None
  | Some c =>
      is_text c = true ->
      (Guest.val (Guest.read_first_nonempty_line p n w) = None
       <-> spec_blank c = true)
  end.
Proof.
  intros Hn. destruct (Guest.files w !! p) as [c|] eqn:E.
  - intros Ht.
    pose proof (GuestPaths.read_first_nonempty_line_run w (Guest.files w)
                  p n c E) as Hrun.
    rewrite GuestFacts.with_files_id in Hrun. rewrite Hrun.
    cbn [Guest.val]. apply LineFacts.first_nonempty_blank; assumption.
  - pose proof (LineFacts.read_first_nonempty_line_missing w
                  (Guest.files w) p n E) as Hrun.
    rewrite GuestFacts.with_files_id in Hrun. rewrite Hrun. reflexivity.
Qed.

Lemma no_directive_iff_blank_witness :
  match Guest.files blank_world !! Guest.CMD_TXT with
  | None =>
      Guest.val (Guest.read_first_nonempty_line Guest.CMD_TXT 512 blank_world)
      = None
  | Some c =>
      is_text c = true ->
      (Guest.val (Guest.read_first_nonempty_line Guest.CMD_TXT 512 blank_world)
       = None
       <-> spec_blank c = true)
  end.
Proof.
  apply (no_directive_iff_blank blank_world Guest.CMD_TXT 512). lia.
Defined.

(** X6. The line [read_first_nonempty_line] returns is not empty, fits the
    buffer with its terminator, holds no NUL, and has no white space at
    either end. *)
Theorem directive_is_a_trimmed_line (w : Guest.World) (p : string) (n : nat)
  (l : text) :
  (2 <= n)%nat ->
  Guest.val (Guest.read_first_nonempty_line p n w) = Some l ->
  l <> [] /\ (length l < n)%nat /\ is_text l = true /\ trim l = l.
Proof.
  intros Hn H.
  destruct (Guest.files w !! p) as [c|] eqn:E.
  - pose proof (GuestPaths.read_first_nonempty_line_run w (Guest.files w)
                  p n c E) as Hrun.
    rewrite GuestFacts.with_files_id in Hrun. rewrite Hrun in H.
    cbn [Guest.val] in H.
    destruct (LineFacts.first_nonempty_some _ _ H) as (buf & Hin & Hl & Hne).
    destruct (LineFacts.fgets_all_in n Hn c buf Hin) as (Hlen & _ & _).
    pose proof (LineFacts.clean_line_length buf) as Hcl.
    subst l. split; [exact Hne |]. split; [lia |].
    split; [apply LineFacts.clean_line_is_text |].
    unfold Guest.clean_line. apply TextFacts.trim_trim.
  - pose proof (LineFacts.read_first_nonempty_line_missing w
                  (Guest.files w) p n E) as Hrun.
    rewrite GuestFacts.with_files_id in Hrun. rewrite Hrun in H.
    discriminate.
Qed.

Lemma directive_is_a_trimmed_line_witness :
  Guest.val (Guest.read_first_nonempty_line Guest.CMD_RUN 512 padded_world)
  = Some (str "dir")
  /\ (str "dir" <> [] /\ (length (str "dir") < 512)%nat
      /\ is_text (str "dir") = true /\ trim (str "dir") = str "dir").
Proof.
  split; [reflexivity |].
  apply (directive_is_a_trimmed_line padded_world Guest.CMD_RUN 512 (str "dir"));
    [lia | reflexivity].
Defined.

(* ===================================================================== *)
(** ** Further properties of the guest: the slots *)
(* ===================================================================== *)

Module SlotFacts.
Import Chars Spec Guest GuestLogic GuestFacts GuestPaths.

Lemma write_text_atomic_refused_run w fs temp final txt :
  can_write w temp = false ->
  write_text_atomic temp final txt (with_files fs w)
  = mkOut false (with_files (delete temp fs) w) [EvRemove temp; EvOpenW temp].
Proof.
  intros Hw. unfold write_text_atomic.
  change [EvRemove temp; EvOpenW temp]
    with ([EvRemove temp] ++ [EvOpenW temp] ++ []).
  step.
  step_with ltac:(apply fopen_wt_run_fail; exact Hw).
  apply run_ret.
Qed.

Lemma set_status_refused_run w fs st :
  can_write w STA_NEW = false ->
  set_status st (with_files fs w)
  = mkOut tt
      (with_files (logged w (str "WARN: failed to write STA.TXT")
                     (delete STA_NEW fs)) w)
      [EvRemove STA_NEW; EvOpenW STA_NEW; EvOpenA LOG_TXT].
Proof.
  intros Hw. unfold set_status.
  change [EvRemove STA_NEW; EvOpenW STA_NEW; EvOpenA LOG_TXT]
    with ([EvRemove STA_NEW; EvOpenW STA_NEW] ++ [EvOpenA LOG_TXT]).
  step_with ltac:(apply write_text_atomic_refused_run; exact Hw).
  apply log_line_run.
Qed.

Lemma set_status_twice w fs a b :
  can_write w STA_NEW = true ->
  post ((set_status a >> set_status b) (with_files fs w))
  = post (set_status b (with_files fs w)).
Proof.
  intros Hw.
  erewrite (run_bind (set_status a));
    [ | apply set_status_run; exact Hw
      | cbv beta; apply set_status_run; exact Hw ].
  rewrite (set_status_run w fs b Hw). cbn [post].
  unfold with_files. f_equal. apply map_eq. intros p.
  destruct (decide (p = STA_TXT)) as [->|H1].
  - rewrite !lookup_insert_eq. reflexivity.
  - rewrite !lookup_insert_ne by congruence.
    destruct (decide (p = STA_NEW)) as [->|H2].
    + rewrite !lookup_delete_eq. reflexivity.
    + rewrite !lookup_delete_ne, lookup_insert_ne, lookup_delete_ne
        by congruence.
      reflexivity.
Qed.

Lemma claim_cmd_run_present w fs c :
  fs !! CMD_TXT = Some c ->
  claim_cmd (with_files fs w)
  = mkOut true
      (with_files (<[CMD_RUN := c]> (delete CMD_TXT (delete CMD_RUN fs))) w)
      [EvRemove CMD_RUN; EvRename CMD_TXT CMD_RUN].
Proof.
  intros H. unfold claim_cmd.
  change [EvRemove CMD_RUN; EvRename CMD_TXT CMD_RUN]
    with ([EvRemove CMD_RUN] ++ [] ++ [EvRename CMD_TXT CMD_RUN] ++ []).
  step. simpl claim_tries. step. look. rewrite H, present_some.
  cbv beta iota.
  step_with ltac:(eapply rename_run_ok; look; [exact H | reflexivity]).
  simpl. apply run_ret.
Qed.

Lemma claim_cmd_run_absent w fs :
  fs !! CMD_TXT = None ->
  claim_cmd (with_files fs w)
  = mkOut false (with_files (delete CMD_RUN fs) w) [EvRemove CMD_RUN].
Proof.
  intros H. unfold claim_cmd.
  change [EvRemove CMD_RUN] with ([EvRemove CMD_RUN] ++ [] ++ []).
  step. simpl claim_tries. step. look. rewrite H, present_none.
  cbv beta iota. apply run_ret.
Qed.

End SlotFacts.

(** X7. [write_text_atomic], when the staging file can be opened, returns
    1 exactly when the rename of the staging file to the final name is
    not refused.  Then the final name holds the text followed by CR LF
    whatever it held before, and the staging name is gone.  When the
    rename is refused the call returns 0, the final name is gone (it was
    removed before the rename) and the text stays at the staging name.
    No other file changes either way. *)
Theorem write_text_atomic_replaces (refused : string -> string -> bool)
  (w : Guest.World) (temp final : string) (txt : text) :
  Guest.can_write w temp = true -> temp <> final ->
  let r := Refusal.write_text_atomic refused temp final txt w in
  Guest.val r = negb (refused temp final)
  /\ Guest.files (Guest.post r) !! final
     = (if refused temp final then None else Some (txt ++ crlf))
  /\ Guest.files (Guest.post r) !! temp
     = (if refused temp final then Some (txt ++ crlf) else None)
  /\ (forall p, p <> temp -> p <> final ->
        Guest.files (Guest.post r) !! p = Guest.files w !! p).
Proof.
  intros Hw Hne. cbv zeta.
  destruct (refused temp final) eqn:Href.
  - destruct (RefusalFacts.write_text_atomic_refused_rename refused w
                (Guest.files w) temp final txt Hw Hne Href)
      as (fs' & Hrun & H1 & H2 & H3).
    rewrite GuestFacts.with_files_id in Hrun. rewrite Hrun.
    cbn [Guest.val Guest.post Guest.files Guest.with_files]. auto.
  - rewrite (RefusalFacts.write_text_atomic_allowed refused temp final txt Href).
    pose proof (GuestFacts.write_text_atomic_run w (Guest.files w) temp final
                  txt Hw Hne) as Hrun.
    rewrite GuestFacts.with_files_id in Hrun. rewrite Hrun.
    cbn [Guest.val Guest.post Guest.files Guest.with_files negb].
    split; [reflexivity |]. split; [apply lookup_insert_eq |].
    split.
    + rewrite lookup_insert_ne by congruence. apply lookup_delete_eq.
    + intros p H1 H2.
      rewrite lookup_insert_ne, lookup_delete_ne by congruence. reflexivity.
Qed.

Lemma write_text_atomic_replaces_witness :
  let r := Refusal.write_text_atomic Refusal.never Guest.STA_NEW Guest.STA_TXT
             (str "BYE") status_world in
  Guest.val r = true
  /\ Guest.files (Guest.post r) !! Guest.STA_TXT = Some (str "BYE" ++ crlf)
  /\ Guest.files (Guest.post r) !! Guest.STA_NEW = None
  /\ (forall p, p <> Guest.STA_NEW -> p <> Guest.STA_TXT ->
        Guest.files (Guest.post r) !! p = Guest.files status_world !! p).
Proof.
  apply (write_text_atomic_replaces Refusal.never status_world Guest.STA_NEW
           Guest.STA_TXT (str "BYE")); [reflexivity | discriminate].
Defined.

(** X8. [write_text_atomic]: when the staging file cannot be opened, the
    call returns 0 right after the attempt and the final name is left as
    it was: neither removed nor replaced. *)
Theorem write_text_atomic_refused (w : Guest.World) (temp final : string)
  (txt : text) :
  Guest.can_write w temp = false -> temp <> final ->
  let r := Guest.write_text_atomic temp final txt w in
  Guest.val r = false
  /\ Guest.files (Guest.post r) !! final = Guest.files w !! final
  /\ Guest.evs r = [Guest.EvRemove temp; Guest.EvOpenW temp].
Proof.
  intros Hw Hne. cbv zeta.
  pose proof (SlotFacts.write_text_atomic_refused_run w (Guest.files w) temp final txt Hw) as Hrun.
  rewrite GuestFacts.with_files_id in Hrun. rewrite Hrun.
  cbn [Guest.val Guest.post Guest.files Guest.with_files Guest.evs].
  split; [reflexivity |]. split; [| reflexivity].
  apply lookup_delete_ne. exact Hne.
Qed.

Lemma write_text_atomic_refused_witness :
  let r := Guest.write_text_atomic Guest.STA_NEW Guest.STA_TXT (str "BYE")
             locked_status_world in
  Guest.val r = false
  /\ Guest.files (Guest.post r) !! Guest.STA_TXT
     = Guest.files locked_status_world !! Guest.STA_TXT
  /\ Guest.evs r = [Guest.EvRemove Guest.STA_NEW; Guest.EvOpenW Guest.STA_NEW].
Proof.
  apply (write_text_atomic_refused locked_status_world Guest.STA_NEW
           Guest.STA_TXT (str "BYE")); [reflexivity | discriminate].
Defined.

(** X9. [set_status]: the status slot holds the last state written,
    followed by CR LF; writing a state twice, or after another state,
    leaves the directory as writing it once does. *)
Theorem set_status_last_wins (w : Guest.World) (a b : text) :
  Guest.can_write w Guest.STA_NEW = true ->
  let r := Guest.bind (Guest.set_status a) (fun _ => Guest.set_status b) w in
  Guest.post r = Guest.post (Guest.set_status b w)
  /\ Guest.files (Guest.post r) !! Guest.STA_TXT = Some (b ++ crlf)
  /\ Guest.files (Guest.post r) !! Guest.STA_NEW = None.
Proof.
  intros Hw. cbv zeta.
  pose proof (SlotFacts.set_status_twice w (Guest.files w) a b Hw) as Htwice.
  pose proof (GuestFacts.set_status_run w (Guest.files w) b Hw) as Hrun.
  rewrite GuestFacts.with_files_id in Htwice, Hrun.
  rewrite Htwice, Hrun.
  cbn [Guest.val Guest.post Guest.files Guest.with_files].
  split; [reflexivity |]. split; [apply lookup_insert_eq |].
  rewrite lookup_insert_ne by discriminate. apply lookup_delete_eq.
Qed.

Lemma set_status_last_wins_witness :
  let r := Guest.bind (Guest.set_status (str "RUNNING"))
             (fun _ => Guest.set_status (str "READY")) status_world in
  Guest.post r = Guest.post (Guest.set_status (str "READY") status_world)
  /\ Guest.files (Guest.post r) !! Guest.STA_TXT = Some (str "READY" ++ crlf)
  /\ Guest.files (Guest.post r) !! Guest.STA_NEW = None.
Proof.
  apply (set_status_last_wins status_world (str "RUNNING") (str "READY")).
  reflexivity.
Defined.

(** X10. [set_status]: when STA.NEW cannot be opened, the status slot
    keeps its old content and the failure is noted in the log. *)
Theorem set_status_refused_is_logged (w : Guest.World) (st : text) :
  Guest.can_write w Guest.STA_NEW = false ->
  Guest.can_write w Guest.LOG_TXT = true ->
  let r := Guest.set_status st w in
  Guest.files (Guest.post r) !! Guest.STA_TXT
  = Guest.files w !! Guest.STA_TXT
  /\ Guest.files (Guest.post r) !! Guest.LOG_TXT
     = Some (default [] (Guest.files w !! Guest.LOG_TXT)
             ++ Guest.log_entry (Guest.clock w)
                  (str "WARN: failed to write STA.TXT")).
Proof.
  intros Hw Hl. cbv zeta.
  pose proof (SlotFacts.set_status_refused_run w (Guest.files w) st Hw) as Hrun.
  rewrite GuestFacts.with_files_id in Hrun. rewrite Hrun.
  cbn [Guest.val Guest.post Guest.files Guest.with_files].
  unfold GuestLogic.logged. rewrite Hl. split.
  - rewrite lookup_insert_ne, lookup_delete_ne by discriminate. reflexivity.
  - rewrite lookup_insert_eq, lookup_delete_ne by discriminate. reflexivity.
Qed.

Lemma set_status_refused_is_logged_witness :
  let r := Guest.set_status (str "BYE") locked_status_world in
  Guest.files (Guest.post r) !! Guest.STA_TXT
  = Guest.files locked_status_world !! Guest.STA_TXT
  /\ Guest.files (Guest.post r) !! Guest.LOG_TXT
     = Some (default [] (Guest.files locked_status_world !! Guest.LOG_TXT)
             ++ Guest.log_entry (Guest.clock locked_status_world)
                  (str "WARN: failed to write STA.TXT")).
Proof.
  apply (set_status_refused_is_logged locked_status_world (str "BYE"));
    reflexivity.
Defined.

(** X11. [claim_cmd] returns 1 exactly when CMD.TXT is there; afterwards
    CMD.RUN holds what CMD.TXT held (a CMD.RUN left from before is
    discarded), CMD.TXT is gone and no other file has changed. *)
Theorem claim_cmd_transfers (w : Guest.World) :
  let r := Guest.claim_cmd w in
  Guest.val r = bool_decide (is_Some (Guest.files w !! Guest.CMD_TXT))
  /\ Guest.files (Guest.post r) !! Guest.CMD_RUN
     = Guest.files w !! Guest.CMD_TXT
  /\ Guest.files (Guest.post r) !! Guest.CMD_TXT = None
  /\ (forall p, p <> Guest.CMD_TXT -> p <> Guest.CMD_RUN ->
        Guest.files (Guest.post r) !! p = Guest.files w !! p).
Proof.
  cbv zeta.
  destruct (Guest.files w !! Guest.CMD_TXT) as [c|] eqn:E.
  - pose proof (SlotFacts.claim_cmd_run_present w (Guest.files w) c E) as Hrun.
    rewrite GuestFacts.with_files_id in Hrun. rewrite Hrun.
    cbn [Guest.val Guest.post Guest.files Guest.with_files].
    split; [reflexivity |]. split; [apply lookup_insert_eq |].
    split.
    + rewrite lookup_insert_ne by discriminate. apply lookup_delete_eq.
    + intros p H1 H2.
      rewrite lookup_insert_ne, !lookup_delete_ne by congruence. reflexivity.
  - pose proof (SlotFacts.claim_cmd_run_absent w (Guest.files w) E) as Hrun.
    rewrite GuestFacts.with_files_id in Hrun. rewrite Hrun.
    cbn [Guest.val Guest.post Guest.files Guest.with_files].
    split; [reflexivity |]. split; [apply lookup_delete_eq |].
    split.
    + rewrite lookup_delete_ne by discriminate. exact E.
    + intros p H1 H2. rewrite lookup_delete_ne by congruence. reflexivity.
Qed.

(* ===================================================================== *)
(** ** Further properties of the guest: the job *)
(* ===================================================================== *)

Module JobFacts.
Import Chars Spec CharsFacts Guest GuestLogic GuestFacts DirectiveFacts
  GuestPaths PayloadFacts LineFacts GuestLogic.

#[local] Arguments Ascii.eqb : simpl never.

Lemma strlen_nonneg s : 0 <= strlen s.
Proof. unfold strlen. lia. Qed.

Lemma total_strlen_nonneg bufs : 0 <= total_strlen bufs.
Proof.
  induction bufs as [|b bufs IH]; simpl; [lia|].
  unfold total_strlen in *. simpl. pose proof (strlen_nonneg b). lia.
Qed.

(** Within the bound every line goes through. *)
Lemma copy_payload_within w bufs : forall total fs,
  total + total_strlen bufs <= MAX_PAYLOAD ->
  exists fs',
    copy_payload bufs total (with_files fs w)
    = mkOut (inl (total + total_strlen bufs)) (with_files fs' w) []
    /\ fs' !! JOB_BAT
       = (fun old => old ++ concat (map c_str bufs)) <$> fs !! JOB_BAT
    /\ forall p, p <> JOB_BAT -> fs' !! p = fs !! p.
Proof.
  induction bufs as [|b bufs IH]; intros total fs Hle.
  - exists fs. split; [| split].
    + simpl. unfold total_strlen. simpl. rewrite Z.add_0_r. reflexivity.
    + simpl. destruct (fs !! JOB_BAT); simpl; [rewrite app_nil_r|]; reflexivity.
    + reflexivity.
  - assert (Hs : total_strlen (b :: bufs) = strlen b + total_strlen bufs)
      by reflexivity.
    pose proof (total_strlen_nonneg bufs) as H0.
    pose proof (strlen_nonneg b) as H1.
    destruct (IH (total + strlen b)
                (alter (fun old => old ++ c_str b) JOB_BAT fs)
                ltac:(lia)) as (fs' & Hrun & Hjob & Hfs').
    exists fs'. split; [| split].
    + cbn [copy_payload].
      replace (total + strlen b >? MAX_PAYLOAD) with false
        by (symmetry; rewrite Z.gtb_ltb; apply Z.ltb_ge; lia).
      change (@nil Event) with (@nil Event ++ []).
      eapply run_bind; [apply fprint_run |].
      rewrite Hs, Z.add_assoc. exact Hrun.
    + rewrite Hjob, lookup_alter_eq. destruct (fs !! JOB_BAT); simpl; [|reflexivity].
      rewrite <- app_assoc. reflexivity.
    + intros p Hp. rewrite Hfs' by exact Hp.
      rewrite lookup_alter_ne by congruence. reflexivity.
Qed.

Lemma map_c_str_text (bufs : list text) :
  (forall b, In b bufs -> is_text b = true) -> map c_str bufs = bufs.
Proof.
  induction bufs as [|b bufs IH]; intros H; [reflexivity|].
  simpl. rewrite (c_str_text b), IH; auto.
  - intros x Hx. apply H. right. exact Hx.
  - apply H. left. reflexivity.
Qed.

Lemma payload_copied c :
  is_text c = true -> concat (map c_str (fgets_all MAX_LINE c)) = c.
Proof.
  intros Ht. rewrite map_c_str_text.
  - apply fgets_all_concat. unfold MAX_LINE. lia.
  - intros b Hb.
    apply (fgets_all_in MAX_LINE ltac:(unfold MAX_LINE; lia) c b Hb), Ht.
Qed.

Section Job.

Variable system : text -> gmap string text -> gmap string text * Z.
Variable idle : Z.

(** [build_job_bat_from_cmd] on a payload within the bound. *)
Lemma build_job_bat_run w fs p c :
  fs !! p = Some c -> p <> JOB_BAT -> p <> RC_NEW ->
  is_text c = true -> Z.of_nat (length c) <= MAX_PAYLOAD ->
  can_write w JOB_BAT = true ->
  exists fs',
    build_job_bat_from_cmd p (with_files fs w)
    = mkOut (true, Z.of_nat (length c)) (with_files fs' w)
        [EvRemove JOB_BAT; EvRemove RC_NEW; EvOpenR p; EvOpenW JOB_BAT]
    /\ fs' !! JOB_BAT = Some (job_bat_text c)
    /\ fs' !! RC_NEW = None
    /\ forall q, q <> JOB_BAT -> q <> RC_NEW -> fs' !! q = fs !! q.
Proof.
  intros Hc Hp1 Hp2 Ht Hlen Hw. unfold build_job_bat_from_cmd.
  set (fs0 := alter (fun old => old ++ (str "rem MBXSRV job wrapper" ++ crlf))
                JOB_BAT
                (alter (fun old => old ++ (str "@echo off" ++ crlf)) JOB_BAT
                   (<[JOB_BAT := []]> (delete RC_NEW (delete JOB_BAT fs))))).
  destruct (copy_payload_within w (fgets_all MAX_LINE c) 0 fs0)
    as (fs1 & Hrun & Hjob & Hfs1).
  { rewrite total_strlen_fgets_all by exact Ht. lia. }
  rewrite total_strlen_fgets_all, payload_copied in * by exact Ht.
  eexists. split; [| split; [| split]].
  - change [EvRemove JOB_BAT; EvRemove RC_NEW; EvOpenR p; EvOpenW JOB_BAT]
      with ([EvRemove JOB_BAT] ++ [EvRemove RC_NEW] ++ [EvOpenR p]
            ++ [EvOpenW JOB_BAT] ++ [] ++ [] ++ [] ++ [] ++ [] ++ []).
    step. step. step.
    rewrite !lookup_delete_ne, Hc by congruence. cbv beta iota.
    step_with ltac:(apply fopen_wt_run_ok; exact Hw).
    step. step.
    step_with ltac:(exact Hrun).
    step. step. apply run_ret.
  - rewrite !lookup_alter_eq, Hjob. unfold fs0.
    rewrite !lookup_alter_eq, lookup_insert_eq. simpl.
    unfold job_bat_text. rewrite <- !app_assoc. reflexivity.
  - rewrite !lookup_alter_ne by discriminate.
    rewrite Hfs1 by discriminate. unfold fs0.
    rewrite !lookup_alter_ne, lookup_insert_ne by discriminate.
    apply lookup_delete_eq.
  - intros q H1 H2. rewrite !lookup_alter_ne by congruence.
    rewrite Hfs1 by congruence. unfold fs0.
    rewrite !lookup_alter_ne, lookup_insert_ne, !lookup_delete_ne
      by congruence.
    reflexivity.
Qed.

Lemma exec_job_to_out_run w fs :
  let cmd := job_cmdline (comspec w) (mbx_stderr w) in
  let r := system cmd (delete OUT_NEW fs) in
  exec_job_to_out system (with_files fs w)
  = mkOut (snd r) (with_files (fst r) w) [EvRemove OUT_NEW; EvExec cmd].
Proof.
  cbv zeta. unfold exec_job_to_out, call_system.
  unfold bind, ask, remove, emit, get_files, put_files, ret. simpl.
  destruct (fs !! OUT_NEW) eqn:E; simpl; [reflexivity|].
  rewrite (delete_id _ _ E). reflexivity.
Qed.

(** [publish_results] when the job left both staging files. *)
Lemma publish_results_run w fs rc o r :
  fs !! OUT_NEW = Some o -> fs !! RC_NEW = Some r ->
  exists fs',
    publish_results rc (with_files fs w)
    = mkOut tt (with_files fs' w)
        [EvRemove OUT_TXT; EvRename OUT_NEW OUT_TXT;
         EvRemove RC_TXT; EvRename RC_NEW RC_TXT]
    /\ fs' !! OUT_TXT = Some o /\ fs' !! RC_TXT = Some r
    /\ fs' !! OUT_NEW = None /\ fs' !! RC_NEW = None
    /\ forall q, q <> OUT_TXT -> q <> RC_TXT -> q <> OUT_NEW -> q <> RC_NEW ->
         fs' !! q = fs !! q.
Proof.
  intros Ho Hr. unfold publish_results.
  eexists. split; [| conj_split].
  - change [EvRemove OUT_TXT; EvRename OUT_NEW OUT_TXT;
            EvRemove RC_TXT; EvRename RC_NEW RC_TXT]
      with (([] ++ []) ++ [EvRemove OUT_TXT] ++ ([EvRename OUT_NEW OUT_TXT] ++ [])
            ++ [] ++ [EvRemove RC_TXT] ++ [EvRename RC_NEW RC_TXT] ++ []).
    step_with ltac:(eapply run_bind;
      [apply file_exists_run
      | rewrite Ho, present_some; cbv beta iota; apply run_ret]).
    step.
    step_with ltac:(eapply run_bind;
      [eapply rename_run_ok; look; [exact Ho | reflexivity]
      | cbv beta iota; simpl; apply run_ret]).
    step. look. rewrite Hr, present_some. cbv beta iota.
    step.
    step_with ltac:(eapply rename_run_ok; look; [exact Hr | reflexivity]).
    simpl. apply run_ret.
  - look. reflexivity.
  - look. reflexivity.
  - look. reflexivity.
  - look. reflexivity.
  - intros q H1 H2 H3 H4.
    rewrite !lookup_insert_ne, !lookup_delete_ne, !lookup_insert_ne,
      !lookup_delete_ne by congruence.
    reflexivity.
Qed.

End Job.

End JobFacts.

(** X12. [build_job_bat_from_cmd] on a text command within the payload
    bound returns 1 with the length of the command as payload size, and
    leaves in MBXJOB.BAT the two header lines, the command unchanged, and
    the two lines that write the error level to RC.NEW; RC.NEW is removed
    and no other file changes. *)
Theorem wrapper_holds_the_command (w : Guest.World) (p : string) (c : text) :
  Guest.files w !! p = Some c ->
  p <> Guest.JOB_BAT -> p <> Guest.RC_NEW ->
  is_text c = true -> Z.of_nat (length c) <= Guest.MAX_PAYLOAD ->
  Guest.can_write w Guest.JOB_BAT = true ->
  let r := Guest.build_job_bat_from_cmd p w in
  Guest.val r = (true, Z.of_nat (length c))
  /\ Guest.files (Guest.post r) !! Guest.JOB_BAT
     = Some ((str "@echo off" ++ crlf)
             ++ (str "rem MBXSRV job wrapper" ++ crlf)
             ++ c
             ++ (crlf ++ str "rem Capture ERRORLEVEL of last command" ++ crlf)
             ++ (str "echo %errorlevel% > RC.NEW" ++ crlf))
  /\ Guest.files (Guest.post r) !! Guest.RC_NEW = None
  /\ (forall q, q <> Guest.JOB_BAT -> q <> Guest.RC_NEW ->
        Guest.files (Guest.post r) !! q = Guest.files w !! q).
Proof.
  intros Hc H1 H2 Ht Hlen Hw. cbv zeta.
  destruct (JobFacts.build_job_bat_run w (Guest.files w) p c Hc H1 H2 Ht
              Hlen Hw) as (fs' & Hrun & Hbat & Hrc & Hfs').
  rewrite GuestFacts.with_files_id in Hrun. rewrite Hrun.
  cbn [Guest.val Guest.post Guest.files Guest.with_files].
  split; [reflexivity |]. split; [exact Hbat |]. split; [exact Hrc | exact Hfs'].
Qed.

Lemma wrapper_holds_the_command_witness :
  let r := Guest.build_job_bat_from_cmd Guest.CMD_RUN failed_job_world in
  Guest.val r = (true, Z.of_nat (length (str "dir" ++ crlf)))
  /\ Guest.files (Guest.post r) !! Guest.JOB_BAT
     = Some ((str "@echo off" ++ crlf)
             ++ (str "rem MBXSRV job wrapper" ++ crlf)
             ++ (str "dir" ++ crlf)
             ++ (crlf ++ str "rem Capture ERRORLEVEL of last command" ++ crlf)
             ++ (str "echo %errorlevel% > RC.NEW" ++ crlf))
  /\ Guest.files (Guest.post r) !! Guest.RC_NEW = None
  /\ (forall q, q <> Guest.JOB_BAT -> q <> Guest.RC_NEW ->
        Guest.files (Guest.post r) !! q = Guest.files failed_job_world !! q).
Proof.
  apply (wrapper_holds_the_command failed_job_world Guest.CMD_RUN
           (str "dir" ++ crlf)).
  - reflexivity.
  - discriminate.
  - discriminate.
  - reflexivity.
  - vm_compute. discriminate.
  - reflexivity.
Defined.

Module OutputFacts.
Import Chars Spec CharsFacts Guest GuestLogic GuestFacts DirectiveFacts
  GuestPaths PayloadFacts PublishFacts GuestLogic.

Lemma write_error_output_refused_run w fs what :
  can_write w OUT_NEW = false ->
  write_error_output what (with_files fs w)
  = mkOut tt (with_files (delete OUT_NEW fs) w)
      [EvRemove OUT_NEW; EvOpenW OUT_NEW].
Proof.
  intros Hw. unfold write_error_output.
  change [EvRemove OUT_NEW; EvOpenW OUT_NEW]
    with ([EvRemove OUT_NEW] ++ [EvOpenW OUT_NEW] ++ []).
  step.
  step_with ltac:(apply fopen_wt_run_fail; exact Hw).
  apply run_ret.
Qed.

Lemma publish_rc_keeps p :
  p <> RC_NEW -> p <> RC_TXT -> p <> LOG_TXT ->
  stable (same_file p) publish_rc.
Proof.
  intros H1 H2 H3. unfold publish_rc.
  compose_with ltac:(idtac; lazymatch goal with
    | |- stable _ (file_exists _) => apply same_file_file_exists
    | |- stable _ (remove _) => apply same_file_remove; assumption
    | |- stable _ (rename _ _) => apply same_file_rename; assumption
    | |- stable _ (fopen_wt _) => apply same_file_fopen_wt; assumption
    | |- stable _ (fprint _ _) => apply same_file_fprint; assumption
    | |- stable _ (log_line _) => apply same_file_log_line; assumption
    | |- stable _ (ask _) => apply stable_ask; typeclasses eauto
    end).
Qed.

(** The output half of [publish_results], by cases on OUT.NEW. *)
Lemma publish_out_staged w fs rc o :
  fs !! OUT_NEW = Some o ->
  exists fs',
    publish_out rc (with_files fs w)
    = mkOut tt (with_files fs' w) [EvRemove OUT_TXT; EvRename OUT_NEW OUT_TXT]
    /\ fs' !! OUT_TXT = Some o /\ fs' !! OUT_NEW = None.
Proof.
  intros Ho. unfold publish_out. eexists. split; [| split].
  - change [EvRemove OUT_TXT; EvRename OUT_NEW OUT_TXT]
      with (([] ++ []) ++ [EvRemove OUT_TXT] ++ [EvRename OUT_NEW OUT_TXT] ++ []).
    step_with ltac:(eapply run_bind;
      [apply file_exists_run
      | rewrite Ho, present_some; cbv beta iota; apply run_ret]).
    step.
    step_with ltac:(eapply rename_run_ok; look; [exact Ho | reflexivity]).
    simpl. apply run_ret.
  - look. reflexivity.
  - look. reflexivity.
Qed.

Lemma publish_out_missing w fs rc :
  fs !! OUT_NEW = None -> can_write w OUT_NEW = true ->
  exists fs',
    publish_out rc (with_files fs w)
    = mkOut tt (with_files fs' w)
        [EvOpenW OUT_NEW; EvRemove OUT_TXT; EvRename OUT_NEW OUT_TXT]
    /\ fs' !! OUT_TXT
       = Some (str "ERROR: OUT.NEW missing (system rc=" ++ fmt_d rc
               ++ str ")" ++ crlf)
    /\ fs' !! OUT_NEW = None.
Proof.
  intros Ho Hw. unfold publish_out. eexists. split; [| split].
  - change [EvOpenW OUT_NEW; EvRemove OUT_TXT; EvRename OUT_NEW OUT_TXT]
      with (([] ++ [EvOpenW OUT_NEW] ++ []) ++ [EvRemove OUT_TXT]
            ++ [EvRename OUT_NEW OUT_TXT] ++ []).
    step_with ltac:(eapply run_bind;
      [apply file_exists_run
      | rewrite Ho, present_none; cbv beta iota;
        eapply run_bind;
          [apply fopen_wt_run_ok; exact Hw
          | cbv beta iota; apply fprint_run]]).
    step.
    step_with ltac:(eapply rename_run_ok; look;
                    [rewrite lookup_alter_eq; look; reflexivity | reflexivity]).
    simpl. apply run_ret.
  - look. reflexivity.
  - look. reflexivity.
Qed.

Lemma publish_results_out sys_rc w fs' t :
  publish_out sys_rc w = mkOut tt (with_files fs' w) t ->
  files (post (publish_results sys_rc w)) !! OUT_TXT = fs' !! OUT_TXT
  /\ files (post (publish_results sys_rc w)) !! OUT_NEW = fs' !! OUT_NEW.
Proof.
  intros H. rewrite publish_results_halves, post_bind, H.
  cbn [val post].
  split.
  - rewrite (publish_rc_keeps OUT_TXT ltac:(discriminate) ltac:(discriminate)
               ltac:(discriminate) (with_files fs' w)).
    reflexivity.
  - rewrite (publish_rc_keeps OUT_NEW ltac:(discriminate) ltac:(discriminate)
               ltac:(discriminate) (with_files fs' w)).
    reflexivity.
Qed.

End OutputFacts.

(** X13. After [publish_results], provided OUT.NEW can be opened and the
    rename of OUT.NEW to OUT.TXT is not refused, OUT.TXT holds the output
    the job staged, or, when the job staged none, the diagnostic "ERROR:
    OUT.NEW missing" with the status of [system], and the staging file is
    gone.  When that rename is refused, OUT.TXT is gone (it was removed
    before the rename) and the output, or the diagnostic, stays in
    OUT.NEW. *)
Theorem published_output_is_staged_or_diagnostic
  (refused : string -> string -> bool) (sys_rc : Z) (w : Guest.World) :
  Guest.can_write w Guest.OUT_NEW = true ->
  let r := Refusal.publish_results refused sys_rc w in
  let o := match Guest.files w !! Guest.OUT_NEW with
           | Some o => o
           | None => str "ERROR: OUT.NEW missing (system rc=" ++ fmt_d sys_rc
                     ++ str ")" ++ crlf
           end in
  Guest.files (Guest.post r) !! Guest.OUT_TXT
  = (if refused Guest.OUT_NEW Guest.OUT_TXT then None else Some o)
  /\ Guest.files (Guest.post r) !! Guest.OUT_NEW
     = (if refused Guest.OUT_NEW Guest.OUT_TXT then Some o else None).
Proof.
  intros Hw. cbv zeta.
  destruct (RefusalFacts.publish_out_run refused w (Guest.files w) sys_rc Hw)
    as (fs' & t & Hrun & H1 & H2).
  rewrite GuestFacts.with_files_id in Hrun, H1, H2.
  destruct (RefusalFacts.publish_results_out_refusing refused sys_rc w fs' t Hrun)
    as [G1 G2].
  rewrite G1, G2. split; [exact H1 | exact H2].
Qed.

Lemma published_output_is_staged_or_diagnostic_witness :
  let r := Refusal.publish_results Refusal.never (-1) failed_job_world in
  Guest.files (Guest.post r) !! Guest.OUT_TXT
  = Some (str "ERROR: OUT.NEW missing (system rc=" ++ fmt_d (-1)
          ++ str ")" ++ crlf)
  /\ Guest.files (Guest.post r) !! Guest.OUT_NEW = None.
Proof.
  apply (published_output_is_staged_or_diagnostic Refusal.never (-1)
           failed_job_world).
  reflexivity.
Defined.

(** X14. [write_error_output] gives up when OUT.NEW cannot be opened: it
    makes no further call, and the result slots OUT.TXT and RC.TXT keep
    what they held. *)
Theorem error_output_gives_up_when_refused (what : text) (w : Guest.World) :
  Guest.can_write w Guest.OUT_NEW = false ->
  let r := Guest.write_error_output what w in
  Guest.evs r = [Guest.EvRemove Guest.OUT_NEW; Guest.EvOpenW Guest.OUT_NEW]
  /\ (forall p, p <> Guest.OUT_NEW ->
        Guest.files (Guest.post r) !! p = Guest.files w !! p).
Proof.
  intros Hw. cbv zeta.
  pose proof (OutputFacts.write_error_output_refused_run w (Guest.files w)
                what Hw) as Hrun.
  rewrite GuestFacts.with_files_id in Hrun. rewrite Hrun.
  cbn [Guest.val Guest.post Guest.files Guest.with_files Guest.evs].
  split; [reflexivity |]. intros p Hp. apply lookup_delete_ne. congruence.
Qed.

Lemma error_output_gives_up_when_refused_witness :
  let r := Guest.write_error_output (str "CMD file is empty")
             locked_out_world in
  Guest.evs r = [Guest.EvRemove Guest.OUT_NEW; Guest.EvOpenW Guest.OUT_NEW]
  /\ (forall p, p <> Guest.OUT_NEW ->
        Guest.files (Guest.post r) !! p = Guest.files locked_out_world !! p).
Proof.
  apply (error_output_gives_up_when_refused (str "CMD file is empty")
           locked_out_world).
  reflexivity.
Defined.

Module RunFacts.
Import Chars Spec CharsFacts Guest GuestLogic GuestFacts DirectiveFacts
  GuestPaths PayloadFacts LineFacts JobFacts.

#[local] Arguments Ascii.eqb : simpl never.

Lemma filter_basic t : forallb basic t = true -> filter is_exec t = [].
Proof.
  induction t as [|e t IH]; simpl; [reflexivity|].
  intros H. apply andb_true_iff in H as [He Ht].
  unfold basic in He. apply andb_true_iff in He as [He _].
  apply negb_true_iff in He.
  rewrite filter_cons. destruct (decide (is_exec e)) as [Hd|Hd].
  - rewrite He in Hd. destruct Hd.
  - apply IH, Ht.
Qed.

Section Run.

Variable system : text -> gmap string text -> gmap string text * Z.
Variable idle : Z.

(** The path of a command that is run. *)
Lemma process_job_run w fs c d o r :
  fs !! CMD_RUN = Some c ->
  first_nonempty (fgets_all MAX_LINE c) = Some d ->
  is_exit_cmd d = false ->
  is_text c = true -> Z.of_nat (length c) <= MAX_PAYLOAD ->
  can_write w STA_NEW = true -> can_write w JOB_BAT = true ->
  (forall fs0, job_ready c fs0 ->
     fst (system (job_cmdline (comspec w) (mbx_stderr w)) fs0) !! OUT_NEW
     = Some o
     /\ fst (system (job_cmdline (comspec w) (mbx_stderr w)) fs0) !! RC_NEW
        = Some r) ->
  exists fs2 t,
    process_cmd_run system idle (with_files fs w)
    = mkOut Continue (with_files fs2 w) t
    /\ fs2 !! OUT_TXT = Some o
    /\ fs2 !! RC_TXT = Some r
    /\ fs2 !! OUT_NEW = None
    /\ fs2 !! RC_NEW = None
    /\ fs2 !! CMD_RUN = None
    /\ fs2 !! STA_TXT = Some (str "READY" ++ crlf)
    /\ filter is_exec t = [EvExec (job_cmdline (comspec w) (mbx_stderr w))].
Proof.
  intros Hc Hd Hx Ht Hlen Hsta Hjob Hsys. unfold process_cmd_run.
  set (cmd := job_cmdline (comspec w) (mbx_stderr w)) in *.
  set (fs1 := <[STA_TXT := str "RUNNING" ++ crlf]> (delete STA_NEW fs)).
  assert (Hc1 : fs1 !! CMD_RUN = Some c) by (unfold fs1; look; exact Hc).
  destruct (build_job_bat_run w fs1 CMD_RUN c Hc1 ltac:(discriminate)
              ltac:(discriminate) Ht Hlen Hjob)
    as (fsb & Hb & Hbat & Hnorc & Hfsb).
  set (msg1 := str "Executing job (payload=" ++ fmt_d (Z.of_nat (length c))
               ++ str " bytes)").
  set (fsp := delete OUT_NEW
                (delete RC_TXT (delete OUT_TXT (logged w msg1 fsb)))).
  assert (Hready : job_ready c fsp).
  { unfold job_ready, fsp. conj_split; look; try reflexivity.
    - exact Hbat.
    - rewrite Hfsb by discriminate. exact Hc1.
    - exact Hnorc. }
  destruct (Hsys fsp Hready) as [Ho Hr].
  set (res := system cmd fsp) in *.
  set (msg2 := str "system() rc=" ++ fmt_d (snd res)).
  destruct (publish_results_run w (logged w msg2 (fst res)) (snd res) o r)
    as (fs' & Hp & H1 & H2 & H3 & H4 & Hfs').
  { look. exact Ho. }
  { look. exact Hr. }
  eexists _, _. split; [| conj_split].
  - step_with ltac:(apply set_status_run; exact Hsta).
    step_with ltac:(erewrite read_first_nonempty_line_run
                      by exact Hc1; rewrite Hd; reflexivity).
    rewrite Hx. cbv beta iota.
    step_with ltac:(exact Hb).
    cbn [fst snd]. cbv beta iota.
    step. step. step.
    step_with ltac:(apply exec_job_to_out_run).
    step.
    step_with ltac:(exact Hp).
    step.
    step_with ltac:(apply set_status_run; exact Hsta).
    step. apply run_ret.
  - look. exact H1.
  - look. exact H2.
  - look. exact H3.
  - look. exact H4.
  - look. reflexivity.
  - look. reflexivity.
  - reflexivity.
Qed.

(** The path of a command that holds white space only. *)
Lemma process_blank_run w fs c :
  fs !! CMD_RUN = Some c ->
  first_nonempty (fgets_all MAX_LINE c) = None ->
  can_write w STA_NEW = true -> can_write w OUT_NEW = true ->
  can_write w RC_NEW = true ->
  exists fs2 t,
    process_cmd_run system idle (with_files fs w)
    = mkOut Continue (with_files fs2 w) t
    /\ fs2 !! OUT_TXT = Some (error_text (str "CMD file is empty") (errno w))
    /\ fs2 !! RC_TXT = Some (str "1" ++ crlf)
    /\ fs2 !! CMD_RUN = None
    /\ fs2 !! STA_TXT = Some (str "READY" ++ crlf)
    /\ forallb basic t = true.
Proof.
  intros Hc Hfirst Hsta Hout Hrc. unfold process_cmd_run.
  set (fs1 := <[STA_TXT := str "RUNNING" ++ crlf]> (delete STA_NEW fs)).
  assert (Hc1 : fs1 !! CMD_RUN = Some c) by (unfold fs1; look; exact Hc).
  set (msg := str "ERROR: CMD.RUN empty").
  destruct (write_error_output_run w (logged w msg fs1)
              (str "CMD file is empty") Hout Hrc)
    as (fs3 & te & He & H1 & H2 & H3 & Hte).
  eexists _, _. split; [| conj_split].
  - step_with ltac:(apply set_status_run; exact Hsta).
    step_with ltac:(erewrite read_first_nonempty_line_run
                      by exact Hc1; rewrite Hfirst; reflexivity).
    step.
    step_with ltac:(exact He).
    step.
    step_with ltac:(apply set_status_run; exact Hsta).
    step. apply run_ret.
  - look. exact H1.
  - look. exact H2.
  - look. reflexivity.
  - look. reflexivity.
  - rewrite !forallb_app, Hte. reflexivity.
Qed.

End Run.

End RunFacts.

(** X15. A command within the payload bound whose directive is not EXIT or
    QUIT is run, provided the command line [exec_job_to_out] builds fits
    its buffer of 256 bytes (at most 255 characters): when the
    interpreter, given the wrapper of the command in a directory cleared
    of old results, leaves an output and a return code in the staging
    files, the turn (in a directory in which the staging files can be
    opened and no rename is refused) publishes both under the published
    names, removes the staging files and the claimed command, leaves
    READY in the status slot and goes on; the interpreter is called once,
    with that command line. *)
Theorem job_results_are_published
  (system : text -> gmap string text -> gmap string text * Z)
  (idle : Z) (w : Guest.World) (c d o r : text) :
  esc_pending w = false ->
  command_for_tick (Guest.files w) = Some c ->
  Guest.first_nonempty (fgets_all Guest.MAX_LINE c) = Some d ->
  Guest.is_exit_cmd d = false ->
  is_text c = true -> Z.of_nat (length c) <= Guest.MAX_PAYLOAD ->
  Guest.can_write w Guest.STA_NEW = true ->
  Guest.can_write w Guest.JOB_BAT = true ->
  (length (Guest.job_cmdline (Guest.comspec w) (Guest.mbx_stderr w))
   <= 255)%nat ->
  (forall fs0, GuestLogic.job_ready c fs0 ->
     fst (system (Guest.job_cmdline (Guest.comspec w) (Guest.mbx_stderr w))
            fs0) !! Guest.OUT_NEW = Some o
     /\ fst (system (Guest.job_cmdline (Guest.comspec w) (Guest.mbx_stderr w))
               fs0) !! Guest.RC_NEW = Some r) ->
  let res := Guest.tick system idle w in
  Guest.val res = Guest.Continue
  /\ Guest.files (Guest.post res) !! Guest.OUT_TXT = Some o
  /\ Guest.files (Guest.post res) !! Guest.RC_TXT = Some r
  /\ Guest.files (Guest.post res) !! Guest.OUT_NEW = None
  /\ Guest.files (Guest.post res) !! Guest.RC_NEW = None
  /\ Guest.files (Guest.post res) !! Guest.CMD_RUN = None
  /\ Guest.files (Guest.post res) !! Guest.STA_TXT = Some (str "READY" ++ crlf)
  /\ filter is_exec (Guest.evs res)
     = [Guest.EvExec (Guest.job_cmdline (Guest.comspec w)
                        (Guest.mbx_stderr w))].
Proof.
  intros Hesc Hc Hd Hx Ht Hlen Hsta Hjob Hfits Hsys.
  destruct (GuestPaths.tick_command_run system idle w c Hesc Hc)
    as (fs1 & t1 & Hfs1 & Ht1 & Htick).
  destruct (RunFacts.process_job_run system idle (GuestLogic.after_keys w)
              fs1 c d o r Hfs1 Hd Hx Ht Hlen Hsta Hjob Hsys)
    as (fs2 & t2 & Hp & H1 & H2 & H3 & H4 & H5 & H6 & H7).
  cbv zeta. rewrite (Htick _ _ _ Hp).
  cbn [Guest.val Guest.post Guest.evs Guest.files Guest.with_files].
  rewrite filter_app, (RunFacts.filter_basic _ Ht1), H7. auto 10.
Qed.

Lemma job_results_are_published_witness :
  let res := Guest.tick echo_shell 100 echo_world in
  Guest.val res = Guest.Continue
  /\ Guest.files (Guest.post res) !! Guest.OUT_TXT = Some (str "hi" ++ crlf)
  /\ Guest.files (Guest.post res) !! Guest.RC_TXT = Some (str "0 " ++ crlf)
  /\ Guest.files (Guest.post res) !! Guest.OUT_NEW = None
  /\ Guest.files (Guest.post res) !! Guest.RC_NEW = None
  /\ Guest.files (Guest.post res) !! Guest.CMD_RUN = None
  /\ Guest.files (Guest.post res) !! Guest.STA_TXT = Some (str "READY" ++ crlf)
  /\ filter is_exec (Guest.evs res)
     = [Guest.EvExec (Guest.job_cmdline (Guest.comspec echo_world)
                        (Guest.mbx_stderr echo_world))].
Proof.
  apply (job_results_are_published echo_shell 100 echo_world
           (str "echo hi" ++ crlf) (str "echo hi")
           (str "hi" ++ crlf) (str "0 " ++ crlf)).
  - reflexivity.
  - reflexivity.
  - vm_compute. reflexivity.
  - vm_compute. reflexivity.
  - reflexivity.
  - vm_compute. discriminate.
  - reflexivity.
  - reflexivity.
  - vm_compute. lia.
  - intros fs0 _. unfold echo_shell. cbn [fst]. split.
    + rewrite lookup_insert_ne by discriminate. apply lookup_insert_eq.
    + apply lookup_insert_eq.
Defined.

(** X16. A command that holds white space only (or nothing) is not run:
    in a directory in which the staging files can be opened and no rename
    is refused, the turn publishes the diagnostic "ERROR: CMD file is
    empty" followed by a line that gives a value of [errno] (whatever the
    failed calls left there), and the return code "1", removes the
    claimed command, leaves READY in the status slot and goes on, and the
    interpreter is not called. *)
Theorem blank_command_is_refused
  (system : text -> gmap string text -> gmap string text * Z)
  (idle : Z) (w : Guest.World) (c : text) :
  esc_pending w = false ->
  command_for_tick (Guest.files w) = Some c ->
  spec_blank c = true ->
  Guest.can_write w Guest.STA_NEW = true ->
  Guest.can_write w Guest.OUT_NEW = true ->
  Guest.can_write w Guest.RC_NEW = true ->
  let res := Guest.tick system idle w in
  Guest.val res = Guest.Continue
  /\ (exists e,
        Guest.files (Guest.post res) !! Guest.OUT_TXT
        = Some ((str "ERROR: CMD file is empty" ++ crlf)
                ++ (str "errno=" ++ fmt_d e ++ crlf)))
  /\ Guest.files (Guest.post res) !! Guest.RC_TXT = Some (str "1" ++ crlf)
  /\ Guest.files (Guest.post res) !! Guest.CMD_RUN = None
  /\ Guest.files (Guest.post res) !! Guest.STA_TXT = Some (str "READY" ++ crlf)
  /\ filter is_exec (Guest.evs res) = [].
Proof.
  intros Hesc Hc Hb Hsta Hout Hrc.
  assert (Hfirst : Guest.first_nonempty (fgets_all Guest.MAX_LINE c) = None).
  { apply LineFacts.first_nonempty_blank; [unfold Guest.MAX_LINE; lia | |exact Hb].
    apply DirectiveFacts.blank_is_text, Hb. }
  destruct (GuestPaths.tick_command_run system idle w c Hesc Hc)
    as (fs1 & t1 & Hfs1 & Ht1 & Htick).
  destruct (RunFacts.process_blank_run system idle (GuestLogic.after_keys w)
              fs1 c Hfs1 Hfirst Hsta Hout Hrc)
    as (fs2 & t2 & Hp & H1 & H2 & H3 & H4 & H5).
  cbv zeta. rewrite (Htick _ _ _ Hp).
  cbn [Guest.val Guest.post Guest.evs Guest.files Guest.with_files].
  rewrite filter_app, !RunFacts.filter_basic by assumption.
  split; [reflexivity |].
  split; [exists (Guest.errno (GuestLogic.after_keys w)); exact H1 |].
  auto 10.
Qed.

Lemma blank_command_is_refused_witness :
  let res := Guest.tick idle_shell 100 blank_world in
  Guest.val res = Guest.Continue
  /\ (exists e,
        Guest.files (Guest.post res) !! Guest.OUT_TXT
        = Some ((str "ERROR: CMD file is empty" ++ crlf)
                ++ (str "errno=" ++ fmt_d e ++ crlf)))
  /\ Guest.files (Guest.post res) !! Guest.RC_TXT = Some (str "1" ++ crlf)
  /\ Guest.files (Guest.post res) !! Guest.CMD_RUN = None
  /\ Guest.files (Guest.post res) !! Guest.STA_TXT = Some (str "READY" ++ crlf)
  /\ filter is_exec (Guest.evs res) = [].
Proof.
  apply (blank_command_is_refused idle_shell 100 blank_world
           (str "  " ++ crlf)); reflexivity.
Defined.

(* ===================================================================== *)
(** ** Further properties of the guest: the loop and the log *)
(* ===================================================================== *)

Module LoopFacts.
Import Chars Spec CharsFacts Guest GuestLogic GuestFacts DirectiveFacts
  GuestPaths PayloadFacts GuestLogic.

Section Loop.

Variable system : text -> gmap string text -> gmap string text * Z.
Variable idle : Z.

(** The turn in which the stop key is met. *)
Lemma tick_esc_run w :
  esc_pending w = true -> can_write w STA_NEW = true ->
  tick system idle w
  = mkOut Break
      (with_files (<[STA_TXT := str "BYE" ++ crlf]>
                     (delete STA_NEW
                        (logged w (str "ESC pressed; exiting") (files w))))
         (after_keys w))
      [EvOpenA LOG_TXT; EvRemove STA_NEW; EvOpenW STA_NEW; EvRemove STA_TXT;
       EvRename STA_NEW STA_TXT].
Proof.
  intros Hesc Hsta. rewrite tick_unfold, Hesc. unfold esc_branch.
  rewrite <- (with_files_id (after_keys w)) at 1.
  change (files (after_keys w)) with (files w).
  change [EvOpenA LOG_TXT; EvRemove STA_NEW; EvOpenW STA_NEW; EvRemove STA_TXT;
          EvRename STA_NEW STA_TXT]
    with ([EvOpenA LOG_TXT]
          ++ [EvRemove STA_NEW; EvOpenW STA_NEW; EvRemove STA_TXT;
              EvRename STA_NEW STA_TXT] ++ []).
  step.
  step_with ltac:(apply set_status_run; exact Hsta).
  apply run_ret.
Qed.

Lemma claim_pending_skip w fs :
  fs !! CMD_TXT = None ->
  claim_pending (with_files fs w) = mkOut tt (with_files fs w) [].
Proof.
  intros H. unfold claim_pending.
  change (@nil Event) with (@nil Event ++ [] ++ []).
  step. step. rewrite H, present_none, andb_false_r. apply run_ret.
Qed.

(** A turn with no command waiting. *)
Lemma tick_idle_run w :
  esc_pending w = false ->
  files w !! CMD_TXT = None -> files w !! CMD_RUN = None ->
  tick system idle w
  = mkOut Continue (after_keys w) [EvSleep (to_unsigned idle)].
Proof.
  intros Hesc Htxt Hrun. rewrite tick_unfold, Hesc. unfold cmd_branch.
  rewrite <- (with_files_id (after_keys w)).
  change (files (after_keys w)) with (files w).
  change [EvSleep (to_unsigned idle)]
    with ([] ++ [] ++ [EvSleep (to_unsigned idle)] ++ []).
  step_with ltac:(apply claim_pending_skip; exact Htxt).
  step. rewrite Hrun, present_none. cbv beta iota.
  step. apply run_ret.
Qed.

Lemma no_esc_pending w : no_esc (keys w) = true -> esc_pending w = false.
Proof.
  unfold no_esc, esc_pending. destruct (keys w) as [|k ks]; [reflexivity|].
  simpl. intros H. apply andb_true_iff in H as [H _].
  apply negb_true_iff in H. exact H.
Qed.

Lemma with_keys_id w : with_keys (keys w) w = w.
Proof. destruct w; reflexivity. Qed.

Lemma with_keys_twice ks ks' w : with_keys ks (with_keys ks' w) = with_keys ks w.
Proof. reflexivity. Qed.

(** Without a command and without the stop key, the loop only sleeps. *)
Lemma serve_idle_run n : forall w,
  no_esc (keys w) = true ->
  files w !! CMD_TXT = None -> files w !! CMD_RUN = None ->
  serve system n idle w
  = mkOut None (with_keys (drop n (keys w)) w)
      (repeat (EvSleep (to_unsigned idle)) n).
Proof.
  induction n as [|n IH]; intros w Hk Htxt Hrun.
  - cbn [serve repeat]. rewrite drop_0, with_keys_id. reflexivity.
  - cbn [serve repeat].
    change (EvSleep (to_unsigned idle) :: repeat (EvSleep (to_unsigned idle)) n)
      with ([EvSleep (to_unsigned idle)]
            ++ repeat (EvSleep (to_unsigned idle)) n).
    eapply run_bind;
      [apply tick_idle_run; [apply no_esc_pending, Hk | exact Htxt | exact Hrun]
      | cbv beta iota].
    rewrite IH.
    + unfold after_keys.
      change (keys (with_keys (tl (keys w)) w)) with (tl (keys w)).
      rewrite with_keys_twice.
      replace (drop n (tl (keys w))) with (drop (S n) (keys w))
        by (destruct (keys w); [cbn [tl]; rewrite !drop_nil |]; reflexivity).
      reflexivity.
    + unfold after_keys. cbn [keys with_keys]. unfold no_esc in *.
      destruct (keys w) as [|k ks]; [reflexivity|].
      simpl in Hk. apply andb_true_iff in Hk as [_ Hk]. exact Hk.
    + exact Htxt.
    + exact Hrun.
Qed.

End Loop.

(** *** The log only grows *)

#[export] Instance log_grows_preorder : PreOrder log_grows.
Proof.
  split.
  - intros w. exists []. rewrite app_nil_r. reflexivity.
  - intros a b c [m1 H1] [m2 H2]. exists (m1 ++ m2).
    rewrite H2, H1, app_assoc. reflexivity.
Qed.

Lemma grows_same_file {A} (m : M A) :
  stable (same_file LOG_TXT) m -> stable log_grows m.
Proof.
  intros H w. exists []. unfold log_of. rewrite (H w), app_nil_r. reflexivity.
Qed.

Lemma grows_log_line msg : stable log_grows (log_line msg).
Proof.
  intros w. rewrite <- (with_files_id w) at 2. rewrite log_line_run.
  unfold log_grows, log_of, logged. cbn [post files with_files].
  destruct (can_write w LOG_TXT).
  - eexists. rewrite lookup_insert_eq. reflexivity.
  - exists []. rewrite app_nil_r. reflexivity.
Qed.

Ltac grows_leaf :=
  idtac; lazymatch goal with
  | |- stable log_grows (log_line _) => apply grows_log_line
  | |- stable log_grows (file_exists _) =>
      apply grows_same_file, same_file_file_exists
  | |- stable log_grows (fopen_rt _) =>
      apply grows_same_file, same_file_fopen_rt
  | |- stable log_grows (ms_sleep _) =>
      apply grows_same_file, same_file_ms_sleep
  | |- stable log_grows kbhit => apply grows_same_file, same_file_kbhit
  | |- stable log_grows getch => apply grows_same_file, same_file_getch
  | |- stable log_grows (remove _) =>
      apply grows_same_file, same_file_remove; discriminate
  | |- stable log_grows (rename _ _) =>
      apply grows_same_file, same_file_rename; discriminate
  | |- stable log_grows (fopen_wt _) =>
      apply grows_same_file, same_file_fopen_wt; discriminate
  | |- stable log_grows (fprint _ _) =>
      apply grows_same_file, same_file_fprint; discriminate
  | |- stable log_grows (ask _) => apply stable_ask; typeclasses eauto
  end.

Lemma grows_write_text_atomic temp final txt :
  temp <> LOG_TXT -> final <> LOG_TXT ->
  stable log_grows (write_text_atomic temp final txt).
Proof.
  intros H1 H2. apply grows_same_file, same_file_write_text_atomic; congruence.
Qed.

Lemma grows_set_status st : stable log_grows (set_status st).
Proof.
  unfold set_status.
  apply stable_bind; [typeclasses eauto | | intros ?].
  - apply grows_write_text_atomic; discriminate.
  - compose_with grows_leaf.
Qed.

Lemma grows_claim_tries n : stable log_grows (claim_tries n).
Proof.
  induction n as [|n IH]; simpl; compose_with grows_leaf. exact IH.
Qed.

Lemma grows_copy_payload bufs : forall total,
  stable log_grows (copy_payload bufs total).
Proof.
  induction bufs as [|b bufs IH]; intros total; simpl.
  - apply stable_ret. typeclasses eauto.
  - unfold fputs. compose_with grows_leaf. apply IH.
Qed.

Lemma grows_startup : stable log_grows startup.
Proof.
  unfold startup. compose_with grows_leaf. all: apply grows_set_status.
Qed.

Section Grows.

Variable system : text -> gmap string text -> gmap string text * Z.
Variable idle : Z.
Hypothesis system_keeps_log : keeps_log system.

Lemma grows_call_system cmdline : stable log_grows (call_system system cmdline).
Proof.
  intros w. unfold call_system, bind, emit, get_files, put_files, ret.
  cbn [post val evs]. unfold log_grows, log_of. cbn [files with_files].
  apply system_keeps_log.
Qed.

Lemma grows_process_cmd_run : stable log_grows (process_cmd_run system idle).
Proof.
  unfold process_cmd_run, write_error_output, publish_results,
    exec_job_to_out, build_job_bat_from_cmd, read_first_nonempty_line.
  compose_with ltac:(idtac; lazymatch goal with
    | |- stable log_grows (set_status _) => apply grows_set_status
    | |- stable log_grows (write_text_atomic _ _ _) =>
        apply grows_write_text_atomic; discriminate
    | |- stable log_grows (copy_payload _ _) => apply grows_copy_payload
    | |- stable log_grows (call_system _ _) => apply grows_call_system
    | |- _ => grows_leaf
    end).
Qed.

Lemma grows_tick : stable log_grows (tick system idle).
Proof.
  unfold tick, claim_pending, claim_cmd.
  compose_with ltac:(idtac; lazymatch goal with
    | |- stable log_grows (set_status _) => apply grows_set_status
    | |- stable log_grows (claim_tries _) => apply grows_claim_tries
    | |- stable log_grows (process_cmd_run _ _) => apply grows_process_cmd_run
    | |- _ => grows_leaf
    end).
Qed.

Lemma grows_serve n : stable log_grows (serve system n idle).
Proof.
  induction n as [|n IH]; simpl.
  - apply stable_ret. typeclasses eauto.
  - apply stable_bind; [typeclasses eauto | apply grows_tick | intros c].
    destruct c; [exact IH | apply stable_ret; typeclasses eauto].
Qed.

End Grows.

Lemma grows_main system fuel argv :
  keeps_log system -> stable log_grows (main system fuel argv).
Proof.
  intros H. unfold main.
  apply stable_bind; [typeclasses eauto | apply grows_startup | intros _].
  apply stable_bind; [typeclasses eauto | apply grows_serve, H | intros r].
  destruct r; compose_with grows_leaf.
Qed.

End LoopFacts.

(** X17. When the next pending key is ESC, the turn ends the loop: it logs
    the key, leaves BYE in the status slot and claims nothing; no file
    but the log and the two status files changes, so a published command
    stays where it is. *)
Theorem esc_stops_the_server
  (system : text -> gmap string text -> gmap string text * Z)
  (idle : Z) (w : Guest.World) :
  esc_pending w = true ->
  Guest.can_write w Guest.STA_NEW = true ->
  let r := Guest.tick system idle w in
  Guest.val r = Guest.Break
  /\ Guest.files (Guest.post r) !! Guest.STA_TXT = Some (str "BYE" ++ crlf)
  /\ (forall p, p <> Guest.STA_NEW -> p <> Guest.STA_TXT ->
        p <> Guest.LOG_TXT ->
        Guest.files (Guest.post r) !! p = Guest.files w !! p)
  /\ Guest.evs r
     = [Guest.EvOpenA Guest.LOG_TXT; Guest.EvRemove Guest.STA_NEW;
        Guest.EvOpenW Guest.STA_NEW; Guest.EvRemove Guest.STA_TXT;
        Guest.EvRename Guest.STA_NEW Guest.STA_TXT].
Proof.
  intros Hesc Hsta. cbv zeta.
  rewrite (LoopFacts.tick_esc_run system idle w Hesc Hsta).
  cbn [Guest.val Guest.post Guest.files Guest.with_files Guest.evs].
  split; [reflexivity |]. split; [apply lookup_insert_eq |].
  split; [| reflexivity].
  intros p H1 H2 H3.
  rewrite lookup_insert_ne, lookup_delete_ne by congruence.
  apply GuestFacts.logged_other. exact H3.
Qed.

Lemma esc_stops_the_server_witness :
  let r := Guest.tick idle_shell 100 esc_world in
  Guest.val r = Guest.Break
  /\ Guest.files (Guest.post r) !! Guest.STA_TXT = Some (str "BYE" ++ crlf)
  /\ (forall p, p <> Guest.STA_NEW -> p <> Guest.STA_TXT ->
        p <> Guest.LOG_TXT ->
        Guest.files (Guest.post r) !! p = Guest.files esc_world !! p)
  /\ Guest.evs r
     = [Guest.EvOpenA Guest.LOG_TXT; Guest.EvRemove Guest.STA_NEW;
        Guest.EvOpenW Guest.STA_NEW; Guest.EvRemove Guest.STA_TXT;
        Guest.EvRename Guest.STA_NEW Guest.STA_TXT].
Proof.
  apply (esc_stops_the_server idle_shell 100 esc_world); reflexivity.
Defined.

(** X18. With no command in the mailbox and no ESC among the pending keys,
    the loop never ends by itself: for every number of turns it is still
    running, each turn has read one key and slept for the idle interval,
    and no file has been touched. *)
Theorem idle_server_only_sleeps
  (system : text -> gmap string text -> gmap string text * Z)
  (idle : Z) (n : nat) (w : Guest.World) :
  GuestLogic.no_esc (Guest.keys w) = true ->
  Guest.files w !! Guest.CMD_TXT = None ->
  Guest.files w !! Guest.CMD_RUN = None ->
  Guest.serve system n idle w
  = Guest.mkOut None (Guest.with_keys (drop n (Guest.keys w)) w)
      (repeat (Guest.EvSleep (Guest.to_unsigned idle)) n).
Proof. intros Hk H1 H2. apply LoopFacts.serve_idle_run; assumption. Qed.

Lemma idle_server_only_sleeps_witness :
  Guest.serve idle_shell 3 100 quiet_world
  = Guest.mkOut None
      (Guest.with_keys (drop 3 (Guest.keys quiet_world)) quiet_world)
      (repeat (Guest.EvSleep (Guest.to_unsigned 100)) 3).
Proof.
  apply (idle_server_only_sleeps idle_shell 100 3 quiet_world); reflexivity.
Defined.

(** X19. The log is append-only: whatever the server does from its start
    to its end, with an interpreter that itself only adds to the log, the
    log afterwards is the log before followed by the lines added. *)
Theorem log_only_grows
  (system : text -> gmap string text -> gmap string text * Z)
  (fuel : nat) (argv : list text) (w : Guest.World) :
  GuestLogic.keeps_log system ->
  exists more,
    GuestLogic.log_of (Guest.post (Guest.main system fuel argv w))
    = GuestLogic.log_of w ++ more.
Proof. intros H. apply (LoopFacts.grows_main system fuel argv H w). Qed.

Lemma log_only_grows_witness :
  exists more,
    GuestLogic.log_of (Guest.post (Guest.main idle_shell 2 [] esc_world))
    = GuestLogic.log_of esc_world ++ more.
Proof.
  apply (log_only_grows idle_shell 2 [] esc_world).
  intros cmdline fs. exists []. unfold idle_shell. cbn [fst].
  rewrite app_nil_r. reflexivity.
Defined.

(* ===================================================================== *)
(** ** Further properties of the host: a call of sendCommandAndWait *)
(* ===================================================================== *)

Module SubmitFacts.
Import Chars Spec Host HostLogic HostFacts HostLogic.

Section Grace.

Variable env : Env.
Variable rc_before : option Z.

(** A grace window in which the return code changes at the [k]-th
    probe. *)
Lemma grace_loop_late k : forall fuel grace_end t mt c,
  (k < fuel)%nat ->
  t + 20 * Z.of_nat k < grace_end ->
  (forall j, (j < k)%nat ->
     updated rc_before (fst <$> rc_at env (t + 20 * Z.of_nat j)) = false) ->
  rc_at env (t + 20 * Z.of_nat k) = Some (mt, c) ->
  updated rc_before (Some mt) = true ->
  grace_loop env fuel rc_before grace_end t
  = Some (mkRes (inr (parseReturnCode c)) (t + 20 * Z.of_nat k)
            (grace_polls k t
             ++ [HProbe rc_txt (t + 20 * Z.of_nat k);
                 HRead rc_txt (t + 20 * Z.of_nat k)])).
Proof.
  induction k as [|k IH]; intros fuel grace_end t mt c Hf Hend Hidle Hrc Hup;
    (destruct fuel as [|fuel]; [lia|]).
  - replace (t + 20 * Z.of_nat 0) with t in * by lia.
    apply (grace_loop_hit env rc_before fuel grace_end t mt c Hend Hrc).
    rewrite Hrc. exact Hup.
  - assert (H0 : updated rc_before (fst <$> rc_at env t) = false).
    { specialize (Hidle 0%nat ltac:(lia)).
      replace (t + 20 * Z.of_nat 0) with t in Hidle by lia. exact Hidle. }
    assert (Hr : grace_loop env fuel rc_before grace_end (t + 20)
                 = Some (mkRes (inr (parseReturnCode c))
                           (t + 20 * Z.of_nat (S k))
                           (grace_polls k (t + 20)
                            ++ [HProbe rc_txt (t + 20 * Z.of_nat (S k));
                                HRead rc_txt (t + 20 * Z.of_nat (S k))]))).
    { replace (t + 20 * Z.of_nat (S k)) with (t + 20 + 20 * Z.of_nat k)
        in * by lia.
      apply (IH fuel grace_end (t + 20) mt c); [lia | lia | | exact Hrc | exact Hup].
      intros j Hj. specialize (Hidle (S j) ltac:(lia)).
      replace (t + 20 + 20 * Z.of_nat j) with (t + 20 * Z.of_nat (S j)) by lia.
      exact Hidle. }
    rewrite (grace_loop_miss env rc_before fuel grace_end t _
               ltac:(lia) H0 Hr). reflexivity.
Qed.

End Grace.

Section Submit.

Variable env : Env.
Variable fuel : nat.
Variable command : text.
Variables timeout poll t0 : Z.
Variable i : nat.

Hypothesis poll_nonneg : 0 <= poll.
Hypothesis written : write_ok env t0 = true.
Hypothesis moved : rename_ok env t0 || copy_ok env t0 = true.
Hypothesis nothing_yet : waits env timeout poll t0 i.

(** The call is the publication, [i] idle turns and the turn at
    [t0 + i * poll]. *)
Lemma send_after_waits r :
  wait_loop env (S fuel) (fst <$> out_at env t0) (fst <$> rc_at env t0)
    t0 timeout poll (t0 + Z.of_nat i * poll) = Some r ->
  sendCommandAndWait env (i + S fuel) command timeout poll t0
  = Some (mkRes (outcome r) (now_after r)
            (submit_calls env command t0 poll i (trace r))).
Proof.
  intros Hr.
  assert (Hmax : Z.max 0 poll = poll) by lia.
  rewrite send_published by assumption. unfold the_wait.
  rewrite (wait_loop_misses env _ _ t0 timeout poll i (S fuel) t0 r).
  - reflexivity.
  - intros j Hj. rewrite Hmax. destruct (nothing_yet j Hj) as [H1 H2].
    split; [exact H1 | lia].
  - rewrite Hmax. exact Hr.
Qed.

End Submit.

End SubmitFacts.

(** X20. When the command is published and the output is never seen to
    change, [sendCommandAndWait] throws the timeout error, and gives no
    reply, at the first test that finds the timeout passed since the wait
    started: later than [timeout], and no later than [timeout + poll] plus
    the time of three calls; from the publication on it has only probed
    the result slots and slept.  (Time must pass at each turn: the poll
    interval is positive, or a call takes some time.) *)
Theorem submit_times_out (env : Host.Env) (ms : Z) (lag : Z -> Z)
  (fuel : nat) (command : text) (timeout poll t lo hi : Z) :
  0 < ms ->
  SteadyLogic.bounded lag lo hi -> 0 <= lo ->
  0 < SteadyLogic.turn ms poll lo ->
  (Z.to_nat (timeout * ms / SteadyLogic.turn ms poll lo) + 2 <= fuel)%nat ->
  let start := SteadyLogic.start_of lag t in
  Host.write_ok env start = true ->
  Host.rename_ok env start || Host.copy_ok env start = true ->
  (forall u, start <= u ->
     Host.updated (fst <$> Host.out_at env t) (fst <$> Host.out_at env u)
     = false) ->
  exists r tr,
    Steady.sendCommandAndWait env ms lag fuel command timeout poll t = Some r
    /\ Host.outcome r = inl Host.TimeoutWaiting
    /\ timeout * ms < Host.now_after r - start
       <= Z.max 0 (timeout * ms) + Z.max 0 (poll * ms) + 3 * hi
    /\ Host.trace r = SteadyLogic.publish_calls env lag command t ++ tr
    /\ forallb SteadyLogic.waiting tr = true.
Proof.
  intros Hms Hlag Hlo Hturn Hfuel start Hw Hm Hsilent.
  pose proof (SteadyFacts.after_bounds lag lo hi t Hlag Hlo) as Ht1.
  pose proof (SteadyFacts.after_bounds lag lo hi (SteadyLogic.after lag t)
                Hlag Hlo) as Ht2.
  fold (SteadyLogic.start_of lag t) in Ht2. fold start in Ht2.
  rewrite SteadyFacts.send_published_steady by assumption. fold start.
  destruct (SteadyFacts.wait_loop_silent env ms lag
              (fst <$> Host.out_at env t)
              (fst <$> Host.rc_at env (SteadyLogic.after lag t))
              start timeout poll lo hi Hlag Hlo Hturn Hsilent fuel start)
    as (r & Hr & Ho & Hpast & Hb & Htr).
  - lia.
  - unfold HostLogic.turns_left.
    replace (timeout * ms - (start - start)) with (timeout * ms) by lia.
    destruct (timeout * ms <? 0); lia.
  - rewrite Hr. eexists _, (Host.trace r). split; [reflexivity |].
    cbn [Host.now_after Host.outcome Host.trace].
    split; [exact Ho |]. split; [lia |]. split; [reflexivity | exact Htr].
Qed.

Lemma submit_times_out_witness :
  exists r tr,
    Steady.sendCommandAndWait dead_env us ten_us 3 (str "dir") 100 50 0
    = Some r
    /\ Host.outcome r = inl Host.TimeoutWaiting
    /\ 100 * us < Host.now_after r - SteadyLogic.start_of ten_us 0
       <= Z.max 0 (100 * us) + Z.max 0 (50 * us) + 3 * 10
    /\ Host.trace r
       = SteadyLogic.publish_calls dead_env ten_us (str "dir") 0 ++ tr
    /\ forallb SteadyLogic.waiting tr = true.
Proof.
  apply (submit_times_out dead_env us ten_us 3 (str "dir") 100 50 0 10 10).
  - reflexivity.
  - intros u. unfold ten_us. lia.
  - lia.
  - vm_compute. reflexivity.
  - vm_compute. lia.
  - reflexivity.
  - reflexivity.
  - intros u _. reflexivity.
Defined.

(** X21. When the output and the return code are both seen changed at the
    same turn, [sendCommandAndWait] reads the two files and returns at
    once, without a grace window: the reply holds the output and the
    return code parsed from RC.TXT. *)
Theorem reply_carries_the_return_code (env : Host.Env) (fuel : nat)
  (command : text) (timeout poll t0 : Z) (i : nat)
  (mt mr : Z) (o c : text) :
  0 <= poll ->
  Host.write_ok env t0 = true ->
  Host.rename_ok env t0 || Host.copy_ok env t0 = true ->
  HostLogic.waits env timeout poll t0 i ->
  Host.out_at env (t0 + Z.of_nat i * poll) = Some (mt, o) ->
  Host.updated (fst <$> Host.out_at env t0) (Some mt) = true ->
  Host.rc_at env (t0 + Z.of_nat i * poll) = Some (mr, c) ->
  Host.updated (fst <$> Host.rc_at env t0) (Some mr) = true ->
  Host.sendCommandAndWait env (i + S fuel) command timeout poll t0
  = Some (Host.mkRes (inr (Host.mkReply o (Host.parseReturnCode c)))
            (t0 + Z.of_nat i * poll)
            (HostLogic.submit_calls env command t0 poll i
               [Host.HProbe Host.out_txt (t0 + Z.of_nat i * poll);
                Host.HProbe Host.rc_txt (t0 + Z.of_nat i * poll);
                Host.HRead Host.out_txt (t0 + Z.of_nat i * poll);
                Host.HRead Host.rc_txt (t0 + Z.of_nat i * poll)])).
Proof.
  intros Hpoll Hw Hm Hidle Ho Hout Hr Hrc.
  rewrite (SubmitFacts.send_after_waits env fuel command timeout poll t0 i
             Hpoll Hw Hm Hidle) with
    (r := Host.mkRes (inr (Host.mkReply o (Host.parseReturnCode c)))
            (t0 + Z.of_nat i * poll)
            [Host.HProbe Host.out_txt (t0 + Z.of_nat i * poll);
             Host.HProbe Host.rc_txt (t0 + Z.of_nat i * poll);
             Host.HRead Host.out_txt (t0 + Z.of_nat i * poll);
             Host.HRead Host.rc_txt (t0 + Z.of_nat i * poll)]).
  - reflexivity.
  - apply (HostFacts.wait_loop_hit_rc env _ _ t0 timeout poll fuel _ mt o mr c
             Ho).
    + rewrite Ho. exact Hout.
    + exact Hr.
    + rewrite Hr. exact Hrc.
Qed.

Lemma reply_carries_the_return_code_witness :
  Host.sendCommandAndWait late_env (3 + 1) (str "dir") 5000 50 0
  = Some (Host.mkRes
            (inr (Host.mkReply (str "ok" ++ crlf)
                    (Host.parseReturnCode (str "0" ++ crlf))))
            (0 + Z.of_nat 3 * 50)
            (HostLogic.submit_calls late_env (str "dir") 0 50 3
               [Host.HProbe Host.out_txt (0 + Z.of_nat 3 * 50);
                Host.HProbe Host.rc_txt (0 + Z.of_nat 3 * 50);
                Host.HRead Host.out_txt (0 + Z.of_nat 3 * 50);
                Host.HRead Host.rc_txt (0 + Z.of_nat 3 * 50)])).
Proof.
  apply (reply_carries_the_return_code late_env 0 (str "dir") 5000 50 0 3
           1 1 (str "ok" ++ crlf) (str "0" ++ crlf)).
  - lia.
  - reflexivity.
  - reflexivity.
  - intros j Hj. split; [| lia].
    assert (Hc : j = 0%nat \/ j = 1%nat \/ j = 2%nat) by lia.
    destruct Hc as [-> | [-> | ->]]; reflexivity.
  - reflexivity.
  - reflexivity.
  - reflexivity.
  - reflexivity.
Defined.

(** X22. A return code that changes during the grace window is caught: when
    the output is seen changed first and the return code is seen changed
    at the [j]-th later probe of the window ([1 <= j <= 9], the probes
    being 20ms apart), the reply holds the output read at the first
    instant and the return code parsed then, and it is returned at that
    probe, without waiting for the end of the window. *)
Theorem late_return_code_is_caught (env : Host.Env) (fuel : nat)
  (command : text) (timeout poll t0 : Z) (i j : nat)
  (mt mr : Z) (o c : text) :
  0 <= poll ->
  Host.write_ok env t0 = true ->
  Host.rename_ok env t0 || Host.copy_ok env t0 = true ->
  HostLogic.waits env timeout poll t0 i ->
  let td := t0 + Z.of_nat i * poll in
  Host.out_at env td = Some (mt, o) ->
  Host.updated (fst <$> Host.out_at env t0) (Some mt) = true ->
  (1 <= j <= 9)%nat ->
  (forall j', (j' < j)%nat ->
     Host.updated (fst <$> Host.rc_at env t0)
       (fst <$> Host.rc_at env (td + 20 * Z.of_nat j')) = false) ->
  Host.rc_at env (td + 20 * Z.of_nat j) = Some (mr, c) ->
  Host.updated (fst <$> Host.rc_at env t0) (Some mr) = true ->
  Host.sendCommandAndWait env (i + S fuel) command timeout poll t0
  = Some (Host.mkRes (inr (Host.mkReply o (Host.parseReturnCode c)))
            (td + 20 * Z.of_nat j)
            (HostLogic.submit_calls env command t0 poll i
               (Host.HProbe Host.out_txt td :: Host.HProbe Host.rc_txt td
                :: Host.HRead Host.out_txt td
                :: HostLogic.grace_polls j td
                ++ [Host.HProbe Host.rc_txt (td + 20 * Z.of_nat j);
                    Host.HRead Host.rc_txt (td + 20 * Z.of_nat j)]))).
Proof.
  intros Hpoll Hw Hm Hidle td Ho Hout Hj Hrc0 Hr Hrc.
  assert (H0 : Host.updated (fst <$> Host.rc_at env t0)
                 (fst <$> Host.rc_at env td) = false).
  { specialize (Hrc0 0%nat ltac:(lia)).
    replace (td + 20 * Z.of_nat 0) with td in Hrc0 by lia. exact Hrc0. }
  pose proof (SubmitFacts.grace_loop_late env (fst <$> Host.rc_at env t0) j
                Host.grace_fuel (td + 200) td mr c
                ltac:(unfold Host.grace_fuel; lia) ltac:(lia) Hrc0 Hr Hrc)
    as Hg.
  rewrite (SubmitFacts.send_after_waits env fuel command timeout poll t0 i
             Hpoll Hw Hm Hidle) with
    (r := Host.mkRes (inr (Host.mkReply o (Host.parseReturnCode c)))
            (td + 20 * Z.of_nat j)
            (Host.HProbe Host.out_txt td :: Host.HProbe Host.rc_txt td
             :: Host.HRead Host.out_txt td
             :: HostLogic.grace_polls j td
             ++ [Host.HProbe Host.rc_txt (td + 20 * Z.of_nat j);
                 Host.HRead Host.rc_txt (td + 20 * Z.of_nat j)])).
  - reflexivity.
  - apply (HostFacts.wait_loop_hit_grace env _ _ t0 timeout poll fuel td
             mt o _ _ _ Ho).
    + rewrite Ho. exact Hout.
    + exact H0.
    + exact Hg.
Qed.

Lemma late_return_code_is_caught_witness :
  Host.sendCommandAndWait slow_rc_env (1 + 1) (str "dir") 5000 50 0
  = Some (Host.mkRes
            (inr (Host.mkReply (str "ok" ++ crlf)
                    (Host.parseReturnCode (str "7 " ++ crlf))))
            (0 + Z.of_nat 1 * 50 + 20 * Z.of_nat 2)
            (HostLogic.submit_calls slow_rc_env (str "dir") 0 50 1
               (Host.HProbe Host.out_txt (0 + Z.of_nat 1 * 50)
                :: Host.HProbe Host.rc_txt (0 + Z.of_nat 1 * 50)
                :: Host.HRead Host.out_txt (0 + Z.of_nat 1 * 50)
                :: HostLogic.grace_polls 2 (0 + Z.of_nat 1 * 50)
                ++ [Host.HProbe Host.rc_txt
                      (0 + Z.of_nat 1 * 50 + 20 * Z.of_nat 2);
                    Host.HRead Host.rc_txt
                      (0 + Z.of_nat 1 * 50 + 20 * Z.of_nat 2)]))).
Proof.
  apply (late_return_code_is_caught slow_rc_env 0 (str "dir") 5000 50 0 1 2
           1 1 (str "ok" ++ crlf) (str "7 " ++ crlf)).
  - lia.
  - reflexivity.
  - reflexivity.
  - intros j Hj. assert (j = 0%nat) by lia. subst j.
    split; [reflexivity | lia].
  - reflexivity.
  - reflexivity.
  - lia.
  - intros j' Hj'.
    assert (Hc : j' = 0%nat \/ j' = 1%nat) by lia.
    destruct Hc as [-> | ->]; reflexivity.
  - reflexivity.
  - reflexivity.
Defined.

Module WriteFacts.
Import Chars Spec Host HostLogic HostFacts HostLogic.

Lemma filter_no_write tr :
  forallb (fun e => negb (is_write e)) tr = true -> filter is_write tr = [].
Proof.
  induction tr as [|e tr IH]; [reflexivity|].
  cbn [forallb]. intros H. apply andb_true_iff in H as [He Ht].
  apply negb_true_iff in He.
  rewrite filter_cons. destruct (decide (is_write e)) as [Hd|Hd].
  - rewrite He in Hd. destruct Hd.
  - apply IH, Ht.
Qed.

Lemma passive_no_write e : passive e = true -> negb (is_write e) = true.
Proof. destruct e; simpl; auto; discriminate. Qed.

Lemma send_writes_once env fuel command timeout poll t r :
  sendCommandAndWait env fuel command timeout poll t = Some r ->
  filter is_write (trace r) = [HWrite cmd_new (command ++ crlf)].
Proof.
  intros H.
  destruct (write_ok env t) eqn:Hw.
  - destruct (rename_ok env t || copy_ok env t) eqn:Hm.
    + rewrite send_published in H by assumption.
      destruct (the_wait env fuel timeout poll t) as [rw|] eqn:Hwait;
        [| discriminate].
      injection H as <-.
      change (filter is_write (publish_calls env command t ++ trace rw)
              = [HWrite cmd_new (command ++ crlf)]).
      pose proof (calls_wait_loop env (fun e => negb (is_write e))
                    passive_no_write fuel _ _ _ _ _ _ _ Hwait) as Hq.
      rewrite filter_app, (filter_no_write _ Hq), app_nil_r.
      unfold publish_calls. destruct (rename_ok env t); reflexivity.
    + apply orb_false_iff in Hm as [Hr Hc].
      rewrite send_move_fails in H by assumption.
      injection H as <-. reflexivity.
  - rewrite send_write_fails in H by assumption.
    injection H as <-. reflexivity.
Qed.

End WriteFacts.

(** X23. Whatever its outcome (a reply, the timeout, a failure to write or
    to move the command), a call of [sendCommandAndWait] that ends has
    written one file, once: CMD.NEW, with the command followed by
    CR LF. *)
Theorem submit_writes_the_command_once (env : Host.Env) (fuel : nat)
  (command : text) (timeout poll t : Z) (r : Host.Res Host.Reply) :
  Host.sendCommandAndWait env fuel command timeout poll t = Some r ->
  filter HostLogic.is_write (Host.trace r)
  = [Host.HWrite Host.cmd_new (command ++ crlf)].
Proof. apply WriteFacts.send_writes_once. Qed.

Lemma submit_writes_the_command_once_witness :
  exists r,
    Host.sendCommandAndWait dead_env 4 (str "dir") 100 50 0 = Some r
    /\ filter HostLogic.is_write (Host.trace r)
       = [Host.HWrite Host.cmd_new (str "dir" ++ crlf)].
Proof.
  eexists. split; [vm_compute; reflexivity |].
  apply (submit_writes_the_command_once dead_env 4 (str "dir") 100 50 0).
  vm_compute. reflexivity.
Defined.

(* ===================================================================== *)
(** ** Further properties of the host: the command line and the prompt *)
(* ===================================================================== *)

Module CliFacts.
Import Chars Spec Host HostLogic HostFacts HostLogic.

Lemma hbind_same {A B} (m m' : HM A) (f : A -> HM B) t :
  m t = m' t -> hbind m f t = hbind m' f t.
Proof. intros H. unfold hbind. rewrite H. reflexivity. Qed.

Section Cli.

Variable env : Env.
Variable fuel : nat.

Lemma parse_args_timeout_fails v rest one timeout t :
  extract_int v = None ->
  parse_args (str "--timeout" :: v :: rest) one timeout t
  = Some (mkRes (inl StoiFailed) t []).
Proof.
  intros H. cbn [parse_args].
  rewrite (bool_decide_eq_false_2 (str "--timeout" = str "--cmd"))
    by discriminate.
  rewrite (bool_decide_eq_true_2 (str "--timeout" = str "--timeout"))
    by reflexivity.
  unfold stoi. rewrite H. reflexivity.
Qed.

Lemma parse_args_cmd v rest one timeout t :
  parse_args (str "--cmd" :: v :: rest) one timeout t
  = parse_args rest (Some v) timeout t.
Proof.
  cbn [parse_args].
  rewrite (bool_decide_eq_true_2 (str "--cmd" = str "--cmd")) by reflexivity.
  reflexivity.
Qed.

Lemma parse_args_timeout v n rest one timeout t :
  extract_int v = Some n ->
  parse_args (str "--timeout" :: v :: rest) one timeout t
  = parse_args rest one n t.
Proof.
  intros H. cbn [parse_args].
  rewrite (bool_decide_eq_false_2 (str "--timeout" = str "--cmd"))
    by discriminate.
  rewrite (bool_decide_eq_true_2 (str "--timeout" = str "--timeout"))
    by reflexivity.
  unfold stoi. rewrite H. unfold hbind, hret. simpl.
  destruct (parse_args rest one n t) as [[o n' tr]|]; reflexivity.
Qed.

(** Blank lines at the prompt. *)
Lemma repl_blank timeout n : forall rest t,
  repl env fuel timeout (repeat [] n ++ rest) t
  = match repl env fuel timeout rest t with
    | Some r =>
        Some (mkRes (outcome r) (now_after r)
                (repeat (HOut (str "dos> ")) n ++ trace r))
    | None => None
    end.
Proof.
  induction n as [|n IH]; intros rest t.
  - simpl. destruct (repl env fuel timeout rest t) as [[o n' tr]|]; reflexivity.
  - cbn [repeat app repl].
    rewrite (bool_decide_eq_false_2 ([] = str "exit")) by discriminate.
    rewrite (bool_decide_eq_false_2 ([] = str "quit-guest")) by discriminate.
    rewrite (bool_decide_eq_true_2 (@nil ascii = [])) by reflexivity.
    unfold hbind at 1. unfold say at 1. cbn [outcome now_after trace].
    rewrite IH.
    destruct (repl env fuel timeout rest t) as [[o n' tr]|]; reflexivity.
Qed.

Lemma repl_exit timeout rest t :
  repl env fuel timeout (str "exit" :: rest) t
  = Some (mkRes (inr tt) t [HOut (str "dos> ")]).
Proof.
  cbn [repl].
  rewrite (bool_decide_eq_true_2 (str "exit" = str "exit")) by reflexivity.
  reflexivity.
Qed.

End Cli.

End CliFacts.

(** X24. In one-shot mode a command that cannot be written to CMD.NEW ends
    the program with status 1: an error line goes to the error stream,
    nothing is printed on the output, CMD.TXT is not touched, and no time
    is spent waiting. *)
Theorem one_shot_write_failure_is_status_1 (env : Host.Env) (fuel : nat)
  (prog dir cmd : text) (lines : list text) (t : Z) :
  Host.dir_exists env = true ->
  Host.write_ok env t = false ->
  exists msg,
    Host.main env fuel [prog; dir; str "--cmd"; cmd] lines t
    = Some (1, t,
            [Host.HProbe Host.out_txt t; Host.HProbe Host.rc_txt t;
             Host.HRemove Host.cmd_new;
             Host.HWrite Host.cmd_new (cmd ++ crlf);
             Host.HErr msg]).
Proof.
  intros Hdir Hw. eexists.
  unfold Host.main, Host.main_body. rewrite Hdir.
  unfold Host.hbind at 1. rewrite CliFacts.parse_args_cmd.
  cbn [Host.parse_args]. unfold Host.hret at 1.
  cbn [Host.outcome Host.now_after Host.trace].
  unfold Host.hbind at 1.
  rewrite (HostFacts.send_write_fails env fuel cmd 5000 50 t Hw).
  cbn [Host.outcome Host.now_after Host.trace app]. reflexivity.
Qed.

Lemma one_shot_write_failure_is_status_1_witness :
  exists msg,
    Host.main read_only_env 5 [str "mbxhost"; str "shared"; str "--cmd"; str "dir"]
      [] 0
    = Some (1, 0,
            [Host.HProbe Host.out_txt 0; Host.HProbe Host.rc_txt 0;
             Host.HRemove Host.cmd_new;
             Host.HWrite Host.cmd_new (str "dir" ++ crlf);
             Host.HErr msg]).
Proof.
  apply (one_shot_write_failure_is_status_1 read_only_env 5 (str "mbxhost")
           (str "shared") (str "dir") [] 0); reflexivity.
Defined.

(** X25. Called without a shared directory, or with one that does not
    exist, [main] ends with status 2 after one message on the error
    stream: no file of the mailbox is touched and no time passes. *)
Theorem bad_invocation_is_status_2 (env : Host.Env) (fuel : nat)
  (argv lines : list text) (t : Z) :
  (length argv < 2)%nat \/ Host.dir_exists env = false ->
  exists msg,
    Host.main env fuel argv lines t = Some (2, t, [Host.HErr msg]).
Proof.
  intros H. unfold Host.main, Host.main_body.
  destruct argv as [|prog [|dir opts]].
  - eexists. reflexivity.
  - eexists. reflexivity.
  - destruct H as [H | H]; [simpl in H; lia |].
    rewrite H. eexists. reflexivity.
Qed.

Lemma bad_invocation_is_status_2_witness :
  exists msg,
    Host.main no_dir_env 5 [str "mbxhost"; str "shared"] [] 0
    = Some (2, 0, [Host.HErr msg]).
Proof.
  apply (bad_invocation_is_status_2 no_dir_env 5
           [str "mbxhost"; str "shared"] [] 0).
  right. reflexivity.
Defined.

(** X26. A [--timeout] value that holds no number of the range of [int]
    ends the program with status 1 before anything is sent: the only
    call is the error line. *)
Theorem bad_timeout_is_status_1 (env : Host.Env) (fuel : nat)
  (prog dir v : text) (rest lines : list text) (t : Z) :
  Host.dir_exists env = true ->
  Host.extract_int v = None ->
  exists msg,
    Host.main env fuel (prog :: dir :: str "--timeout" :: v :: rest) lines t
    = Some (1, t, [Host.HErr msg]).
Proof.
  intros Hdir Hv. eexists.
  unfold Host.main, Host.main_body. rewrite Hdir.
  unfold Host.hbind at 1.
  rewrite (CliFacts.parse_args_timeout_fails v rest None 5000 t Hv).
  cbn [Host.outcome Host.now_after Host.trace app]. reflexivity.
Qed.

Lemma bad_timeout_is_status_1_witness :
  exists msg,
    Host.main dead_env 5
      [str "mbxhost"; str "shared"; str "--timeout"; str "soon";
       str "--cmd"; str "dir"] [] 0
    = Some (1, 0, [Host.HErr msg]).
Proof.
  apply (bad_timeout_is_status_1 dead_env 5 (str "mbxhost") (str "shared")
           (str "soon") [str "--cmd"; str "dir"] [] 0); reflexivity.
Defined.

(** X27. The options [--cmd] and [--timeout] may come in either order:
    the program does the same. *)
Theorem options_in_either_order (env : Host.Env) (fuel : nat)
  (prog dir cmd v : text) (lines : list text) (t : Z) :
  Host.main env fuel [prog; dir; str "--cmd"; cmd; str "--timeout"; v] lines t
  = Host.main env fuel [prog; dir; str "--timeout"; v; str "--cmd"; cmd]
      lines t.
Proof.
  assert (Hargs :
    Host.parse_args [str "--cmd"; cmd; str "--timeout"; v] None 5000 t
    = Host.parse_args [str "--timeout"; v; str "--cmd"; cmd] None 5000 t).
  { rewrite CliFacts.parse_args_cmd.
    destruct (Host.extract_int v) as [n|] eqn:Hv.
    - rewrite !(CliFacts.parse_args_timeout v n _ _ _ _ Hv).
      rewrite CliFacts.parse_args_cmd. reflexivity.
    - rewrite !(CliFacts.parse_args_timeout_fails v _ _ _ _ Hv).
      reflexivity. }
  unfold Host.main, Host.main_body.
  destruct (Host.dir_exists env); [| reflexivity].
  rewrite (CliFacts.hbind_same _ _ _ t Hargs). reflexivity.
Qed.

(** X28. At the prompt, empty lines are skipped and [exit] ends the
    session: nothing is sent to the mailbox, the lines after [exit] are
    not read, no time passes and the status is 0. *)
Theorem exit_at_the_prompt_sends_nothing (env : Host.Env) (fuel : nat)
  (prog dir : text) (n : nat) (rest : list text) (t : Z) :
  Host.dir_exists env = true ->
  exists banner,
    Host.main env fuel [prog; dir] (repeat [] n ++ str "exit" :: rest) t
    = Some (0, t,
            Host.HOut banner
            :: repeat (Host.HOut (str "dos> ")) n ++ [Host.HOut (str "dos> ")]).
Proof.
  intros Hdir. eexists.
  unfold Host.main, Host.main_body. rewrite Hdir.
  cbn [Host.parse_args].
  unfold Host.hbind at 1. unfold Host.hret at 1.
  cbn [Host.outcome Host.now_after Host.trace].
  unfold Host.hbind at 1. unfold Host.say at 1.
  cbn [Host.outcome Host.now_after Host.trace].
  unfold Host.hbind at 1.
  rewrite CliFacts.repl_blank, CliFacts.repl_exit.
  unfold Host.hret. cbn [Host.outcome Host.now_after Host.trace].
  rewrite app_nil_r. reflexivity.
Qed.

Lemma exit_at_the_prompt_sends_nothing_witness :
  exists banner,
    Host.main dead_env 5 [str "mbxhost"; str "shared"]
      (repeat [] 2 ++ str "exit" :: [str "dir"]) 0
    = Some (0, 0,
            Host.HOut banner
            :: repeat (Host.HOut (str "dos> ")) 2 ++ [Host.HOut (str "dos> ")]).
Proof.
  apply (exit_at_the_prompt_sends_nothing dead_env 5 (str "mbxhost")
           (str "shared") 2 [str "dir"] 0).
  reflexivity.
Defined.
